(** * Show-summary recomputation engine (op3 worker backend)

    A shallow embedding of [worker/backend/show_summaries.ts] (daily computer,
    monthly aggregator, overall merge, request parser, the phase coordinator
    by its parts, the summary store) and of [worker/backend/audience.ts]
    (monthly audience reducer, daily audience files, keys), with the
    properties of the specification, and further properties of the code,
    stated and proved over it.

    The file has three parts: the embedding, one module for each source
    file; the vocabulary of the properties and the data of the scenarios;
    the facts and the theorems.

    Modelling conventions.
    - Text is [string]: one [ascii] per character and per encoded byte, which
      is what the file formats use (hex digits, digits, dashes, tabs).
    - A JavaScript object used as a map ([Record<string, T>]) is an ordered
      list of own properties, [Js.Obj T], in the order [Object.entries]
      enumerates them: array-index keys first, ascending, then the other keys
      in order of creation.  What such an object inherits from
      [Object.prototype] is [Js.prototype_members]: where the source reads
      [o[k]] with a key taken from the data, the embedding reads
      [Js.obj_member], which tells an own property from an inherited member
      and from [undefined].  [Object.prototype] is taken to hold its
      standard members and nothing else throughout a run.
    - JavaScript numbers that count downloads are [Z].
    - A call that can throw returns a [Result].
    - The blob store is read through [Blobs.Reader], a snapshot of its
      contents, and written through [Blobs.put], which logs every attempt
      and answers as a [Blobs.Writer] says. *)

From Stdlib Require Import String Ascii List ZArith NArith Lia Bool Arith.
From Stdlib Require Import Permutation DecimalString.
Import ListNotations.

Set Warnings "-register-all".
Local Open Scope string_scope.
Local Open Scope list_scope.

(* ================================================================== *)
(** * JavaScript values: strings, objects, JSON                        *)
(* ================================================================== *)

Module Js.

(** [a < b] on strings: lexicographic on code units. *)
Definition str_lt (a b : string) : bool := String.ltb a b.

(** Truthiness of [string | undefined]. *)
Definition truthy (s : option string) : bool :=
  match s with
  | Some s => negb (s =? "")
  | None => false
  end.

(** [`${n}`] for an integer [n]. *)
Definition numberToString (z : Z) : string :=
  NilZero.string_of_int (Z.to_int z).

(** [s.substring(from, to)], for [from <= to]. *)
Definition js_substring (from to : nat) (s : string) : string :=
  String.substring from (to - from) s.

(** [s.split(sep)] for a one-character separator. *)
Fixpoint split_aux (sep : ascii) (cur : string) (s : string) : list string :=
  match s with
  | EmptyString => [cur]
  | String c s' =>
      if Ascii.eqb c sep then cur :: split_aux sep "" s'
      else split_aux sep (cur ++ String c "") s'
  end.

Definition split (sep : ascii) (s : string) : list string := split_aux sep "" s.

(** ** Objects as ordered maps *)

Definition Obj (A : Type) : Type := list (string * A).

Definition is_digit (c : ascii) : bool :=
  ((48 <=? N_of_ascii c) && (N_of_ascii c <=? 57))%N.

Fixpoint digits_value (acc : N) (s : string) : option N :=
  match s with
  | EmptyString => Some acc
  | String c s' =>
      if is_digit c then digits_value (acc * 10 + (N_of_ascii c - 48))%N s'
      else None
  end.

(** A property key is an array index when it is the canonical decimal
    form of an integer below [2^32 - 1]. *)
Definition array_index (k : string) : option N :=
  match k with
  | EmptyString => None
  | String c rest =>
      if Ascii.eqb c "0" && negb (rest =? "") then None
      else match digits_value 0 k with
           | Some n => if (n <? 4294967295)%N then Some n else None
           | None => None
           end
  end.

(** ** What a plain object inherits *)

(** The property names of [Object.prototype] (ECMAScript, Annex B
    included).  A plain object without an own property of such a name
    still answers [o[k]]: with a function or, for [__proto__], with the
    prototype itself.  Either is truthy, and has none of the properties
    the engine reads from its records. *)
Definition prototype_members : list string :=
  [ "constructor"; "hasOwnProperty"; "isPrototypeOf"; "propertyIsEnumerable";
    "toLocaleString"; "toString"; "valueOf"; "__proto__";
    "__defineGetter__"; "__defineSetter__"; "__lookupGetter__"; "__lookupSetter__" ].

Definition inherited (k : string) : bool :=
  existsb (String.eqb k) prototype_members.

(** What [o[k]] finds on a plain object. *)
Inductive Member (A : Type) : Type :=
| Own (a : A)
| Inherited
| NoMember.

Arguments Own {A} a.
Arguments Inherited {A}.
Arguments NoMember {A}.

Section Objects.
Context {A : Type}.

Definition keys (o : Obj A) : list string := map fst o.

(** [o[k]] as an own property. *)
Fixpoint obj_get (k : string) (o : Obj A) : option A :=
  match o with
  | [] => None
  | (k', v) :: o' => if k' =? k then Some v else obj_get k o'
  end.

Fixpoint obj_replace (k : string) (v : A) (o : Obj A) : Obj A :=
  match o with
  | [] => []
  | (k', v') :: o' =>
      if k' =? k then (k', v) :: o' else (k', v') :: obj_replace k v o'
  end.

(** Where a new array-index key goes: before the first key that is not
    a smaller array index. *)
Fixpoint obj_insert_index (n : N) (k : string) (v : A) (o : Obj A) : Obj A :=
  match o with
  | [] => [(k, v)]
  | (k', v') :: o' =>
      match array_index k' with
      | Some n' =>
          if (n' <? n)%N then (k', v') :: obj_insert_index n k v o'
          else (k, v) :: o
      | None => (k, v) :: o
      end
  end.

(** [o[k]], for a key taken from the data. *)
Definition obj_member (k : string) (o : Obj A) : Member A :=
  match obj_get k o with
  | Some a => Own a
  | None => if inherited k then Inherited else NoMember
  end.

(** The own property [k] of [o] is given the value [v]: what
    [Object.fromEntries] and [JSON.parse] do for every key, and what
    [o[k] = v] does for a key that is an own property or is not
    [__proto__]. *)
Definition obj_set (k : string) (v : A) (o : Obj A) : Obj A :=
  match obj_get k o with
  | Some _ => obj_replace k v o
  | None =>
      match array_index k with
      | Some n => obj_insert_index n k v o
      | None => o ++ [(k, v)]
      end
  end.

(** [o[k] = v] for a value [v] that is no object, where nothing is known
    of [k]: [__proto__], unless [o] has it as an own property, is the
    accessor of [Object.prototype], whose setter ignores such a value. *)
Definition obj_assign (k : string) (v : A) (o : Obj A) : Obj A :=
  match obj_get k o with
  | Some _ => obj_set k v o
  | None => if k =? "__proto__" then o else obj_set k v o
  end.

(** [Object.fromEntries(entries)]. *)
Definition fromEntries (entries : list (string * A)) : Obj A :=
  fold_left (fun o kv => obj_set (fst kv) (snd kv) o) entries [].

(** [sortBy(entries, v => v[0])] (of the standard library of the
    runtime): a stable sort on the key. *)
Fixpoint sort_insert (kv : string * A) (l : list (string * A)) : list (string * A) :=
  match l with
  | [] => [kv]
  | kv' :: l' =>
      if str_lt (fst kv') (fst kv) then kv' :: sort_insert kv l'
      else kv :: l
  end.

Definition sortBy_key (l : list (string * A)) : list (string * A) :=
  fold_right sort_insert [] l.

End Objects.

(** [!o[k]] on an object of strings: an own string is truthy unless it is
    empty, and an inherited member is truthy. *)
Definition falsy_at (k : string) (o : Obj string) : bool :=
  match obj_member k o with
  | Own s => s =? ""
  | Inherited => false
  | NoMember => true
  end.

(** ** JSON-shaped values *)

Inductive JsValue : Type :=
| JsUndefined
| JsNumber (z : Z)
| JsString (s : string)
| JsArray (l : list JsValue)
| JsObject (o : list (string * JsValue)).

(** Keys in the order [JSON.stringify] emits them. *)
Definition js_keys (v : JsValue) : list string :=
  match v with
  | JsObject o => map fst o
  | _ => []
  end.

Definition js_field (k : string) (v : JsValue) : JsValue :=
  match v with
  | JsObject o => match obj_get k o with Some x => x | None => JsUndefined end
  | _ => JsUndefined
  end.

(** [typeof v === 'string'] and [v === undefined]. *)
Definition is_string (v : JsValue) : bool :=
  match v with
  | JsString _ => true
  | _ => false
  end.

Definition is_undefined (v : JsValue) : bool :=
  match v with
  | JsUndefined => true
  | _ => false
  end.

(** A [Record<string, number>] and a [Record<string, string>] as values. *)
Definition countsJs (o : Obj Z) : JsValue :=
  JsObject (map (fun kv => (fst kv, JsNumber (snd kv))) o).

Definition stringsJs (o : Obj string) : JsValue :=
  JsObject (map (fun kv => (fst kv, JsString (snd kv))) o).

(** ** Regular expressions: a lazy group followed by a literal *)

Definition is_line_terminator (c : ascii) : bool :=
  Ascii.eqb c "010" || Ascii.eqb c "013".

Definition drop (n : nat) (s : string) : string :=
  String.substring n (String.length s - n) s.

(** [(.*?)sep] followed by the rest of the pattern, [k]: the group [g]
    grows one character at a time until [sep] and the rest match. *)
Fixpoint lazy_group {R : Type} (sep : string) (k : string -> string -> option R)
    (g : string) (s : string) : option R :=
  match (if String.prefix sep s then k g (drop (String.length sep) s) else None) with
  | Some r => Some r
  | None =>
      match s with
      | EmptyString => None
      | String c s' =>
          if is_line_terminator c then None
          else lazy_group sep k (g ++ String c "") s'
      end
  end.

(** Ascending keys, strictly. *)
Fixpoint keys_ascending (l : list string) : bool :=
  match l with
  | [] => true
  | k :: l' =>
      match l' with
      | [] => true
      | k' :: _ => str_lt k k' && keys_ascending l'
      end
  end.

(** Ascending keys, repeats allowed. *)
Fixpoint ascending (l : list string) : Prop :=
  match l with
  | [] => True
  | k :: l' => (forall k', In k' l' -> str_lt k' k = false) /\ ascending l'
  end.

(** Every mapping of the value, at every depth, has ascending keys. *)
Fixpoint sorted_recursively (v : JsValue) : bool :=
  match v with
  | JsObject o =>
      keys_ascending (map fst o)
      && forallb (fun kv => sorted_recursively (snd kv)) o
  | JsArray l => forallb sorted_recursively l
  | _ => true
  end.

End Js.

(* ================================================================== *)
(** * Results of calls that can throw                                  *)
(* ================================================================== *)

(** The error kinds of the engine.  [StorageError retryable] is a fault
    reported by the blob store, with the verdict of the adapter's
    retryable classifier.  [TypeError what] is the fault of the runtime on
    a property read from [undefined], [what] being the property that was
    [undefined]. *)
Inductive Error : Type :=
| InvalidInput (what : string)
| MissingInput (key : string)
| CorruptInput (what : string)
| UnsupportedConfig (what : string)
| LengthMismatch
| StorageError (retryable : bool)
| TypeError (what : string).

Inductive Result (A : Type) : Type :=
| OK (a : A)
| Throw (e : Error).

Arguments OK {A} a.
Arguments Throw {A} e.

Definition bind {A B : Type} (r : Result A) (f : A -> Result B) : Result B :=
  match r with
  | OK a => f a
  | Throw e => Throw e
  end.

Notation "x <- c ;; k" := (bind c (fun x => k))
  (at level 61, c at next level, right associativity).

(** [for (const x of xs) body], where the body can throw. *)
Fixpoint forOf {S X : Type} (body : S -> X -> Result S) (xs : list X) (s : S)
  : Result S :=
  match xs with
  | [] => OK s
  | x :: xs' => s' <- body s x ;; forOf body xs' s'
  end.

(* ================================================================== *)
(** * [worker/summaries.ts]: the summary accumulator                   *)
(* ================================================================== *)

Module Summaries.
Import Js.

(** [map[key] ?? 0]. *)
Definition count_of (key : string) (map : Obj Z) : Z :=
  match obj_get key map with
  | Some n => n
  | None => 0%Z
  end.

(** Modelled from the spec: [increment] of [summaries.ts], which is not
    among the sources; [map[key] = (map[key] ?? 0) + 1]. *)
Definition increment (map : Obj Z) (key : string) : Obj Z :=
  obj_set key (count_of key map + 1)%Z map.

(** Modelled from the spec: [incrementAll] of [summaries.ts];
    [dest[k] += src[k]] for every [k] in [src], an absent [dest[k]]
    counting as zero as in [increment]. *)
Definition incrementAll (dest src : Obj Z) : Obj Z :=
  fold_left (fun d kv => obj_set (fst kv) (count_of (fst kv) d + snd kv)%Z d)
            src dest.

(** Modelled from the spec: [total] of [summaries.ts]; the sum of the
    values. *)
Definition total (map : Obj Z) : Z :=
  fold_right (fun kv acc => (snd kv + acc)%Z) 0%Z map.

End Summaries.

(* ================================================================== *)
(** * [worker/backend/blobs.ts]: the blob store                        *)
(* ================================================================== *)

Module Blobs.
Import Js.

(** One record of a show-daily TSV file, as [yieldTsvFromStream] yields
    it: a column that is missing is an absent key. *)
Record TsvRow : Type := {
  botType : option string;
  time : option string;
  episodeId : option string;
  audienceId : option string;
  countryCode : option string;
  continentCode : option string;
  regionName : option string;
  agentType : option string;
  agentName : option string;
  deviceType : option string;
  deviceName : option string;
  referrerType : option string;
  referrerName : option string;
  metroCode : option string;
  tags : option string
}.

(** The read operations of the [Blobs] interface, each composed with the
    decoder its caller applies to the body ([yieldTsvFromStream],
    [JSON.parse], [computeLinestream]; none is among the sources).  A
    missing key is [None]. *)
Record Reader : Type := {
  list_keys : string -> list string;
  get_tsv : string -> option (list TsvRow * string);
  get_json : string -> option (JsValue * string);
  get_lines : string -> option (list string)
}.

(** What a caller hands to [put]. *)
Inductive PutBody : Type :=
| JsonBody (v : JsValue)
| TextBody (s : string)
| FixedLengthBody (declared : Z) (bytes : string).

(** The write side: [answers key n] is how the store answers the [n]-th
    [put] on [key] (counting from 0), an etag or a storage fault. *)
Definition Writer : Type := string -> nat -> Result string.

(** The [put]s issued so far. *)
Definition PutLog : Type := list (string * PutBody).

(** How many [put]s the log holds for a key. *)
Definition attempts (key : string) (log : PutLog) : nat :=
  List.length (filter (fun e => fst e =? key) log).

(** Modelled from the spec: the fixed-length stream contract of the
    platform's [FixedLengthStream]; a write whose byte count differs from
    the declared length is rejected. *)
Definition lengthHonoured (body : PutBody) : bool :=
  match body with
  | FixedLengthBody declared bytes => (declared =? Z.of_nat (String.length bytes))%Z
  | _ => true
  end.

(** [statsBlobs.put(key, body)]: the attempt is logged, and the store
    answers unless the stream contract already rejects the body. *)
Definition put (answers : Writer) (key : string) (body : PutBody) (log : PutLog)
  : Result string * PutLog :=
  let outcome :=
    if lengthHonoured body then answers key (attempts key log)
    else Throw LengthMismatch in
  (outcome, log ++ [(key, body)]).

End Blobs.

(* ================================================================== *)
(** * [worker/sleep.ts]: bounded retry                                 *)
(* ================================================================== *)

Module Sleep.
Import Blobs.

(** Modelled from the spec: [executeWithRetries] of [sleep.ts], which is
    not among the sources; a bounded retry that runs [fn] again after a
    failure the classifier calls retryable, at most [maxRetries] times. *)
Fixpoint executeWithRetries {A : Type} (fn : PutLog -> Result A * PutLog)
    (maxRetries : nat) (isRetryable : Error -> bool) (log : PutLog)
  : Result A * PutLog :=
  match fn log with
  | (OK a, log') => (OK a, log')
  | (Throw e, log') =>
      if isRetryable e then
        match maxRetries with
        | O => (Throw e, log')
        | S n => executeWithRetries fn n isRetryable log'
        end
      else (Throw e, log')
  end.

(** Modelled from the spec: what is left of [executeWithRetries] once
    the first call of [fn] has answered [first].  The call of
    [executeWithRetries] starts that first call itself, and what its
    caller starts next comes before any retry. *)
Definition retriesAfter {A : Type} (fn : PutLog -> Result A * PutLog)
    (maxRetries : nat) (isRetryable : Error -> bool) (first : Result A)
    (log : PutLog) : Result A * PutLog :=
  match first with
  | OK a => (OK a, log)
  | Throw e =>
      if isRetryable e then
        match maxRetries with
        | O => (Throw e, log)
        | S n => executeWithRetries fn n isRetryable log
        end
      else (Throw e, log)
  end.

End Sleep.

(* ================================================================== *)
(** * [worker/check.ts], [worker/uuid.ts]: validators                  *)
(* ================================================================== *)

(** The validators are not among the sources.  The functions that call
    them take them as parameters; the models below, from the formats the
    spec gives, are what the scenarios instantiate them with. *)
Module Check.
Import Js.

(** Modelled from the spec: [isValidMonth] of [check.ts]; a month is
    [YYYY-MM]. *)
Definition isValidMonth (s : string) : bool :=
  (String.length s =? 7)%nat
  && match list_ascii_of_string s with
     | [y1; y2; y3; y4; d; m1; m2] =>
         is_digit y1 && is_digit y2 && is_digit y3 && is_digit y4
         && Ascii.eqb d "-" && is_digit m1 && is_digit m2
     | _ => false
     end.

(** Modelled from the spec: [isValidDate] of [check.ts]; a date is
    [YYYY-MM-DD]. *)
Definition isValidDate (s : string) : bool :=
  (String.length s =? 10)%nat
  && match list_ascii_of_string s with
     | [y1; y2; y3; y4; d; m1; m2; e; d1; d2] =>
         is_digit y1 && is_digit y2 && is_digit y3 && is_digit y4
         && Ascii.eqb d "-" && is_digit m1 && is_digit m2
         && Ascii.eqb e "-" && is_digit d1 && is_digit d2
     | _ => false
     end.

(** A digit or a letter from [a] to [f]. *)
Definition is_lower_hex (c : ascii) : bool :=
  is_digit c || ((97 <=? N_of_ascii c) && (N_of_ascii c <=? 102))%N.

(** Modelled from the spec: [isValidUuid] of [uuid.ts]; a show is
    identified by a UUID, written in the keys as 32 hexadecimal digits
    (the key pattern ends the id at the first dash). *)
Definition isValidUuid (s : string) : bool :=
  (String.length s =? 32)%nat && forallb is_lower_hex (list_ascii_of_string s).

(** Modelled from the spec: [tryParseInt] of [check.ts]; the integer a
    string of digits denotes, if the parameter is one. *)
Definition tryParseInt (s : option string) : option Z :=
  match s with
  | Some (String c rest) => option_map Z.of_N (digits_value 0 (String c rest))
  | _ => None
  end.

(** Modelled from the spec: [isStringRecord] of [check.ts], which is not
    among the sources; the test for a plain object, a mapping of the spec,
    as [computeSorted] takes it. *)
Definition isStringRecord (obj : JsValue) : bool :=
  match obj with
  | JsObject _ => true
  | _ => false
  end.

End Check.

(* ================================================================== *)
(** * [worker/backend/show_summaries.ts]                               *)
(* ================================================================== *)

Module ShowSummaries.
Import Js Summaries Blobs.

(** [interface EpisodeSummary]. *)
Record EpisodeSummary : Type := {
  ep_hourlyDownloads : Obj Z;
  ep_firstHour : string
}.

(** [interface ShowSummary]; [dimensionDownloads] is optional. *)
Record ShowSummary : Type := {
  showUuid : string;
  period : string;
  hourlyDownloads : Obj Z;
  episodes : Obj EpisodeSummary;
  sources : Obj string;
  dimensionDownloads : option (Obj (Obj Z))
}.

(** ** Typed summaries as JSON-shaped values, and back *)

(** The object literals of the source, property by property. *)
Definition episodeJs (e : EpisodeSummary) : JsValue :=
  JsObject [ ("hourlyDownloads", countsJs (ep_hourlyDownloads e));
             ("firstHour", JsString (ep_firstHour e)) ].

Definition episodesJs (o : Obj EpisodeSummary) : JsValue :=
  JsObject (map (fun kv => (fst kv, episodeJs (snd kv))) o).

Definition dimensionsJs (o : Obj (Obj Z)) : JsValue :=
  JsObject (map (fun kv => (fst kv, countsJs (snd kv))) o).

(** Reading a value at a type fails on any other shape. *)
Definition obind {A B : Type} (o : option A) (f : A -> option B) : option B :=
  match o with
  | Some a => f a
  | None => None
  end.

Fixpoint traverse {A B : Type} (f : A -> option B) (l : list A)
  : option (list B) :=
  match l with
  | [] => Some []
  | a :: l' =>
      obind (f a) (fun b => obind (traverse f l') (fun bs => Some (b :: bs)))
  end.

Definition asNumber (v : JsValue) : option Z :=
  match v with JsNumber z => Some z | _ => None end.

Definition asString (v : JsValue) : option string :=
  match v with JsString s => Some s | _ => None end.

Definition asObj {A : Type} (dec : JsValue -> option A) (v : JsValue)
  : option (Obj A) :=
  match v with
  | JsObject o =>
      traverse (fun kv => option_map (pair (fst kv)) (dec (snd kv))) o
  | _ => None
  end.

Definition asEpisodeSummary (v : JsValue) : option EpisodeSummary :=
  obind (asObj asNumber (js_field "hourlyDownloads" v)) (fun h =>
  obind (asString (js_field "firstHour" v)) (fun f =>
  Some {| ep_hourlyDownloads := h; ep_firstHour := f |})).

(** A runtime value read at type [ShowSummary]: the shape
    [isValidShowSummary] checks and the types of the interface below it,
    every mapping in the order the object holds its properties. *)
Definition asShowSummary (v : JsValue) : option ShowSummary :=
  obind (asString (js_field "showUuid" v)) (fun u =>
  obind (asString (js_field "period" v)) (fun p =>
  obind (asObj asNumber (js_field "hourlyDownloads" v)) (fun h =>
  obind (asObj asEpisodeSummary (js_field "episodes" v)) (fun e =>
  obind (asObj asString (js_field "sources" v)) (fun s =>
  obind (match js_field "dimensionDownloads" v with
         | JsUndefined => Some None
         | d => option_map Some (asObj (asObj asNumber) d)
         end) (fun d =>
  Some {| showUuid := u; period := p; hourlyDownloads := h; episodes := e;
          sources := s; dimensionDownloads := d |})))))).

(** [JSON.parse] builds every object by defining its members in turn: a
    repeated member name keeps the last value, and the properties come out
    in enumeration order. *)
Definition parsedEpisode (e : EpisodeSummary) : EpisodeSummary :=
  {| ep_hourlyDownloads := fromEntries (ep_hourlyDownloads e);
     ep_firstHour := ep_firstHour e |}.

Definition parsedSummary (s : ShowSummary) : ShowSummary :=
  {| showUuid := showUuid s;
     period := period s;
     hourlyDownloads := fromEntries (hourlyDownloads s);
     episodes :=
       fromEntries (map (fun kv => (fst kv, parsedEpisode (snd kv))) (episodes s));
     sources := fromEntries (sources s);
     dimensionDownloads :=
       option_map (fun d => fromEntries (map (fun kv => (fst kv, fromEntries (snd kv))) d))
                  (dimensionDownloads s) |}.

(** [JSON.parse(text) as ShowSummary], on the JSON document of a blob. *)
Definition parseShowSummary (doc : JsValue) : option ShowSummary :=
  option_map parsedSummary (asShowSummary doc).

(** ** [computeSorted] *)

(** [Object.fromEntries(sortBy(Object.entries(record), v => v[0]))]. *)
Definition computeSortedRecord (record : list (string * JsValue))
  : list (string * JsValue) :=
  fromEntries (sortBy_key record).

(** [isStringRecord] (of [check.ts]) holds of plain objects. *)
Fixpoint computeSorted (obj : JsValue) : JsValue :=
  match obj with
  | JsArray l => JsArray (map computeSorted l)
  | JsObject o => JsObject (computeSortedRecord o)
  | _ => obj
  end.

(** ** Keys *)

Definition computeShowSummaryKey (showUuid period : string) : string :=
  "summaries/show/" ++ showUuid ++ "/" ++ showUuid ++ "-" ++ period
    ++ ".summary.json".

(** [saveShowSummary]: the [put] it issues, [JSON.stringify] keeping the
    properties in the order the object holds them. *)
Definition saveShowSummary (summary : JsValue) : string * PutBody :=
  let showUuid := match js_field "showUuid" summary with JsString s => s | _ => "undefined" end in
  let period := match js_field "period" summary with JsString s => s | _ => "undefined" end in
  (computeShowSummaryKey showUuid period, JsonBody summary).

(** ** The daily computer *)

(** Modelled from the spec: [computeTimestamp] of [timestamp.ts], which is
    not among the sources; it drops the characters that are not digits and
    keeps the first 15 of the rest. *)
Fixpoint digits_only (s : string) : string :=
  match s with
  | EmptyString => EmptyString
  | String c s' => if is_digit c then String c (digits_only s') else digits_only s'
  end.

Definition computeTimestamp (time : string) : string :=
  js_substring 0 15 (digits_only time).

(** The four maps the loop of [computeShowSummaryForDate] fills. *)
Record DailyAcc : Type := {
  d_hourlyDownloads : Obj Z;
  d_episodes : Obj EpisodeSummary;
  d_audienceTimestamps : Obj string;
  d_dimensionDownloads : Obj (Obj Z)
}.

Definition emptyDaily : DailyAcc :=
  {| d_hourlyDownloads := []; d_episodes := []; d_audienceTimestamps := [];
     d_dimensionDownloads := [] |}.

(** The closure [incrementDimension], on the map it updates. *)
Definition incrementDimension (dimensionDownloads : Obj (Obj Z))
    (dimension key : string) : Obj (Obj Z) :=
  let downloads :=
    match obj_get dimension dimensionDownloads with
    | Some d => d
    | None => []
    end in
  obj_set dimension (increment downloads key) dimensionDownloads.

(** A destructuring default: [x = d]. *)
Definition orDefault (d : string) (x : option string) : string :=
  match x with
  | Some v => v
  | None => d
  end.

(** The episode part of the loop body.  When [episodes[episodeId]] is
    an inherited member, the guard [!record] does not fire,
    [record.firstHour] is [undefined], so that [hour < record.firstHour]
    is false, and [increment(record.hourlyDownloads, hour)] reads a
    property of [undefined]. *)
Definition recordEpisode (episodes : Obj EpisodeSummary) (episodeId hour : string)
  : Result (Obj EpisodeSummary) :=
  let recorded (record : EpisodeSummary) : Obj EpisodeSummary :=
    let record :=
      if str_lt hour (ep_firstHour record)
      then {| ep_hourlyDownloads := ep_hourlyDownloads record; ep_firstHour := hour |}
      else record in
    obj_set episodeId
      {| ep_hourlyDownloads := increment (ep_hourlyDownloads record) hour;
         ep_firstHour := ep_firstHour record |}
      episodes in
  match obj_member episodeId episodes with
  | Own record => OK (recorded record)
  | NoMember => OK (recorded {| ep_hourlyDownloads := []; ep_firstHour := hour |})
  | Inherited => Throw (TypeError "hourlyDownloads")
  end.

(** The dimensional increments of the loop body. *)
Definition recordDimensions (dims : Obj (Obj Z)) (obj : TsvRow) : Obj (Obj Z) :=
  let countryCode := orDefault "XX" (countryCode obj) in
  let continentCode := orDefault "XX" (continentCode obj) in
  let regionName := orDefault "Unknown" (regionName obj) in
  let agentType := orDefault "unknown" (agentType obj) in
  let agentName := orDefault "Unknown" (agentName obj) in
  let deviceType := orDefault "unknown" (deviceType obj) in
  let deviceName := orDefault "Unknown" (deviceName obj) in
  let referrerName := orDefault "Unknown" (referrerName obj) in
  let dims := incrementDimension dims "countryCode" countryCode in
  let dims :=
    match metroCode obj with
    | Some m => if truthy (Some m) then incrementDimension dims "metroCode" m else dims
    | None => dims
    end in
  let dims :=
    if continentCode =? "EU"
    then incrementDimension dims "euRegion" (regionName ++ ", " ++ countryCode)
    else dims in
  let dims :=
    if continentCode =? "AS"
    then incrementDimension dims "asRegion" (regionName ++ ", " ++ countryCode)
    else dims in
  let dims :=
    if (countryCode =? "AU") || (countryCode =? "NZ")
    then incrementDimension dims "auRegion" (regionName ++ ", " ++ countryCode)
    else dims in
  let dims :=
    if countryCode =? "CA"
    then incrementDimension dims "caRegion" regionName
    else dims in
  let dims :=
    if ((continentCode =? "NA") || (continentCode =? "SA"))
       && negb (countryCode =? "US") && negb (countryCode =? "CA")
    then incrementDimension dims "latamRegion" (regionName ++ ", " ++ countryCode)
    else dims in
  let dims :=
    if continentCode =? "AF"
    then incrementDimension dims "afRegion" (regionName ++ ", " ++ countryCode)
    else dims in
  let dims :=
    if agentType =? "app" then incrementDimension dims "appName" agentName
    else if agentType =? "browser" then
      let dims := incrementDimension dims "browserName" agentName in
      match referrerType obj with
      | Some r =>
          if truthy (Some r)
          then incrementDimension dims "referrer" (r ++ "." ++ referrerName)
          else dims
      | None => dims
      end
    else if agentType =? "library" then incrementDimension dims "libraryName" agentName
    else dims in
  let dims := incrementDimension dims "deviceType" deviceType in
  let dims := incrementDimension dims "deviceName" deviceName in
  match tags obj with
  | Some t =>
      if truthy (Some t)
      then fold_left (fun d tag => incrementDimension d "tag" tag) (split "," t) dims
      else dims
  | None => dims
  end.

(** The body of [for await (const obj of yieldTsvFromStream(stream))]. *)
Definition processRow (acc : DailyAcc) (obj : TsvRow) : Result DailyAcc :=
  match time obj with
  | None => Throw (CorruptInput "Undefined time")
  | Some time =>
      let hour := js_substring 0 13 time in
      match botType obj with
      | Some _ => OK acc
      | None =>
          let hourly := increment (d_hourlyDownloads acc) hour in
          let audience :=
            match audienceId obj with
            | Some a =>
                if truthy (Some a) && falsy_at a (d_audienceTimestamps acc)
                then obj_set a (computeTimestamp time) (d_audienceTimestamps acc)
                else d_audienceTimestamps acc
            | None => d_audienceTimestamps acc
            end in
          episodes <-
            match episodeId obj with
            | Some e => recordEpisode (d_episodes acc) e hour
            | None => OK (d_episodes acc)
            end ;;
          OK {| d_hourlyDownloads := hourly;
                d_episodes := episodes;
                d_audienceTimestamps := audience;
                d_dimensionDownloads := recordDimensions (d_dimensionDownloads acc) obj |}
      end
  end.

(** The object literal handed to [computeSorted] by both computers. *)
Definition summaryLiteral (showUuid period : string) (hourly : Obj Z)
    (episodes : Obj EpisodeSummary) (dims : Obj (Obj Z)) (sources : Obj string)
  : JsValue :=
  JsObject [ ("showUuid", JsString showUuid);
             ("period", JsString period);
             ("hourlyDownloads", countsJs hourly);
             ("episodes", episodesJs episodes);
             ("dimensionDownloads", dimensionsJs dims);
             ("sources", stringsJs sources) ].

Section Computers.
(** [computeShowDailyKey] of [downloads.ts] is not among the sources. *)
Variable computeShowDailyKey : string -> string -> string.
Variable statsBlobs : Reader.

Definition computeShowSummaryForDate (showUuid date : string)
  : Result (JsValue * Obj string) :=
  let key := computeShowDailyKey showUuid date in
  match get_tsv statsBlobs key with
  | None => Throw (MissingInput key)
  | Some (rows, etag) =>
      acc <- forOf processRow rows emptyDaily ;;
      OK (computeSorted
            (summaryLiteral showUuid date (d_hourlyDownloads acc) (d_episodes acc)
               (d_dimensionDownloads acc) (fromEntries [(key, etag)])),
          d_audienceTimestamps acc)
  end.

(** ** The monthly aggregator *)

(** The four maps the loop of [computeShowSummaryAggregate] fills. *)
Record MonthAcc : Type := {
  m_hourlyDownloads : Obj Z;
  m_sources : Obj string;
  m_episodes : Obj EpisodeSummary;
  m_dimensionDownloads : Obj (Obj Z)
}.

Definition emptyMonth : MonthAcc :=
  {| m_hourlyDownloads := []; m_sources := []; m_episodes := [];
     m_dimensionDownloads := [] |}.

(** The body of the loop over
    [Object.entries(summary.dimensionDownloads ?? {})].  When
    [dimensionDownloads[dimension]] is an inherited member, the guard
    [!record] does not fire and [incrementAll] is handed that member: the
    month gets no such dimension.  What [incrementAll], which is not among
    the sources, leaves on the member is no part of the summary and is not
    represented. *)
Definition mergeDimension (dims : Obj (Obj Z)) (entry : string * Obj Z)
  : Obj (Obj Z) :=
  match obj_member (fst entry) dims with
  | Own record => obj_set (fst entry) (incrementAll record (snd entry)) dims
  | NoMember => obj_set (fst entry) (incrementAll [] (snd entry)) dims
  | Inherited => dims
  end.

(** The body of the loop over [Object.entries(summary.episodes)].  When
    [episodes[episodeId]] is an inherited member, the guard does not fire,
    [record.firstHour] is [undefined], so that the comparison is false, and
    [incrementAll] is handed [undefined]: it reads a property of it for
    the first key of [epSummary.hourlyDownloads], if there is one. *)
Definition mergeEpisode (episodes : Obj EpisodeSummary)
    (entry : string * EpisodeSummary) : Result (Obj EpisodeSummary) :=
  let epSummary := snd entry in
  let merged (record : EpisodeSummary) : Obj EpisodeSummary :=
    let record :=
      if str_lt (ep_firstHour epSummary) (ep_firstHour record)
      then {| ep_hourlyDownloads := ep_hourlyDownloads record;
              ep_firstHour := ep_firstHour epSummary |}
      else record in
    obj_set (fst entry)
      {| ep_hourlyDownloads :=
           incrementAll (ep_hourlyDownloads record) (ep_hourlyDownloads epSummary);
         ep_firstHour := ep_firstHour record |}
      episodes in
  match obj_member (fst entry) episodes with
  | Own record => OK (merged record)
  | NoMember =>
      OK (merged {| ep_hourlyDownloads := []; ep_firstHour := ep_firstHour epSummary |})
  | Inherited =>
      match ep_hourlyDownloads epSummary with
      | [] => OK episodes
      | _ :: _ => Throw (TypeError "hourlyDownloads")
      end
  end.

(** What one read summary adds to the month, in the order of the loop
    body; [sources[key] = etag] comes last. *)
Definition addSummary (acc : MonthAcc) (key etag : string) (summary : ShowSummary)
  : Result MonthAcc :=
  let hourly := incrementAll (m_hourlyDownloads acc) (hourlyDownloads summary) in
  let dims :=
    fold_left mergeDimension
      (match dimensionDownloads summary with Some d => d | None => [] end)
      (m_dimensionDownloads acc) in
  episodes <- forOf mergeEpisode (episodes summary) (m_episodes acc) ;;
  OK {| m_hourlyDownloads := hourly;
        m_sources := obj_assign key etag (m_sources acc);
        m_episodes := episodes;
        m_dimensionDownloads := dims |}.

(** The body of [for (const { key, result } of results)].  The cast of
    the parsed text to [ShowSummary] is unchecked in the source; a document
    of another shape is outside the embedding and is reported as corrupt. *)
Definition aggregateResult (acc : MonthAcc)
    (r : string * option (JsValue * string)) : Result MonthAcc :=
  match snd r with
  | None => OK acc
  | Some (doc, etag) =>
      match parseShowSummary doc with
      | Some summary => addSummary acc (fst r) etag summary
      | None => Throw (CorruptInput (fst r))
      end
  end.

Definition computeShowSummaryAggregate (showUuid : string)
    (inputKeys : list string) (outputPeriod : string) : Result JsValue :=
  let results := map (fun v => (v, get_json statsBlobs v)) inputKeys in
  acc <- forOf aggregateResult results emptyMonth ;;
  OK (computeSorted
        (summaryLiteral showUuid outputPeriod (m_hourlyDownloads acc)
           (m_episodes acc) (m_dimensionDownloads acc) (m_sources acc))).

End Computers.

(** ** The overall merge *)

(** The loop body of [tryComputeNewOverall], on [rt.episodes] and
    [changed].  When [rt.episodes[episodeId]] is an inherited member,
    [!existingEpSummary] is false and so is the comparison with its
    [firstHour], which is [undefined]. *)
Definition overallStep (st : Obj EpisodeSummary * bool)
    (entry : string * EpisodeSummary) : Obj EpisodeSummary * bool :=
  let existingEpSummary := obj_member (fst entry) (fst st) in
  if match existingEpSummary with
     | NoMember => true
     | Own e => str_lt (ep_firstHour (snd entry)) (ep_firstHour e)
     | Inherited => false
     end
  then (obj_set (fst entry)
          {| ep_hourlyDownloads :=
               match existingEpSummary with
               | Own e => ep_hourlyDownloads e
               | _ => []
               end;
             ep_firstHour := ep_firstHour (snd entry) |}
          (fst st),
        true)
  else st.

Definition tryComputeNewOverall (overall : option ShowSummary) (summary : ShowSummary)
  : option ShowSummary :=
  let rt :=
    match overall with
    | Some o => o
    | None => {| showUuid := showUuid summary; period := "overall"; episodes := [];
                 hourlyDownloads := []; sources := []; dimensionDownloads := None |}
    end in
  let changed := match overall with None => true | Some _ => false end in
  let st := fold_left overallStep (episodes summary) (episodes rt, changed) in
  if snd st
  then Some {| showUuid := showUuid rt; period := period rt;
               hourlyDownloads := hourlyDownloads rt; episodes := fst st;
               sources := sources rt; dimensionDownloads := dimensionDownloads rt |}
  else None.

(** The overall summary as the object [tryComputeNewOverall] returns: the
    properties of its literal, in its order; an overall read back from the
    store was written from that literal. *)
Definition overallJs (s : ShowSummary) : JsValue :=
  JsObject ([ ("showUuid", JsString (showUuid s));
              ("period", JsString (period s));
              ("episodes", episodesJs (episodes s));
              ("hourlyDownloads", countsJs (hourlyDownloads s));
              ("sources", stringsJs (sources s)) ]
            ++ match dimensionDownloads s with
               | Some d => [("dimensionDownloads", dimensionsJs d)]
               | None => []
               end).

(** [isValidShowSummary]: the shape of the object, one level deep. *)
Definition isValidShowSummary (obj : JsValue) : bool :=
  Check.isStringRecord obj
  && is_string (js_field "showUuid" obj)
  && is_string (js_field "period" obj)
  && Check.isStringRecord (js_field "hourlyDownloads" obj)
  && Check.isStringRecord (js_field "episodes" obj)
  && Check.isStringRecord (js_field "sources" obj)
  && (is_undefined (js_field "dimensionDownloads" obj)
      || Check.isStringRecord (js_field "dimensionDownloads" obj)).

Section Aggregates.
Variable statsBlobs : Reader.

Definition tryLoadShowSummary (key : string) : Result (option ShowSummary) :=
  match get_json statsBlobs key with
  | Some (doc, _) =>
      match parseShowSummary doc with
      | Some obj => OK (Some obj)
      | None => Throw (CorruptInput key)
      end
  | None => OK None
  end.

(** [summary.episodes[episodeId]?.firstHour]: an inherited member has
    no [firstHour], so that the answer is that of the own property, if
    there is one. *)
Definition findFirstHourForEpisodeId (showUuid episodeId : string)
  : Result (option string) :=
  summary <- tryLoadShowSummary (computeShowSummaryKey showUuid "overall") ;;
  match summary with
  | Some summary =>
      OK (option_map ep_firstHour (obj_get episodeId (episodes summary)))
  | None => OK None
  end.

(** The [runAggregates] block of [recomputeShowSummariesForMonth], from
    the input keys on: the [put]s it issues, in order, when none of them
    throws. *)
Definition runAggregates (showUuid month : string) (inputKeys : list string)
  : Result (list (string * PutBody)) :=
  summary <- computeShowSummaryAggregate statsBlobs showUuid inputKeys month ;;
  let saveMonth := saveShowSummary summary in
  overall <- tryLoadShowSummary (computeShowSummaryKey showUuid "overall") ;;
  match asShowSummary summary with
  | None => Throw (CorruptInput "summary")
  | Some typed =>
      match tryComputeNewOverall overall typed with
      | Some newOverall => OK [saveMonth; saveShowSummary (overallJs newOverall)]
      | None => OK [saveMonth]
      end
  end.

End Aggregates.

(** The overall summary of the store after one run of the block: the new
    one when it is written, the old one otherwise. *)
Definition mergeMonth (overall : option ShowSummary) (summary : ShowSummary)
  : option ShowSummary :=
  match tryComputeNewOverall overall summary with
  | Some newOverall => Some newOverall
  | None => overall
  end.

Definition mergeMonths (overall : option ShowSummary) (months : list ShowSummary)
  : option ShowSummary :=
  fold_left mergeMonth months overall.

(** ** The request parser *)

Definition isPhase (v : string) : bool :=
  (v =? "dailies") || (v =? "aggregates") || (v =? "audience")
  || (v =? "audience-1of4") || (v =? "audience-2of4")
  || (v =? "audience-3of4") || (v =? "audience-4of4").

Record RecomputeShowSummariesForMonthRequest : Type := {
  req_showUuid : string;
  req_month : string;
  req_log : bool;
  req_sequential : bool;
  req_phases : option (list string);
  req_startDay : option Z;
  req_maxDays : option Z
}.

Section Parser.
(** [isValidUuid] ([uuid.ts]), [isValidMonth] and [tryParseInt]
    ([check.ts]) are not among the sources. *)
Variable isValidUuid : string -> bool.
Variable isValidMonth : string -> bool.
Variable tryParseInt : option string -> option Z.

(** Modelled from the spec: [check] of [check.ts], which is not among the
    sources; it throws when the value is absent or fails the test. *)
Definition check (name : string) (value : option string) (test : string -> bool)
  : Result string :=
  match value with
  | Some v => if test v then OK v else Throw (InvalidInput name)
  | None => Throw (InvalidInput name)
  end.

Definition tryParseRecomputeShowSummariesForMonthRequest
    (operationKind targetPath : string) (parameters : option (Obj string))
  : Result (option RecomputeShowSummariesForMonthRequest) :=
  match parameters with
  | Some parameters =>
      if (targetPath =? "/work/recompute-show-summaries") && (operationKind =? "update")
      then
        let flags := obj_get "flags" parameters in
        let phasesStr := obj_get "phases" parameters in
        showUuid <- check "show" (obj_get "show" parameters) isValidUuid ;;
        month <- check "month" (obj_get "month" parameters) isValidMonth ;;
        let flagset := split "," (orDefault "" flags) in
        let log := existsb (String.eqb "log") flagset in
        let sequential := existsb (String.eqb "sequential") flagset in
        let phases :=
          match phasesStr with
          | Some p => if truthy (Some p) then Some (filter isPhase (split "," p)) else None
          | None => None
          end in
        OK (Some {| req_showUuid := showUuid; req_month := month; req_log := log;
                    req_sequential := sequential; req_phases := phases;
                    req_startDay := tryParseInt (obj_get "startDay" parameters);
                    req_maxDays := tryParseInt (obj_get "maxDays" parameters) |})
      else OK None
  | None => OK None
  end.

End Parser.

End ShowSummaries.

(* ================================================================== *)
(** * [worker/backend/audience.ts]                                     *)
(* ================================================================== *)

Module Audience.
Import Js Summaries Blobs Sleep.

Definition partSuffix (part : option string) : string :=
  match part with
  | Some p => p
  | None => "all"
  end.

Definition computeAudienceKey (showUuid period : string) (part : option string)
  : string :=
  "audiences/show/" ++ showUuid ++ "/" ++ showUuid ++ "-" ++ period ++ "."
    ++ partSuffix part ++ ".audience.txt".

Definition computeAudienceKeyPrefix (showUuid month : string) : string :=
  "audiences/show/" ++ showUuid ++ "/" ++ showUuid ++ "-" ++ month ++ "-".

Definition computeAudienceSummaryKey (showUuid period : string) (part : option string)
  : string :=
  "audience-summaries/show/" ++ showUuid ++ "/" ++ showUuid ++ "-" ++ period ++ "."
    ++ partSuffix part ++ ".audience-summary.json".

Record AudienceSummary : Type := {
  as_showUuid : string;
  as_period : string;
  as_part : option string;
  dailyFoundAudience : Obj Z
}.

(** [JSON.stringify(audienceSummary)]: an undefined [part] is left out. *)
Definition audienceSummaryJs (a : AudienceSummary) : JsValue :=
  JsObject ([ ("showUuid", JsString (as_showUuid a));
              ("period", JsString (as_period a)) ]
            ++ match as_part a with
               | Some p => [("part", JsString p)]
               | None => []
               end
            ++ [ ("dailyFoundAudience", countsJs (dailyFoundAudience a)) ]).

(** [line < '4' ? 1 : line < '8' ? 2 : line < 'c' ? 3 : 4]. *)
Definition linePartNum4 (line : string) : Z :=
  if str_lt line "4" then 1 else if str_lt line "8" then 2
  else if str_lt line "c" then 3 else 4.

Definition linePartNum8 (line : string) : Z :=
  if str_lt line "2" then 1 else if str_lt line "4" then 2
  else if str_lt line "6" then 3 else if str_lt line "8" then 4
  else if str_lt line "a" then 5 else if str_lt line "c" then 6
  else if str_lt line "e" then 7 else 8.

(** The loop state: [audienceTimestamps], [dailyFoundAudience], [count]. *)
Record Found : Type := {
  audienceTimestamps : Obj string;
  found : Obj Z;
  count : Z
}.

Definition emptyFound : Found :=
  {| audienceTimestamps := []; found := []; count := 0 |}.

(** Whether the shard test lets the line through. *)
Definition inPart (partObj : option (Z * Z)) (line : string) : Result bool :=
  match partObj with
  | None => OK true
  | Some (partNum, numParts) =>
      if (numParts =? 4)%Z then OK (linePartNum4 line =? partNum)%Z
      else if (numParts =? 8)%Z then OK (linePartNum8 line =? partNum)%Z
      else Throw (UnsupportedConfig "numParts")
  end.

(** The body of [for await (const line of computeLinestream(stream))]. *)
Definition processLine (partObj : option (Z * Z)) (date : string) (st : Found)
    (line : string) : Result Found :=
  if (String.length line =? 0)%nat then OK st
  else
    mine <- inPart partObj line ;;
    if mine then
      let audienceId := js_substring 0 64 line in
      let timestamp := js_substring 65 80 line in
      let found' := increment (found st) date in
      if falsy_at audienceId (audienceTimestamps st)
      then OK {| audienceTimestamps := obj_set audienceId timestamp (audienceTimestamps st);
                 found := found';
                 count := (count st + 1)%Z |}
      else OK {| audienceTimestamps := audienceTimestamps st;
                 found := found';
                 count := count st |}
    else OK st.

(** [partObj ? `${partObj.partNum}of${partObj.numParts}` : undefined]. *)
Definition partName (partObj : option (Z * Z)) : option string :=
  match partObj with
  | Some (partNum, numParts) =>
      Some (numberToString partNum ++ "of" ++ numberToString numParts)%string
  | None => None
  end.

Record AudienceResult : Type := {
  audience : Z;
  contentLength : Z;
  part : option string
}.

Section Reducer.
(** [isValidUuid] ([uuid.ts]), [isValidDate] and [isValidMonth]
    ([check.ts]) are not among the sources. *)
Variable isValidUuid : string -> bool.
Variable isValidDate : string -> bool.
Variable isValidMonth : string -> bool.

(** The groups of
    [/^audiences\/show\/(.*?)\/(.*?)-(.*?)\.(.*?)\.audience\.txt$/]. *)
Definition matchAudienceKey (key : string)
  : option (string * string * string * string) :=
  if String.prefix "audiences/show/" key then
    lazy_group "/" (fun showUuid r1 =>
      lazy_group "-" (fun showUuid2 r2 =>
        lazy_group "." (fun period r3 =>
          lazy_group ".audience.txt" (fun partStr r4 =>
            if r4 =? "" then Some (showUuid, showUuid2, period, partStr) else None)
            "" r3)
          "" r2)
        "" r1)
      "" (drop 15 key)
  else None.

Definition unpackAudienceKey (key : string)
  : Result (string * string * option string) :=
  match matchAudienceKey key with
  | None => Throw (InvalidInput "key")
  | Some (showUuid, showUuid2, period, partStr) =>
      if (showUuid =? showUuid2) && isValidUuid showUuid
         && (isValidDate period || isValidMonth period)
      then OK (showUuid, period, if partStr =? "all" then None else Some partStr)
      else Throw (InvalidInput "key")
  end.

Variable statsBlobs : Reader.
Variable answers : Writer.

(** The body of [for (const key of keys)]. *)
Definition processKey (partObj : option (Z * Z)) (st : Found) (key : string)
  : Result Found :=
  match get_lines statsBlobs key with
  | None => Throw (MissingInput key)
  | Some lines =>
      unpacked <- unpackAudienceKey key ;;
      let date := snd (fst unpacked) in
      if isValidDate date then forOf (processLine partObj date) lines st
      else Throw (InvalidInput "date")
  end.

(** The bytes [putAudience] writes: one line for each key of
    [audienceTimestamps], in enumeration order. *)
Definition audienceBytes (audienceTimestamps : Obj string) : string :=
  String.concat ""
    (map (fun kv => (fst kv ++ String "009" (snd kv ++ String "010" ""))%string)
         audienceTimestamps).

(** Modelled from the spec: [isRetryableErrorFromR2] of
    [r2_bucket_blobs.ts], which is not among the sources; the adapter's
    classifier of transient storage faults. *)
Definition isRetryableErrorFromR2 (e : Error) : bool :=
  match e with
  | StorageError retryable => retryable
  | _ => false
  end.

(** [Promise.all] of two calls, on their outcomes.  When both fail the
    one that rejects first wins, which the embedding does not order: the
    first is taken. *)
Definition promiseAll2 {A B : Type} (a : Result A) (b : Result B) : Result unit :=
  match a, b with
  | OK _, OK _ => OK tt
  | Throw e, _ => Throw e
  | OK _, Throw e => Throw e
  end.

(** The first half of [recomputeAudienceForMonth]: list the daily
    audience files of the month and fold their lines. *)
Definition reduceMonth (showUuid month : string) (partObj : option (Z * Z))
  : Result Found :=
  let keys := list_keys statsBlobs (computeAudienceKeyPrefix showUuid month) in
  forOf (processKey partObj) keys emptyFound.

Definition recomputeAudienceForMonth (showUuid month : string)
    (partObj : option (Z * Z)) (log : PutLog)
  : Result AudienceResult * PutLog :=
  let part := partName partObj in
  match reduceMonth showUuid month partObj with
  | Throw e => (Throw e, log)
  | OK st =>
      let audienceSummary :=
        {| as_showUuid := showUuid; as_period := month; as_part := part;
           dailyFoundAudience := found st |} in
      let contentLength := ((64 + 1 + 15 + 1) * count st)%Z in
      let putAudience (log : PutLog) :=
        put answers (computeAudienceKey showUuid month part)
            (FixedLengthBody contentLength (audienceBytes (audienceTimestamps st))) log in
      let putAudienceSummary (log : PutLog) :=
        put answers (computeAudienceSummaryKey showUuid month part)
            (JsonBody (audienceSummaryJs audienceSummary)) log in
      (* [Promise.all([ putAudienceWithRetries(), putAudienceSummary() ])]:
         the first call starts the first [put] of the blob, the second
         the [put] of the summary; the retries of the first come after. *)
      let '(first, log1) := putAudience log in
      let '(r2, log2) := putAudienceSummary log1 in
      let '(r1, log3) :=
        retriesAfter putAudience 2 isRetryableErrorFromR2 first log2 in
      (_ <- promiseAll2 r1 r2 ;;
       OK {| audience := count st; contentLength := contentLength; part := part |},
       log3)
  end.

End Reducer.

(** [saveAudience]: the [put] it issues; the text is one line for each
    entry of [audienceTimestamps], in enumeration order. *)
Definition saveAudience (showUuid period : string) (audienceTimestamps : Obj string)
  : string * PutBody :=
  (computeAudienceKey showUuid period None, TextBody (audienceBytes audienceTimestamps)).

Definition isValidAudienceSummary (obj : JsValue) : bool :=
  Check.isStringRecord obj
  && is_string (js_field "showUuid" obj)
  && is_string (js_field "period" obj)
  && (is_undefined (js_field "part" obj) || is_string (js_field "part" obj))
  && Check.isStringRecord (js_field "dailyFoundAudience" obj).

End Audience.

(* ================================================================== *)
(** * [recomputeShowSummariesForMonth]: the phase coordinator          *)
(* ================================================================== *)

(** The coordinator of [show_summaries.ts], by the parts of its body: the
    phases it selects, the days it processes, what it does for one day,
    and the part it hands to the audience reducer. *)
Module Recompute.
Import Js Summaries Blobs ShowSummaries Audience.

(** The default of the parameter [phases]. *)
Definition defaultPhases : list string := ["dailies"; "aggregates"; "audience"].

Definition phasesOf (req : RecomputeShowSummariesForMonthRequest) : list string :=
  match req_phases req with
  | Some phases => phases
  | None => defaultPhases
  end.

(** [phases.includes('dailies')], [phases.includes('aggregates')] and
    [phases.some(v => v.startsWith('audience'))]. *)
Definition runDailies (phases : list string) : bool :=
  existsb (String.eqb "dailies") phases.

Definition runAggregates (phases : list string) : bool :=
  existsb (String.eqb "aggregates") phases.

Definition runAudience (phases : list string) : bool :=
  existsb (String.prefix "audience") phases.

(** [parseInt] of one decimal digit. *)
Definition digitOf (c : ascii) : Z := (Z.of_N (N_of_ascii c) - 48)%Z.

(** [/^audience-(\d)of(\d)$/.exec(v)], as the part it denotes. *)
Definition audiencePhase (v : string) : option (Z * Z) :=
  if String.prefix "audience-" v then
    match list_ascii_of_string (drop 9 v) with
    | [p; o; f; n] =>
        if is_digit p && Ascii.eqb o "o" && Ascii.eqb f "f" && is_digit n
        then Some (digitOf p, digitOf n)
        else None
    | _ => None
    end
  else None.

(** [phases.map(v => /^audience-(\d)of(\d)$/.exec(v)).find(v => !!v)],
    and the [part] made of it. *)
Definition audiencePart (phases : list string) : option (Z * Z) :=
  match find (fun m => match m with Some _ => true | None => false end)
             (map audiencePhase phases) with
  | Some (Some part) => Some part
  | _ => None
  end.

(** [keys.filter(test)], where the test can throw. *)
Fixpoint filterKeys (test : string -> Result bool) (keys : list string)
  : Result (list string) :=
  match keys with
  | [] => OK []
  | v :: keys' =>
      keep <- test v ;;
      kept <- filterKeys test keys' ;;
      OK (if keep then v :: kept else kept)
  end.

Section Days.
(** [unpackShowDailyKey] of [downloads.ts] and [unpackDate] of
    [timestamp.ts] are not among the sources; the first is taken by the
    [date] and the second by the [day] of its result. *)
Variable unpackShowDailyKey : string -> Result string.
Variable unpackDate : string -> Result Z.

(** The test of [showDailyKeys.filter]. *)
Definition keepDay (startDay maxDays : option Z) (v : string) : Result bool :=
  if match maxDays with Some m => (m =? 0)%Z | None => false end then OK false
  else
    match startDay with
    | Some startDay =>
        date <- unpackShowDailyKey v ;;
        day <- unpackDate date ;;
        if (day <? startDay)%Z then OK false
        else
          match maxDays with
          | Some maxDays =>
              if (day >? startDay + maxDays - 1)%Z then OK false else OK true
          | None => OK true
          end
    | None => OK true
    end.

Definition showDailyKeysProcessed (startDay maxDays : option Z)
    (showDailyKeys : list string) : Result (list string) :=
  filterKeys (keepDay startDay maxDays) showDailyKeys.

(** [computeShowDailyKey] of [downloads.ts] is not among the sources. *)
Variable computeShowDailyKey : string -> string -> string.
Variable statsBlobs : Reader.

(** The closure [recomputeShowSummary]: the daily computer, then the two
    [put]s it issues, in order, when none of them throws. *)
Definition recomputeShowSummary (showUuid showDailyKey : string)
  : Result (list (string * PutBody)) :=
  date <- unpackShowDailyKey showDailyKey ;;
  r <- computeShowSummaryForDate computeShowDailyKey statsBlobs showUuid date ;;
  let summary := fst r in
  let audienceTimestamps := snd r in
  let summaryShowUuid :=
    match js_field "showUuid" summary with JsString s => s | _ => "undefined" end in
  OK [ saveShowSummary summary;
       saveAudience summaryShowUuid date audienceTimestamps ].

(** The [inputKeys] of the aggregates block. *)
Definition inputKeys (showUuid : string) (showDailyKeys : list string)
  : Result (list string) :=
  forOf (fun acc v =>
           date <- unpackShowDailyKey v ;;
           OK (acc ++ [computeShowSummaryKey showUuid date]))
        showDailyKeys [].

End Days.

End Recompute.

(* ================================================================== *)
(** * The vocabulary of the properties                                 *)
(* ================================================================== *)

(** ** The daily computer *)

Module DailySpec.
Import Js Blobs ShowSummaries.

(** The records whose [botType] is unset. *)
Definition nonBot (rows : list TsvRow) : list TsvRow :=
  filter (fun r => match botType r with None => true | Some _ => false end) rows.

(** The bot records that carry a [time]. *)
Definition timedBot (r : TsvRow) : bool :=
  match botType r, time r with
  | Some _, Some _ => true
  | _, _ => false
  end.

(** ** Hours, episodes, dimensions and listeners *)

Import Summaries.

(** The hour of a record: the first 13 characters of its [time]. *)
Definition hourOf (r : TsvRow) : string :=
  match time r with
  | Some t => js_substring 0 13 t
  | None => ""
  end.

Definition inHour (h : string) (r : TsvRow) : bool := hourOf r =? h.

(** Whether a record is a download of the episode. *)
Definition ofEpisode (id : string) (r : TsvRow) : bool :=
  match episodeId r with
  | Some e => e =? id
  | None => false
  end.

(** The number of elements of a list that pass a test. *)
Definition countZ {A : Type} (f : A -> bool) (l : list A) : Z :=
  Z.of_nat (List.length (filter f l)).

(** [episodes[id]?.hourlyDownloads ?? {}]. *)
Definition hoursOfEpisode (id : string) (eps : Obj EpisodeSummary) : Obj Z :=
  match obj_get id eps with
  | Some e => ep_hourlyDownloads e
  | None => []
  end.

(** The total of one dimension: [total(dimensionDownloads[d] ?? {})]. *)
Definition dimensionTotal (d : string) (dims : Obj (Obj Z)) : Z :=
  total (match obj_get d dims with Some r => r | None => [] end).

(** The agent type of a record, its default applied. *)
Definition agentTypeOf (r : TsvRow) : string := orDefault "unknown" (agentType r).

(** The audience timestamp a record gives. *)
Definition timestampOf (r : TsvRow) : string :=
  match time r with
  | Some t => computeTimestamp t
  | None => ""
  end.

(** Whether a record is a download by the listener. *)
Definition heardBy (a : string) (r : TsvRow) : bool :=
  match audienceId r with
  | Some x => x =? a
  | None => false
  end.

Definition hasTime (r : TsvRow) : bool :=
  match time r with
  | Some _ => true
  | None => false
  end.

(** A record that is no bot and whose episode id names a member of
    [Object.prototype]. *)
Definition namesMember (r : TsvRow) : bool :=
  match botType r, episodeId r with
  | None, Some e => inherited e
  | _, _ => false
  end.

(** A record the loop stops at, and the error it stops with. *)
Definition stops (r : TsvRow) : bool := negb (hasTime r) || namesMember r.

Definition errorAt (r : TsvRow) : Error :=
  if hasTime r then TypeError "hourlyDownloads" else CorruptInput "Undefined time".

End DailySpec.

(** ** The monthly aggregator *)

Module AggregateSpec.
Import Js Summaries Blobs ShowSummaries.

(** [dimensionDownloads[dimension][bucket] ?? 0]. *)
Definition bucketOf (dimension bucket : string) (dims : Obj (Obj Z)) : Z :=
  count_of bucket (match obj_get dimension dims with Some r => r | None => [] end).

(** [summary.dimensionDownloads ?? {}]. *)
Definition dimensionsOf (s : ShowSummary) : Obj (Obj Z) :=
  match dimensionDownloads s with
  | Some d => d
  | None => []
  end.

(** The sum of a list of counts. *)
Definition sumZ (l : list Z) : Z := fold_right Z.add 0%Z l.

(** The sum of the values [src] holds under the key [b]. *)
Definition sum_key (b : string) (src : Obj Z) : Z :=
  total (filter (fun kv => fst kv =? b) src).

(** A summary none of whose dimensions is named after a member of
    [Object.prototype]. *)
Definition plainDimensions (s : ShowSummary) : Prop :=
  forall d, In d (keys (dimensionsOf s)) -> inherited d = false.

(** A summary whose mappings all have distinct keys. *)
Definition distinctKeys (s : ShowSummary) : Prop :=
  NoDup (keys (hourlyDownloads s))
  /\ NoDup (keys (episodes s))
  /\ NoDup (keys (dimensionsOf s))
  /\ (forall d r, In (d, r) (dimensionsOf s) -> NoDup (keys r))
  /\ (forall id e, In (id, e) (episodes s) -> NoDup (keys (ep_hourlyDownloads e))).

Section Reads.
Variable statsBlobs : Reader.

(** The daily summaries read successfully, with their key and the ETag
    observed, in the order of the input keys. *)
Definition readSummaries (inputKeys : list string)
  : list (string * string * ShowSummary) :=
  flat_map (fun key =>
              match get_json statsBlobs key with
              | Some (doc, etag) =>
                  match parseShowSummary doc with
                  | Some s => [(key, etag, s)]
                  | None => []
                  end
              | None => []
              end) inputKeys.

(** Whether the store holds a blob under the key. *)
Definition present (key : string) : bool :=
  match get_json statsBlobs key with
  | Some _ => true
  | None => false
  end.

(** [addSummary] on a summary read; [results] as in the source. *)
Definition addRead (acc : MonthAcc) (r : string * string * ShowSummary)
  : Result MonthAcc :=
  addSummary acc (fst (fst r)) (snd (fst r)) (snd r).

Definition results (inputKeys : list string) :=
  map (fun v => (v, get_json statsBlobs v)) inputKeys.

End Reads.

End AggregateSpec.

(** ** The overall merge *)

Module OverallSpec.
Import Js ShowSummaries.

(** [firstHour] of an episode in the overall summary of the store. *)
Definition firstHourOf (overall : option ShowSummary) (episodeId : string)
  : option string :=
  match overall with
  | Some s => option_map ep_firstHour (obj_get episodeId (episodes s))
  | None => None
  end.

(** The episode ids of the overall summary of the store, and its
    episodes; none when there is no overall summary yet. *)
Definition episodeIds (overall : option ShowSummary) : list string :=
  match overall with
  | Some s => keys (episodes s)
  | None => []
  end.

Definition episodesOf (overall : option ShowSummary) : Obj EpisodeSummary :=
  match overall with
  | Some s => episodes s
  | None => []
  end.

(** The first hours the entries of a list of episodes give for one
    episode. *)
Definition hoursIn (episodeId : string) (eps : Obj EpisodeSummary) : list string :=
  map (fun kv => ep_firstHour (snd kv)) (filter (fun kv => fst kv =? episodeId) eps).

(** [eps[episodeId]?.firstHour]. *)
Definition hourAt (episodeId : string) (eps : Obj EpisodeSummary) : option string :=
  option_map ep_firstHour (obj_get episodeId eps).

(** The first hours a list of month summaries gives for one episode. *)
Definition contributions (episodeId : string) (months : list ShowSummary)
  : list string :=
  flat_map (fun m => hoursIn episodeId (episodes m)) months.

(** The lexicographic minimum, from the words of the spec: the least of
    the prior first hour, if any, and the contributed ones. *)
Definition lesser (cur : option string) (h : string) : string :=
  match cur with
  | None => h
  | Some c => if str_lt h c then h else c
  end.

Definition lexMin (prior : option string) (hours : list string) : option string :=
  fold_left (fun acc h => Some (lesser acc h)) hours prior.

(** The test of the loop of [tryComputeNewOverall] on one episode of the
    month, against the episodes of the overall summary. *)
Definition improves (eps : Obj EpisodeSummary) (entry : string * EpisodeSummary)
  : bool :=
  match obj_member (fst entry) eps with
  | NoMember => true
  | Own e => str_lt (ep_firstHour (snd entry)) (ep_firstHour e)
  | Inherited => false
  end.

(** An episode id the merge loop never adds: it names a member of
    [Object.prototype] and the episodes do not hold it. *)
Definition shadowedIn (eps : Obj EpisodeSummary) (episodeId : string) : bool :=
  inherited episodeId
  && match obj_get episodeId eps with
     | Some _ => false
     | None => true
     end.

Definition shadowed (overall : option ShowSummary) (episodeId : string) : bool :=
  shadowedIn (episodesOf overall) episodeId.

End OverallSpec.

(** ** The audience reducer *)

Module AudienceSpec.
Import Js Summaries Blobs Sleep Audience.

(** The value of a lowercase hexadecimal digit. *)
Definition hexValue (c : ascii) : option Z :=
  let n := N_of_ascii c in
  if ((48 <=? n) && (n <=? 57))%N then Some (Z.of_N n - 48)%Z
  else if ((97 <=? n) && (n <=? 102))%N then Some (Z.of_N n - 87)%Z
  else None.

(** The part the spec gives a line: the value of its first hexadecimal
    digit against the thresholds [4], [8], [c] (of 4 parts) and [2], [4],
    [6], [8], [a], [c], [e] (of 8 parts), read as numbers. *)
Definition partOfValue (numParts v : Z) : Z :=
  if (numParts =? 4)%Z then
    if (v <? 4)%Z then 1 else if (v <? 8)%Z then 2 else if (v <? 12)%Z then 3 else 4
  else
    if (v <? 2)%Z then 1 else if (v <? 4)%Z then 2 else if (v <? 6)%Z then 3
    else if (v <? 8)%Z then 4 else if (v <? 10)%Z then 5 else if (v <? 12)%Z then 6
    else if (v <? 14)%Z then 7 else 8.

Definition shardOf (numParts : Z) (line : string) : option Z :=
  match line with
  | String c _ => option_map (partOfValue numParts) (hexValue c)
  | EmptyString => None
  end.

(** The shard test with the empty lines left out: whether a line is
    taken into the part. *)
Definition accepted (partObj : option (Z * Z)) (line : string) : bool :=
  negb (String.length line =? 0)%nat
  && match inPart partObj line with
     | OK b => b
     | Throw _ => false
     end.

(** The configurations [inPart] supports. *)
Definition supported (partObj : option (Z * Z)) : Prop :=
  match partObj with
  | None => True
  | Some (_, numParts) => numParts = 4%Z \/ numParts = 8%Z
  end.

(** What an accepted line does to the loop state. *)
Definition accept (date : string) (st : Found) (line : string) : Found :=
  let audienceId := js_substring 0 64 line in
  let timestamp := js_substring 65 80 line in
  if falsy_at audienceId (audienceTimestamps st)
  then {| audienceTimestamps := obj_set audienceId timestamp (audienceTimestamps st);
          found := increment (found st) date;
          count := (count st + 1)%Z |}
  else {| audienceTimestamps := audienceTimestamps st;
          found := increment (found st) date;
          count := count st |}.

(** The loop body on a line and the date of its file, for a supported
    configuration. *)
Definition step (partObj : option (Z * Z)) (st : Found) (dl : string * string) : Found :=
  if accepted partObj (snd dl) then accept (fst dl) st (snd dl) else st.

(** The audience id of a line, and the entry the line makes in
    [audienceTimestamps]. *)
Definition idOf (line : string) : string := js_substring 0 64 line.

Definition entryOf (line : string) : string * string :=
  (js_substring 0 64 line, js_substring 65 80 line).

(** The lines of the month the part takes, in the order they are read. *)
Definition acceptedLines (partObj : option (Z * Z)) (dls : list (string * string))
  : list string :=
  filter (accepted partObj) (map snd dls).

(** The distinct audience ids accepted. *)
Definition distinctIds (partObj : option (Z * Z)) (dls : list (string * string))
  : list string :=
  nodup string_dec (map idOf (acceptedLines partObj dls)).

(** The lines that bring an audience id not seen before them. *)
Fixpoint firstLines (seen : list string) (lines : list string) : list string :=
  match lines with
  | [] => []
  | l :: ls =>
      if existsb (String.eqb (idOf l)) seen then firstLines seen ls
      else l :: firstLines (seen ++ [idOf l]) ls
  end.

(** A lowercase hexadecimal digit. *)
Definition is_hex (c : ascii) : bool :=
  match hexValue c with
  | Some _ => true
  | None => false
  end.

(** A line that starts with a 64-hex audience id. *)
Definition hexIdLine (line : string) : bool :=
  (64 <=? String.length line)%nat
  && forallb is_hex (list_ascii_of_string (String.substring 0 64 line)).

(** The distinct audience ids accepted that name no member of
    [Object.prototype]. *)
Definition countedIds (partObj : option (Z * Z)) (dls : list (string * string))
  : list string :=
  filter (fun id => negb (inherited id)) (distinctIds partObj dls).

(** A line made of a 64-hex audience id, a tab and a 15-character
    timestamp. *)
Definition wfLine (line : string) : bool :=
  (String.length line =? 80)%nat
  && forallb is_hex (list_ascii_of_string (String.substring 0 64 line))
  && match String.get 64 line with
     | Some c => Ascii.eqb c "009"
     | None => false
     end.

(** An invariant of the loop: distinct keys, no more entries than
    [count], and no entry longer than a full line. *)
Definition sized (st : Found) : Prop :=
  NoDup (keys (audienceTimestamps st))
  /\ (Z.of_nat (List.length (audienceTimestamps st)) <= count st)%Z
  /\ Forall (fun kv => (String.length (fst kv) <= 64)%nat
                       /\ (String.length (snd kv) <= 15)%nat)
            (audienceTimestamps st).

Section Runs.
Variables isValidUuid isValidDate isValidMonth : string -> bool.
Variable statsBlobs : Reader.

(** What [processKey] needs of a key before it reads lines. *)
Definition keyInput (key : string) : Result (string * list string) :=
  match get_lines statsBlobs key with
  | None => Throw (MissingInput key)
  | Some lines =>
      unpacked <- unpackAudienceKey isValidUuid isValidDate isValidMonth key ;;
      let date := snd (fst unpacked) in
      if isValidDate date then OK (date, lines)
      else Throw (InvalidInput "date")
  end.

(** The lines of the files, each with the date of its file. *)
Fixpoint datedLines (keys : list string) : Result (list (string * string)) :=
  match keys with
  | [] => OK []
  | key :: keys' =>
      dl <- keyInput key ;;
      rest <- datedLines keys' ;;
      OK (map (pair (fst dl)) (snd dl) ++ rest)
  end.

(** The dated lines of the files listed for a show and month. *)
Definition monthLines (showUuid month : string) : Result (list (string * string)) :=
  datedLines (list_keys statsBlobs (computeAudienceKeyPrefix showUuid month)).

End Runs.

Section Retry.
Variable answers : Writer.
Variable key : string.
Variable body : PutBody.

(** The outcome of the [i]-th [put] of the body from a log on. *)
Definition outcomeAt (log : PutLog) (i : nat) : Result string :=
  if lengthHonoured body then answers key (attempts key log + i)
  else Throw LengthMismatch.

End Retry.

Section Writes.
Variables isValidUuid isValidDate isValidMonth : string -> bool.
Variable statsBlobs : Reader.
Variable answers : Writer.
Variables showUuid month : string.
Variable partObj : option (Z * Z).

(** The keys, the bodies and the result of one call of
    [recomputeAudienceForMonth], named. *)
Definition audienceKey : string :=
  computeAudienceKey showUuid month (partName partObj).

Definition summaryKey : string :=
  computeAudienceSummaryKey showUuid month (partName partObj).

Definition audienceBody (st : Found) : PutBody :=
  FixedLengthBody (81 * count st) (audienceBytes (audienceTimestamps st)).

Definition summaryBody (st : Found) : PutBody :=
  JsonBody (audienceSummaryJs
              {| as_showUuid := showUuid; as_period := month;
                 as_part := partName partObj; dailyFoundAudience := found st |}).

Definition resultOf (st : Found) : AudienceResult :=
  {| audience := count st; contentLength := (81 * count st)%Z;
     part := partName partObj |}.

Definition run (log : PutLog) : Result AudienceResult * PutLog :=
  recomputeAudienceForMonth isValidUuid isValidDate isValidMonth statsBlobs answers
    showUuid month partObj log.

Definition reduced : Result Found :=
  reduceMonth isValidUuid isValidDate isValidMonth statsBlobs showUuid month partObj.

End Writes.

(** The line [saveAudience] writes for an entry, without its newline. *)
Definition lineOf (kv : string * string) : string :=
  (fst kv ++ String "009" (snd kv))%string.

(** The parts a 4-way or 8-way split has, and the unsplit run. *)
Definition validPart (partObj : option (Z * Z)) : Prop :=
  match partObj with
  | None => True
  | Some (partNum, numParts) =>
      (numParts = 4 \/ numParts = 8)%Z /\ (1 <= partNum <= numParts)%Z
  end.

End AudienceSpec.

(** ** Keys *)

Module KeySpec.
Import Js.

(** A text that holds none of the given characters. *)
Definition lacks (chars : list ascii) (s : string) : bool :=
  forallb (fun c => negb (existsb (Ascii.eqb c) chars)) (list_ascii_of_string s).

(** The characters a show id must not hold for a key to be read back,
    and those a period or a part must not hold: the separators of the key
    pattern, and the line terminators its [.] does not match. *)
Definition idBreakers : list ascii := ["/"; "-"; "010"; "013"]%char.

Definition fieldBreakers : list ascii := ["."; "010"; "013"]%char.

End KeySpec.

(* ================================================================== *)
(** * Scenarios: the data                                              *)
(* ================================================================== *)

Module Fixtures.
Import Js Summaries Blobs Sleep ShowSummaries Audience AudienceSpec.

Definition show : string := "0123456789abcdef0123456789abcdef".

Definition showDailyKey (showUuid date : string) : string :=
  "show-daily/" ++ showUuid ++ "/" ++ showUuid ++ "-" ++ date ++ ".tsv".

Definition download (time : option string) (bot : option string)
    (episode audienceId : string) : TsvRow :=
  {| botType := bot; time := time; episodeId := Some episode;
     audienceId := Some audienceId;
     countryCode := Some "US"; continentCode := Some "NA"; regionName := None;
     agentType := Some "app"; agentName := Some "Pocket Casts";
     deviceType := Some "mobile"; deviceName := Some "iPhone";
     referrerType := None; referrerName := None; metroCode := None; tags := None |}.

Definition noBlobs : Reader :=
  {| list_keys := fun _ => []; get_tsv := fun _ => None;
     get_json := fun _ => None; get_lines := fun _ => None |}.

(** A store that holds one show-daily file, for 2024-03-05. *)
Definition dailyStore (rows : list TsvRow) : Reader :=
  {| list_keys := fun _ => [];
     get_tsv := fun key =>
       if key =? showDailyKey show "2024-03-05" then Some (rows, "etag-1") else None;
     get_json := fun _ => None;
     get_lines := fun _ => None |}.

(** Two downloads, the later hour first, and a bot. *)
Definition rows3 : list TsvRow :=
  [ download (Some "2024-03-05T11:01:00.000Z") None "E1" "a01";
    download (Some "2024-03-05T10:30:00.000Z") None "E1" "a01";
    download (Some "2024-03-05T10:45:00.000Z") (Some "bot") "E1" "b02" ].

Definition botWithoutTime : TsvRow := download None (Some "bot") "E1" "b02".

Definition daily3 : Result (JsValue * Obj string) :=
  Eval vm_compute in
    computeShowSummaryForDate showDailyKey (dailyStore rows3) show "2024-03-05".

Definition resultOr {A : Type} (d : A) (r : Result A) : A :=
  match r with
  | OK a => a
  | Throw _ => d
  end.

Definition daily3_summary : JsValue :=
  Eval vm_compute in fst (resultOr (JsUndefined, []) daily3).

Definition daily3_audience : Obj string :=
  Eval vm_compute in snd (resultOr (JsUndefined, []) daily3).

(** ** A month of two days, and an overall summary *)

Definition episode (hour : string) (n : Z) : EpisodeSummary :=
  {| ep_hourlyDownloads := [(hour, n)]; ep_firstHour := hour |}.

Definition dayDoc (date hour : string) (n : Z) (episodeId : string) : JsValue :=
  computeSorted
    (summaryLiteral show date [(hour, n)] [(episodeId, episode hour n)]
       [("countryCode", [("US", n)])]
       [(showDailyKey show date, ("etag-" ++ date)%string)]).

Definition overallDoc : JsValue :=
  overallJs {| showUuid := show; period := "overall"; hourlyDownloads := [];
               episodes := [("E2", {| ep_hourlyDownloads := [];
                                      ep_firstHour := "2024-02-10T00" |})];
               sources := []; dimensionDownloads := None |}.

Definition monthStore : Reader :=
  {| list_keys := fun _ => [];
     get_tsv := fun _ => None;
     get_json := fun key =>
       if key =? computeShowSummaryKey show "2024-01-15"
       then Some (dayDoc "2024-01-15" "2024-01-15T12" 3 "E1", "etag-a")
       else if key =? computeShowSummaryKey show "2024-01-16"
       then Some (dayDoc "2024-01-16" "2024-01-16T08" 5 "E2", "etag-b")
       else if key =? computeShowSummaryKey show "overall"
       then Some (overallDoc, "etag-o")
       else None;
     get_lines := fun _ => None |}.

Definition monthKeys : list string :=
  [ computeShowSummaryKey show "2024-01-15";
    computeShowSummaryKey show "2024-01-16";
    computeShowSummaryKey show "2024-01-17" ].

Definition month1 : JsValue :=
  Eval vm_compute in
    resultOr JsUndefined (computeShowSummaryAggregate monthStore show monthKeys "2024-01").

Definition monthPuts : list (string * PutBody) :=
  Eval vm_compute in resultOr [] (runAggregates monthStore show "2024-01" monthKeys).

Definition bodyJs (b : PutBody) : JsValue :=
  match b with
  | JsonBody v => v
  | _ => JsUndefined
  end.


Definition priorOverall : ShowSummary :=
  {| showUuid := show; period := "overall"; hourlyDownloads := [];
     episodes := [("E2", {| ep_hourlyDownloads := []; ep_firstHour := "2024-02-10T00" |})];
     sources := []; dimensionDownloads := None |}.

Definition january : ShowSummary :=
  {| showUuid := show; period := "2024-01"; hourlyDownloads := [];
     episodes := [("E2", episode "2024-01-15T12" 1); ("E3", episode "2024-03-01T00" 1)];
     sources := []; dimensionDownloads := None |}.

Definition december : ShowSummary :=
  {| showUuid := show; period := "2023-12"; hourlyDownloads := [];
     episodes := [("E2", episode "2023-12-24T18" 1)];
     sources := []; dimensionDownloads := None |}.




(** A request whose [phases] holds a token that is no phase. *)
Definition badPhases : Obj string :=
  [("show", show); ("month", "2024-03"); ("phases", "dailies,bogus")].

(** ** A month of daily audience files *)

Fixpoint zeros (n : nat) : string :=
  match n with
  | O => ""
  | S n' => String "0" (zeros n')
  end.

(** A line for the audience id that starts with [c]. *)
Definition line (c : ascii) (timestamp : string) : string :=
  String c (zeros 63) ++ String "009" timestamp.

Definition day5 : string := computeAudienceKey show "2024-03-05" None.
Definition day6 : string := computeAudienceKey show "2024-03-06" None.

Definition audienceStore : Reader :=
  {| list_keys := fun keyPrefix =>
       if keyPrefix =? computeAudienceKeyPrefix show "2024-03" then [day5; day6] else [];
     get_tsv := fun _ => None;
     get_json := fun _ => None;
     get_lines := fun key =>
       if key =? day5
       then Some [ line "0" "202403051001000"; line "3" "202403051002000";
                   line "4" "202403051003000"; line "7" "202403051004000" ]
       else if key =? day6
       then Some [ line "8" "202403061001000"; line "b" "202403061002000";
                   line "4" "202403061003000"; "";
                   line "c" "202403061004000"; line "f" "202403061005000" ]
       else None |}.



Definition reduceExample (partObj : option (Z * Z)) : Result Found :=
  reduceMonth Check.isValidUuid Check.isValidDate Check.isValidMonth audienceStore
    show "2024-03" partObj.

Definition allFound : Found :=
  Eval vm_compute in resultOr emptyFound (reduceExample None).

Definition part2Found : Found :=
  Eval vm_compute in resultOr emptyFound (reduceExample (Some (2, 4)%Z)).

Definition monthExampleLines : list (string * string) :=
  Eval vm_compute in
    resultOr [] (monthLines Check.isValidUuid Check.isValidDate Check.isValidMonth
                   audienceStore show "2024-03").

(** A store that accepts every [put]. *)
Definition steady : Writer := fun _ _ => OK "etag".

(** A store that fails the first [n] [put]s of the monthly audience
    blob with a retryable fault. *)
Definition flaky (n : nat) : Writer :=
  fun key attempt =>
    if (key =? computeAudienceKey show "2024-03" None) && (attempt <? n)%nat
    then Throw (StorageError true)
    else OK "etag".

Definition runExample (answers : Writer) (partObj : option (Z * Z))
  : Result AudienceResult * PutLog :=
  recomputeAudienceForMonth Check.isValidUuid Check.isValidDate Check.isValidMonth
    audienceStore answers show "2024-03" partObj [].

Definition part2Result : AudienceResult :=
  Eval vm_compute in
    resultOr {| audience := 0; contentLength := 0; part := None |}
             (fst (runExample steady (Some (2, 4)%Z))).

Definition part2Log : PutLog :=
  Eval vm_compute in snd (runExample steady (Some (2, 4)%Z)).

(** ** Show-daily keys, unpacked *)

(** The date of a show-daily key of the layout above, and the day of a
    date. *)
Definition dateOfDailyKey (key : string) : Result string :=
  OK (String.substring 77 10 key).

Definition dayOfDate (date : string) : Result Z :=
  match Check.tryParseInt (Some (String.substring 8 2 date)) with
  | Some day => OK day
  | None => Throw (InvalidInput "date")
  end.

Definition dayOfKey (key : string) : Z :=
  resultOr 0%Z (date <- dateOfDailyKey key ;; dayOfDate date).

(** The show-daily keys of five days of March. *)
Definition marchKeys : list string :=
  map (showDailyKey show)
      ["2024-03-04"; "2024-03-05"; "2024-03-06"; "2024-03-07"; "2024-03-08"].

(** What the dailies phase writes for the day of [rows3]. *)
Definition day5Puts : list (string * PutBody) :=
  Eval vm_compute in
    resultOr []
      (Recompute.recomputeShowSummary dateOfDailyKey showDailyKey (dailyStore rows3)
         show (showDailyKey show "2024-03-05")).

(** ** Requests *)

Definition bogusPhases : Obj string :=
  [("show", show); ("month", "2024-03"); ("phases", "bogus,weekly")].

(** ** The overall summary after January, in the store *)

Definition mergedOverall : ShowSummary :=
  Eval vm_compute in
    match tryComputeNewOverall (Some priorOverall) january with
    | Some newOverall => newOverall
    | None => priorOverall
    end.

Definition mergedStore : Reader :=
  {| list_keys := fun _ => [];
     get_tsv := fun _ => None;
     get_json := fun key =>
       if key =? computeShowSummaryKey show "overall"
       then Some (overallJs mergedOverall, "etag-m")
       else None;
     get_lines := fun _ => None |}.

(** ** The audience timestamps of a day *)

Definition listeners : Obj string :=
  [ (String "a" (zeros 63), "202403051001000");
    (String "b" (zeros 63), "202403051002000") ].

End Fixtures.

(* ================================================================== *)
(** * Facts about strings and objects                                  *)
(* ================================================================== *)

Module JsFacts.
Import Js.

Lemma ascii_compare_refl (c : ascii) : Ascii.compare c c = Eq.
Proof. unfold Ascii.compare. apply N.compare_refl. Qed.

Lemma ascii_compare_lt_trans (a b c : ascii) :
  Ascii.compare a b = Lt -> Ascii.compare b c = Lt -> Ascii.compare a c = Lt.
Proof.
  unfold Ascii.compare. rewrite !N.compare_lt_iff. lia.
Qed.

Lemma compare_refl (s : string) : String.compare s s = Eq.
Proof.
  induction s as [|c s IH]; simpl; [reflexivity|].
  now rewrite ascii_compare_refl.
Qed.

Lemma compare_lt_trans (a : string) :
  forall b c, String.compare a b = Lt -> String.compare b c = Lt ->
              String.compare a c = Lt.
Proof.
  induction a as [|x a IH]; intros [|y b] [|z c]; simpl; intros Hab Hbc;
    try discriminate; try reflexivity.
  destruct (Ascii.compare x y) eqn:Hxy; try discriminate.
  - apply Ascii.compare_eq_iff in Hxy; subst y.
    destruct (Ascii.compare x z) eqn:Hxz; try discriminate; try reflexivity.
    now apply (IH b c).
  - destruct (Ascii.compare y z) eqn:Hyz; try discriminate.
    + apply Ascii.compare_eq_iff in Hyz; subst z. now rewrite Hxy.
    + now rewrite (ascii_compare_lt_trans _ _ _ Hxy Hyz).
Qed.

Lemma str_lt_irrefl (a : string) : str_lt a a = false.
Proof. unfold str_lt, String.ltb. now rewrite compare_refl. Qed.

Lemma str_lt_trans (a b c : string) :
  str_lt a b = true -> str_lt b c = true -> str_lt a c = true.
Proof.
  unfold str_lt, String.ltb.
  destruct (String.compare a b) eqn:Hab; try discriminate.
  destruct (String.compare b c) eqn:Hbc; try discriminate.
  now rewrite (compare_lt_trans _ _ _ Hab Hbc).
Qed.

Lemma str_lt_asym (a b : string) : str_lt a b = true -> str_lt b a = false.
Proof.
  unfold str_lt, String.ltb. rewrite (String.compare_antisym b a).
  now destruct (String.compare a b).
Qed.

Lemma str_lt_total (a b : string) :
  str_lt a b = false -> str_lt b a = false -> a = b.
Proof.
  unfold str_lt, String.ltb. rewrite (String.compare_antisym b a).
  destruct (String.compare a b) eqn:H; simpl; try discriminate.
  intros _ _. now apply String.compare_eq_iff.
Qed.

(** Against a one-character bound only the first character of a
    non-empty string counts. *)
Lemma str_lt_single (c d : ascii) (rest : string) :
  str_lt (String c rest) (String d "") = Ascii.ltb c d.
Proof.
  unfold str_lt, String.ltb, Ascii.ltb. simpl.
  destruct (Ascii.compare c d); try reflexivity.
  now destruct rest.
Qed.

Lemma length_append (a b : string) :
  String.length (a ++ b) = (String.length a + String.length b)%nat.
Proof. induction a as [|c a IH]; simpl; [reflexivity|]. now rewrite IH. Qed.

Section ObjFacts.
Context {A : Type}.
Implicit Types (o : Obj A) (k : string) (v : A).

Lemma obj_get_none_iff k o : obj_get k o = None <-> ~ In k (keys o).
Proof.
  induction o as [|[k' v'] o IH]; simpl; [tauto|].
  destruct (String.eqb_spec k' k) as [->|Hne].
  - split; [discriminate|]. intros H; exfalso; apply H; now left.
  - rewrite IH. split; [|tauto]. intros H [E|E]; [congruence|tauto].
Qed.

Lemma obj_get_some_in k v o : obj_get k o = Some v -> In (k, v) o.
Proof.
  induction o as [|[k' v'] o IH]; simpl; [discriminate|].
  destruct (String.eqb_spec k' k) as [->|Hne].
  - intros [= ->]. now left.
  - intros H. right. now apply IH.
Qed.

Lemma obj_get_in_keys k o : In k (keys o) <-> exists v, obj_get k o = Some v.
Proof.
  destruct (obj_get k o) as [v|] eqn:E.
  - split; [intros _; now exists v|intros _].
    apply obj_get_some_in in E. apply (in_map fst) in E. exact E.
  - apply obj_get_none_iff in E. split; [tauto|]. intros [v Hv]. discriminate.
Qed.

Lemma in_nodup_obj_get k v o :
  NoDup (keys o) -> In (k, v) o -> obj_get k o = Some v.
Proof.
  induction o as [|[k' v'] o IH]; simpl; [tauto|].
  intros Hnd [E|Hin].
  - injection E as -> ->. now rewrite String.eqb_refl.
  - inversion Hnd as [|? ? Hnotin Hnd']; subst.
    destruct (String.eqb_spec k' k) as [->|Hne].
    + exfalso. apply Hnotin. apply (in_map fst) in Hin. exact Hin.
    + now apply IH.
Qed.

Lemma obj_get_replace_eq k v o :
  obj_get k o <> None -> obj_get k (obj_replace k v o) = Some v.
Proof.
  induction o as [|[k' v'] o IH]; simpl; [congruence|].
  destruct (String.eqb_spec k' k) as [->|Hne]; simpl.
  - now rewrite String.eqb_refl.
  - intros H. destruct (String.eqb_spec k' k); [congruence|]. now apply IH.
Qed.

Lemma obj_get_replace_neq k k' v o :
  k <> k' -> obj_get k' (obj_replace k v o) = obj_get k' o.
Proof.
  intros Hne. induction o as [|[k0 v0] o IH]; simpl; [reflexivity|].
  destruct (String.eqb_spec k0 k) as [->|Hne0]; simpl.
  - destruct (String.eqb_spec k k'); [congruence|reflexivity].
  - now rewrite IH.
Qed.

Lemma keys_replace k v o : keys (obj_replace k v o) = keys o.
Proof.
  induction o as [|[k0 v0] o IH]; simpl; [reflexivity|].
  destruct (k0 =? k); simpl; [reflexivity|]. now f_equal.
Qed.

Lemma obj_get_insert_index n k k' v o :
  obj_get k o = None ->
  obj_get k' (obj_insert_index n k v o) =
  if k =? k' then Some v else obj_get k' o.
Proof.
  induction o as [|[k0 v0] o IH]; simpl; [now destruct (k =? k')|].
  destruct (String.eqb_spec k0 k) as [->|Hne]; [discriminate|]. intros Hk.
  destruct (array_index k0) as [n0|]; simpl; [|reflexivity].
  destruct (n0 <? n)%N; simpl; [|reflexivity].
  rewrite (IH Hk).
  destruct (String.eqb_spec k0 k') as [->|]; [|reflexivity].
  destruct (String.eqb_spec k k') as [->|]; [congruence|reflexivity].
Qed.

Lemma obj_get_app k' o o' :
  obj_get k' (o ++ o') =
  match obj_get k' o with Some v => Some v | None => obj_get k' o' end.
Proof.
  induction o as [|[k0 v0] o IH]; simpl; [reflexivity|].
  now destruct (k0 =? k').
Qed.

Lemma obj_get_set k k' v o :
  obj_get k' (obj_set k v o) = if k =? k' then Some v else obj_get k' o.
Proof.
  unfold obj_set. destruct (obj_get k o) as [v0|] eqn:E.
  - destruct (String.eqb_spec k k') as [->|Hne].
    + apply obj_get_replace_eq. congruence.
    + now apply obj_get_replace_neq.
  - destruct (array_index k) as [n|].
    + now apply obj_get_insert_index.
    + rewrite obj_get_app. simpl.
      destruct (String.eqb_spec k k') as [->|Hne].
      * now rewrite E.
      * now destruct (obj_get k' o).
Qed.

Lemma obj_get_set_eq k v o : obj_get k (obj_set k v o) = Some v.
Proof. rewrite obj_get_set. now rewrite String.eqb_refl. Qed.

Lemma obj_get_set_neq k k' v o :
  k <> k' -> obj_get k' (obj_set k v o) = obj_get k' o.
Proof.
  intros H. rewrite obj_get_set. now destruct (String.eqb_spec k k').
Qed.

Lemma in_keys_set k k' v o :
  In k' (keys (obj_set k v o)) <-> k' = k \/ In k' (keys o).
Proof.
  rewrite !obj_get_in_keys. setoid_rewrite obj_get_set.
  destruct (String.eqb_spec k k') as [->|Hne].
  - split; [now left|]. intros _. now exists v.
  - split; [now right|]. intros [E|H]; [congruence|exact H].
Qed.

Lemma keys_insert_index n k v o :
  exists l1 l2, keys o = l1 ++ l2 /\ keys (obj_insert_index n k v o) = l1 ++ k :: l2.
Proof.
  induction o as [|[k0 v0] o IH]; simpl.
  - now exists [], [].
  - destruct (array_index k0) as [n0|]; [destruct (n0 <? n)%N|]; simpl.
    + destruct IH as (l1 & l2 & E1 & E2).
      exists (k0 :: l1), l2. simpl. now rewrite E1, E2.
    + now exists [], (k0 :: keys o).
    + now exists [], (k0 :: keys o).
Qed.

Lemma nodup_keys_set k v o : NoDup (keys o) -> NoDup (keys (obj_set k v o)).
Proof.
  intros Hnd. unfold obj_set. destruct (obj_get k o) as [v0|] eqn:E.
  - now rewrite keys_replace.
  - apply obj_get_none_iff in E.
    destruct (array_index k) as [n|].
    + destruct (keys_insert_index n k v o) as (l1 & l2 & E1 & E2).
      rewrite E2. apply NoDup_Add with (a := k) (l := l1 ++ l2).
      * apply Add_app.
      * split; [now rewrite <- E1|now rewrite <- E1].
    + unfold keys. rewrite map_app. simpl. fold (keys o).
      apply NoDup_Add with (a := k) (l := keys o).
      * rewrite <- (app_nil_r (keys o)) at 1. apply Add_app.
      * now split.
Qed.

Lemma nodup_keys_fromEntries (l : list (string * A)) : NoDup (keys (fromEntries l)).
Proof.
  unfold fromEntries.
  assert (H : forall o, NoDup (keys o) ->
            NoDup (keys (fold_left (fun o kv => obj_set (fst kv) (snd kv) o) l o))).
  { induction l as [|kv l IH]; simpl; intros o Ho; [exact Ho|].
    apply IH. now apply nodup_keys_set. }
  apply H. constructor.
Qed.

Lemma in_obj_set k v o (kv : string * A) :
  In kv (obj_set k v o) -> kv = (k, v) \/ In kv o.
Proof.
  unfold obj_set. destruct (obj_get k o) as [v0|].
  - induction o as [|[k0 v0'] o IH]; simpl; [tauto|].
    destruct (k0 =? k) eqn:E; simpl.
    + apply String.eqb_eq in E. subst k0. intros [<-|H]; [now left|now right; right].
    + intros [<-|H]; [now right; left|]. destruct (IH H); [now left|now right; right].
  - destruct (array_index k) as [n|].
    + induction o as [|[k0 v0] o IH]; simpl; [intros [<-|[]]; now left|].
      destruct (array_index k0) as [n0|]; [destruct (n0 <? n)%N|]; simpl.
      * intros [<-|H]; [now right; left|]. destruct (IH H); [now left|now right; right].
      * intros [<-|H]; [now left|now right].
      * intros [<-|H]; [now left|now right].
    + rewrite in_app_iff. simpl. intros [H|[<-|[]]]; [now right|now left].
Qed.

Lemma in_fromEntries (l : list (string * A)) (kv : string * A) :
  In kv (fromEntries l) -> In kv l.
Proof.
  unfold fromEntries.
  assert (H : forall o, In kv (fold_left (fun o kv => obj_set (fst kv) (snd kv) o) l o)
                        -> In kv o \/ In kv l).
  { induction l as [|[k v] l IH]; simpl; intros o Hin; [now left|].
    destruct (IH _ Hin) as [H|H]; [|now right; right].
    destruct (in_obj_set _ _ _ _ H) as [->|H']; [now right; left|now left]. }
  intros Hin. destruct (H [] Hin) as [[]|H']. exact H'.
Qed.

(** ** Own properties and inherited members *)

Lemma obj_member_own (k : string) (o : Obj A) (a : A) :
  obj_get k o = Some a -> obj_member k o = Own a.
Proof. unfold obj_member. now intros ->. Qed.

Lemma obj_member_plain (k : string) (o : Obj A) :
  inherited k = false ->
  obj_member k o = match obj_get k o with Some a => Own a | None => NoMember end.
Proof. unfold obj_member. now intros ->. Qed.

Lemma obj_member_inherited (k : string) (o : Obj A) :
  obj_member k o = Inherited <-> inherited k = true /\ ~ In k (keys o).
Proof.
  unfold obj_member. rewrite <- obj_get_none_iff.
  destruct (obj_get k o); [|destruct (inherited k)]; split;
    try discriminate; try tauto; intros [H1 H2]; discriminate.
Qed.

Lemma obj_assign_plain (k : string) (v : A) (o : Obj A) :
  k <> "__proto__" -> obj_assign k v o = obj_set k v o.
Proof.
  intros Hk. unfold obj_assign. destruct (obj_get k o); [reflexivity|].
  destruct (String.eqb_spec k "__proto__"); [contradiction|reflexivity].
Qed.

End ObjFacts.

Lemma falsy_at_plain (k : string) (o : Obj string) :
  inherited k = false -> falsy_at k o = negb (truthy (obj_get k o)).
Proof.
  intros Hk. unfold falsy_at. rewrite (obj_member_plain _ _ Hk).
  destruct (obj_get k o) as [s|]; [|reflexivity]. simpl. now rewrite negb_involutive.
Qed.

(** No member of [Object.prototype] has a name of more than 20
    characters. *)
Lemma inherited_short (k : string) :
  (20 < String.length k)%nat -> inherited k = false.
Proof.
  intros Hlen. unfold inherited, prototype_members.
  apply not_true_is_false. intros H. apply existsb_exists in H.
  destruct H as (m & Hin & Heq). apply String.eqb_eq in Heq. subst m.
  cbn [In] in Hin.
  repeat (destruct Hin as [<-|Hin]; [cbn in Hlen; lia|]). exact Hin.
Qed.

End JsFacts.

(* ================================================================== *)
(** * Facts about the accumulator                                      *)
(* ================================================================== *)

Module SummariesFacts.
Import Js Summaries JsFacts AggregateSpec.

#[local] Arguments total : simpl never.

Lemma total_nil : total [] = 0%Z.
Proof. reflexivity. Qed.

Lemma total_cons (kv : string * Z) (o : Obj Z) :
  total (kv :: o) = (snd kv + total o)%Z.
Proof. reflexivity. Qed.

Lemma total_app (o o' : Obj Z) : total (o ++ o') = (total o + total o')%Z.
Proof.
  induction o as [|kv o IH]; simpl; [reflexivity|].
  rewrite !total_cons, IH. lia.
Qed.

Lemma total_set (k : string) (v : Z) (o : Obj Z) :
  (total (obj_set k v o) = total o - count_of k o + v)%Z.
Proof.
  unfold obj_set, count_of. destruct (obj_get k o) as [v0|] eqn:E.
  - revert E. induction o as [|[k0 v0'] o IH]; simpl; [discriminate|].
    destruct (String.eqb_spec k0 k) as [->|Hne].
    + intros [= ->]. rewrite !total_cons. simpl. lia.
    + intros E. specialize (IH E). rewrite !total_cons, IH. simpl. lia.
  - clear E. destruct (array_index k) as [n|].
    + induction o as [|[k0 v0] o IH]; simpl;
        [rewrite total_cons, total_nil; simpl; lia|].
      destruct (array_index k0) as [n0|]; [destruct (n0 <? n)%N|];
        rewrite ?total_cons, ?IH; simpl; rewrite ?total_cons; simpl; lia.
    + rewrite total_app, total_cons, total_nil. simpl. lia.
Qed.

Lemma total_increment (o : Obj Z) (k : string) :
  total (increment o k) = (total o + 1)%Z.
Proof. unfold increment. rewrite total_set. lia. Qed.

Lemma total_incrementAll (src : Obj Z) :
  forall dest, total (incrementAll dest src) = (total dest + total src)%Z.
Proof.
  unfold incrementAll.
  induction src as [|[k v] src IH]; simpl; intros dest.
  - rewrite total_nil. lia.
  - rewrite IH, total_set, total_cons. simpl. lia.
Qed.

Lemma count_of_set (k b : string) (v : Z) (o : Obj Z) :
  count_of b (obj_set k v o) = if k =? b then v else count_of b o.
Proof.
  unfold count_of. rewrite obj_get_set. now destruct (k =? b).
Qed.

Lemma count_of_incrementAll (b : string) (src : Obj Z) :
  forall dest,
    count_of b (incrementAll dest src) = (count_of b dest + sum_key b src)%Z.
Proof.
  unfold incrementAll, sum_key.
  induction src as [|[k v] src IH]; simpl; intros dest.
  - rewrite total_nil. lia.
  - rewrite IH, count_of_set.
    destruct (String.eqb_spec k b) as [->|Hne]; rewrite ?total_cons; simpl; lia.
Qed.

Lemma sum_key_nodup (b : string) (src : Obj Z) :
  NoDup (keys src) -> sum_key b src = count_of b src.
Proof.
  unfold sum_key, count_of.
  induction src as [|[k v] src IH]; simpl; [reflexivity|].
  intros Hnd. inversion Hnd as [|? ? Hnotin Hnd']; subst.
  destruct (String.eqb_spec k b) as [->|Hne].
  - rewrite total_cons, (IH Hnd'). simpl.
    apply obj_get_none_iff in Hnotin. rewrite Hnotin. lia.
  - now apply IH.
Qed.

End SummariesFacts.

(* ================================================================== *)
(** * The daily computer: roll-up and bot exclusion                    *)
(* ================================================================== *)

Module DailyProps.
Import Js Summaries Blobs ShowSummaries JsFacts SummariesFacts DailySpec.

(** ** Reading back what [computeSorted] returns *)

Lemma traverse_encoded {A : Type} (enc : A -> JsValue) (dec : JsValue -> option A)
    (Hdec : forall a, dec (enc a) = Some a) (o : Obj A) :
  asObj dec (JsObject (map (fun kv => (fst kv, enc (snd kv))) o)) = Some o.
Proof.
  unfold asObj.
  induction o as [|[k a] o IH]; simpl; [reflexivity|].
  rewrite Hdec. simpl. rewrite IH. reflexivity.
Qed.

Lemma asCounts_countsJs (o : Obj Z) : asObj asNumber (countsJs o) = Some o.
Proof. apply (traverse_encoded JsNumber asNumber). reflexivity. Qed.

Lemma asStrings_stringsJs (o : Obj string) : asObj asString (stringsJs o) = Some o.
Proof. apply (traverse_encoded JsString asString). reflexivity. Qed.

Lemma asEpisode_episodeJs (e : EpisodeSummary) :
  asEpisodeSummary (episodeJs e) = Some e.
Proof.
  unfold asEpisodeSummary, episodeJs. cbn [js_field obj_get String.eqb Ascii.eqb Bool.eqb].
  rewrite asCounts_countsJs. simpl. now destruct e.
Qed.

Lemma asEpisodes_episodesJs (o : Obj EpisodeSummary) :
  asObj asEpisodeSummary (episodesJs o) = Some o.
Proof. apply (traverse_encoded episodeJs asEpisodeSummary), asEpisode_episodeJs. Qed.

Lemma asDimensions_dimensionsJs (o : Obj (Obj Z)) :
  asObj (asObj asNumber) (dimensionsJs o) = Some o.
Proof. apply (traverse_encoded countsJs (asObj asNumber)), asCounts_countsJs. Qed.

(** [computeSorted] orders the properties of the summary object itself
    and returns every mapping inside it as it was. *)
Lemma computeSorted_summaryLiteral (u p : string) (h : Obj Z)
    (e : Obj EpisodeSummary) (d : Obj (Obj Z)) (s : Obj string) :
  computeSorted (summaryLiteral u p h e d s) =
  JsObject [ ("dimensionDownloads", dimensionsJs d);
             ("episodes", episodesJs e);
             ("hourlyDownloads", countsJs h);
             ("period", JsString p);
             ("showUuid", JsString u);
             ("sources", stringsJs s) ].
Proof. reflexivity. Qed.

Lemma asShowSummary_sorted (u p : string) (h : Obj Z)
    (e : Obj EpisodeSummary) (d : Obj (Obj Z)) (s : Obj string) :
  asShowSummary (computeSorted (summaryLiteral u p h e d s)) =
  Some {| showUuid := u; period := p; hourlyDownloads := h; episodes := e;
          sources := s; dimensionDownloads := Some d |}.
Proof.
  rewrite computeSorted_summaryLiteral. unfold asShowSummary.
  cbn [js_field obj_get String.eqb Ascii.eqb Bool.eqb asString obind].
  rewrite asCounts_countsJs, asEpisodes_episodesJs, asStrings_stringsJs.
  cbn [obind]. unfold dimensionsJs at 1. cbv beta iota.
  fold (dimensionsJs d). rewrite asDimensions_dimensionsJs. reflexivity.
Qed.

(** ** Rows *)

Lemma processRow_total (acc acc' : DailyAcc) (obj : TsvRow) :
  processRow acc obj = OK acc' ->
  total (d_hourlyDownloads acc') =
  (total (d_hourlyDownloads acc) + Z.of_nat (List.length (nonBot [obj])))%Z.
Proof.
  unfold processRow, nonBot. simpl.
  destruct (time obj) as [t|]; [|discriminate].
  destruct (botType obj) as [b|].
  - intros [= <-]. simpl. lia.
  - destruct (match episodeId obj with
              | Some e => recordEpisode (d_episodes acc) e (js_substring 0 13 t)
              | None => OK (d_episodes acc)
              end) as [eps|e]; cbn [bind]; [|discriminate].
    intros [= <-]. simpl. rewrite total_increment. lia.
Qed.

Lemma rows_total (rows : list TsvRow) :
  forall acc acc',
    forOf processRow rows acc = OK acc' ->
    total (d_hourlyDownloads acc') =
    (total (d_hourlyDownloads acc) + Z.of_nat (List.length (nonBot rows)))%Z.
Proof.
  induction rows as [|r rows IH]; simpl; intros acc acc'.
  - intros [= <-]. lia.
  - destruct (processRow acc r) as [acc1|e] eqn:E; simpl; [|discriminate].
    intros H. rewrite (IH _ _ H), (processRow_total _ _ _ E).
    unfold nonBot. simpl. destruct (botType r); simpl; lia.
Qed.

Lemma rows_skip_timed_bots (rows : list TsvRow) :
  forall acc,
    forOf processRow rows acc =
    forOf processRow (filter (fun r => negb (timedBot r)) rows) acc.
Proof.
  induction rows as [|r rows IH]; simpl; intros acc; [reflexivity|].
  unfold timedBot at 1.
  destruct (botType r) as [b|] eqn:Eb, (time r) as [t|] eqn:Et; simpl.
  - unfold processRow at 1. rewrite Et, Eb. simpl. apply IH.
  - unfold processRow. rewrite Et. reflexivity.
  - destruct (processRow acc r); simpl; [apply IH|reflexivity].
  - unfold processRow. rewrite Et. reflexivity.
Qed.

Section Daily.
Variable computeShowDailyKey : string -> string -> string.

(** C1.  Whenever [computeShowSummaryForDate] returns a summary, the
    total of its [hourlyDownloads] is the number of records of the
    source daily blob whose [botType] is unset. *)
Theorem daily_total_counts_non_bot (statsBlobs : Reader) (showUuid date : string)
    (rows : list TsvRow) (etag : string) (summary : JsValue) (audience : Obj string) :
  get_tsv statsBlobs (computeShowDailyKey showUuid date) = Some (rows, etag) ->
  computeShowSummaryForDate computeShowDailyKey statsBlobs showUuid date
    = OK (summary, audience) ->
  exists s, asShowSummary summary = Some s
            /\ total (hourlyDownloads s) = Z.of_nat (List.length (nonBot rows)).
Proof.
  unfold computeShowSummaryForDate. intros -> H.
  destruct (forOf processRow rows emptyDaily) as [acc|e] eqn:E; simpl in H;
    [|discriminate].
  injection H as <- <-.
  eexists. split; [apply asShowSummary_sorted|]. simpl.
  rewrite (rows_total _ _ _ E). reflexivity.
Qed.

(** C5, as the code has it.  A record whose [botType] is set and whose
    [time] is present is skipped entirely: dropping such records from
    the daily blob changes neither the summary nor the audience
    timestamps nor whether the computation fails.  A record without
    [time] fails the computation, whatever its [botType]. *)
Theorem bot_rows_with_time_are_skipped (statsBlobs statsBlobs' : Reader)
    (showUuid date : string) (rows : list TsvRow) (etag : string) :
  get_tsv statsBlobs (computeShowDailyKey showUuid date) = Some (rows, etag) ->
  get_tsv statsBlobs' (computeShowDailyKey showUuid date)
    = Some (filter (fun r => negb (timedBot r)) rows, etag) ->
  computeShowSummaryForDate computeShowDailyKey statsBlobs showUuid date
    = computeShowSummaryForDate computeShowDailyKey statsBlobs' showUuid date
  /\ (forall acc obj, timedBot obj = true -> processRow acc obj = OK acc)
  /\ (forall acc obj, time obj = None ->
        processRow acc obj = Throw (CorruptInput "Undefined time")).
Proof.
  intros H H'. split; [|split].
  - unfold computeShowSummaryForDate. rewrite H, H'.
    now rewrite rows_skip_timed_bots.
  - intros acc obj. unfold timedBot, processRow.
    destruct (botType obj), (time obj); try discriminate. reflexivity.
  - intros acc obj Ht. unfold processRow. now rewrite Ht.
Qed.

End Daily.

End DailyProps.

(* ================================================================== *)
(** * The monthly aggregator: the month is the sum of its days         *)
(* ================================================================== *)

Module AggregateProps.
Import Js Summaries Blobs ShowSummaries JsFacts SummariesFacts DailyProps AggregateSpec.

#[local] Arguments total : simpl never.

Lemma sumZ_app (l l' : list Z) : sumZ (l ++ l') = (sumZ l + sumZ l')%Z.
Proof. induction l as [|x l IH]; simpl; [reflexivity|]. rewrite IH. lia. Qed.

(** ** Objects built by [JSON.parse] have distinct keys *)

Lemma parsedSummary_distinctKeys (s : ShowSummary) : distinctKeys (parsedSummary s).
Proof.
  unfold distinctKeys, dimensionsOf. simpl. repeat split.
  - apply nodup_keys_fromEntries.
  - apply nodup_keys_fromEntries.
  - destruct (dimensionDownloads s); simpl; [apply nodup_keys_fromEntries|constructor].
  - intros d r. destruct (dimensionDownloads s) as [ds|]; simpl; [|tauto].
    intros H. apply in_fromEntries, in_map_iff in H.
    destruct H as ([d0 r0] & [= <- <-] & _). apply nodup_keys_fromEntries.
  - intros id e H. apply in_fromEntries, in_map_iff in H.
    destruct H as ([id0 e0] & [= <- <-] & _). apply nodup_keys_fromEntries.
Qed.

Lemma parseShowSummary_distinctKeys (doc : JsValue) (s : ShowSummary) :
  parseShowSummary doc = Some s -> distinctKeys s.
Proof.
  unfold parseShowSummary. destruct (asShowSummary doc); simpl; [|discriminate].
  intros [= <-]. apply parsedSummary_distinctKeys.
Qed.

(** ** Dimensions *)

Lemma bucketOf_mergeDimension (dimension bucket : string) (dims : Obj (Obj Z))
    (entry : string * Obj Z) :
  inherited (fst entry) = false ->
  bucketOf dimension bucket (mergeDimension dims entry) =
  (bucketOf dimension bucket dims
   + if (fst entry =? dimension)%string then sum_key bucket (snd entry) else 0)%Z.
Proof.
  intros Hp. unfold bucketOf, mergeDimension. rewrite (obj_member_plain _ _ Hp).
  destruct (obj_get (fst entry) dims) as [r|] eqn:Eg; rewrite obj_get_set;
    (destruct (String.eqb_spec (fst entry) dimension) as [<-|Hne]; [|lia]);
    rewrite Eg; now rewrite count_of_incrementAll.
Qed.

Lemma bucketOf_nil (dimension bucket : string) : bucketOf dimension bucket [] = 0%Z.
Proof. reflexivity. Qed.

Lemma bucketOf_cons (dimension bucket d : string) (r : Obj Z) (ds : Obj (Obj Z)) :
  bucketOf dimension bucket ((d, r) :: ds) =
  if d =? dimension then count_of bucket r else bucketOf dimension bucket ds.
Proof. unfold bucketOf. simpl. now destruct (d =? dimension). Qed.

Lemma bucketOf_absent (dimension bucket : string) (ds : Obj (Obj Z)) :
  ~ In dimension (keys ds) -> bucketOf dimension bucket ds = 0%Z.
Proof.
  intros H. apply obj_get_none_iff in H. unfold bucketOf. now rewrite H.
Qed.

Lemma bucketOf_fold_mergeDimension (dimension bucket : string) (ds : Obj (Obj Z)) :
  NoDup (keys ds) ->
  (forall d r, In (d, r) ds -> NoDup (keys r)) ->
  (forall d, In d (keys ds) -> inherited d = false) ->
  forall dims,
    bucketOf dimension bucket (fold_left mergeDimension ds dims) =
    (bucketOf dimension bucket dims + bucketOf dimension bucket ds)%Z.
Proof.
  induction ds as [|[d r] ds IH]; simpl; intros Hnd Hvals Hplain dims.
  - rewrite bucketOf_nil. lia.
  - inversion Hnd as [|? ? Hnotin Hnd']; subst.
    rewrite IH; [|exact Hnd'|intros d' r' H; apply (Hvals d' r'); now right
                 |intros d' H; apply Hplain; now right].
    rewrite bucketOf_mergeDimension, bucketOf_cons; [|apply Hplain; now left]. simpl.
    destruct (String.eqb_spec d dimension) as [->|Hne]; [|lia].
    rewrite (bucketOf_absent _ _ _ Hnotin).
    rewrite sum_key_nodup; [lia|apply (Hvals dimension r); now left].
Qed.

(** ** What one summary adds *)

Lemma addSummary_fields (acc acc' : MonthAcc) (key etag : string) (s : ShowSummary) :
  addSummary acc key etag s = OK acc' ->
  m_hourlyDownloads acc' = incrementAll (m_hourlyDownloads acc) (hourlyDownloads s)
  /\ m_dimensionDownloads acc' =
     fold_left mergeDimension (dimensionsOf s) (m_dimensionDownloads acc)
  /\ m_sources acc' = obj_assign key etag (m_sources acc)
  /\ forOf mergeEpisode (episodes s) (m_episodes acc) = OK (m_episodes acc').
Proof.
  unfold addSummary.
  destruct (forOf mergeEpisode (episodes s) (m_episodes acc)) as [eps|e];
    cbn [bind]; [|discriminate].
  intros [= <-]. now repeat split.
Qed.

(** ** What the aggregator reads *)

Section Aggregate.
Variable statsBlobs : Reader.

Local Abbreviation readSummaries := (AggregateSpec.readSummaries statsBlobs).
Local Abbreviation present := (AggregateSpec.present statsBlobs).
Local Abbreviation results := (AggregateSpec.results statsBlobs).

Lemma results_fold (inputKeys : list string) :
  forall acc acc',
    forOf aggregateResult (results inputKeys) acc = OK acc' ->
    forOf addRead (readSummaries inputKeys) acc = OK acc'
    /\ forall key doc etag,
         In key inputKeys -> get_json statsBlobs key = Some (doc, etag) ->
         exists s, parseShowSummary doc = Some s /\ In (key, etag, s) (readSummaries inputKeys).
Proof.
  induction inputKeys as [|k ks IH]; simpl; intros acc acc'.
  - intros [= <-]. split; [reflexivity|]. intros ? ? ? [].
  - unfold aggregateResult at 1. simpl.
    destruct (get_json statsBlobs k) as [[doc etag]|] eqn:Eg; simpl.
    + destruct (parseShowSummary doc) as [s|] eqn:Ep; simpl; [|discriminate].
      unfold AggregateSpec.addRead at 1. cbn [fst snd].
      destruct (addSummary acc k etag s) as [acc1|e]; cbn [bind]; [|discriminate].
      intros H. destruct (IH _ _ H) as [Hf Hall]. split; [exact Hf|].
      intros key doc' etag' [<-|Hin] Hget.
      * rewrite Eg in Hget. injection Hget as <- <-.
        exists s. split; [exact Ep|now left].
      * destruct (Hall _ _ _ Hin Hget) as (s' & Hp & Hr).
        exists s'. split; [exact Hp|now right].
    + intros H. destruct (IH _ _ H) as [Hf Hall]. split; [exact Hf|].
      intros key doc' etag' [<-|Hin] Hget; [congruence|].
      exact (Hall _ _ _ Hin Hget).
Qed.

Lemma results_skip_missing (inputKeys : list string) :
  forall acc,
    forOf aggregateResult (results inputKeys) acc =
    forOf aggregateResult (results (filter present inputKeys)) acc.
Proof.
  induction inputKeys as [|k ks IH]; simpl; intros acc; [reflexivity|].
  unfold AggregateSpec.present at 1.
  destruct (get_json statsBlobs k) as [[doc etag]|] eqn:Eg; simpl.
  - rewrite Eg. unfold aggregateResult at 1 3. simpl.
    destruct (parseShowSummary doc); simpl; [|reflexivity].
    destruct (addSummary acc k etag _); simpl; [apply IH|reflexivity].
  - unfold aggregateResult at 1. simpl. apply IH.
Qed.

Lemma readSummaries_sound (inputKeys : list string) (r : string * string * ShowSummary) :
  In r (readSummaries inputKeys) ->
  In (fst (fst r)) inputKeys
  /\ option_map snd (get_json statsBlobs (fst (fst r))) = Some (snd (fst r))
  /\ distinctKeys (snd r).
Proof.
  unfold AggregateSpec.readSummaries. rewrite in_flat_map. intros (k & Hin & Hr).
  destruct (get_json statsBlobs k) as [[doc etag]|] eqn:Eg; [|destruct Hr].
  destruct (parseShowSummary doc) as [s|] eqn:Ep; [|destruct Hr].
  destruct Hr as [<-|[]]. simpl. rewrite Eg. simpl.
  split; [exact Hin|]. split; [reflexivity|].
  now apply (parseShowSummary_distinctKeys doc).
Qed.

Lemma fold_hourly (reads : list (string * string * ShowSummary)) :
  forall acc acc',
    forOf addRead reads acc = OK acc' ->
    total (m_hourlyDownloads acc') =
    (total (m_hourlyDownloads acc)
     + sumZ (map (fun r => total (hourlyDownloads (snd r))) reads))%Z.
Proof.
  induction reads as [|r reads IH]; simpl; intros acc acc'.
  - intros [= <-]. lia.
  - unfold AggregateSpec.addRead at 1.
    destruct (addSummary acc _ _ (snd r)) as [acc1|e] eqn:E; cbn [bind]; [|discriminate].
    intros H. rewrite (IH _ _ H).
    destruct (addSummary_fields _ _ _ _ _ E) as (-> & _).
    rewrite total_incrementAll. lia.
Qed.

Lemma fold_bucket (dimension bucket : string)
    (reads : list (string * string * ShowSummary)) :
  (forall r, In r reads -> distinctKeys (snd r) /\ plainDimensions (snd r)) ->
  forall acc acc',
    forOf addRead reads acc = OK acc' ->
    bucketOf dimension bucket (m_dimensionDownloads acc') =
    (bucketOf dimension bucket (m_dimensionDownloads acc)
     + sumZ (map (fun r => bucketOf dimension bucket (dimensionsOf (snd r))) reads))%Z.
Proof.
  induction reads as [|r reads IH]; simpl; intros Hall acc acc'.
  - intros [= <-]. lia.
  - unfold AggregateSpec.addRead at 1.
    destruct (addSummary acc _ _ (snd r)) as [acc1|e] eqn:E; cbn [bind]; [|discriminate].
    intros H. rewrite (IH (fun r' Hr' => Hall r' (or_intror Hr')) _ _ H).
    destruct (addSummary_fields _ _ _ _ _ E) as (_ & -> & _).
    destruct (Hall r (or_introl eq_refl)) as ((_ & _ & Hd & Hr & _) & Hp).
    rewrite bucketOf_fold_mergeDimension; [|exact Hd|exact Hr|exact Hp].
    rewrite <- Z.add_assoc. reflexivity.
Qed.

Lemma fold_sources (key : string) (reads : list (string * string * ShowSummary)) :
  (forall r, In r reads ->
     fst (fst r) <> "__proto__"
     /\ option_map snd (get_json statsBlobs (fst (fst r))) = Some (snd (fst r))) ->
  forall acc acc',
    forOf addRead reads acc = OK acc' ->
    obj_get key (m_sources acc') =
    if existsb (fun r => fst (fst r) =? key) reads
    then option_map snd (get_json statsBlobs key)
    else obj_get key (m_sources acc).
Proof.
  induction reads as [|r reads IH]; simpl; intros Hall acc acc'.
  - now intros [= <-].
  - unfold AggregateSpec.addRead at 1.
    destruct (addSummary acc _ _ (snd r)) as [acc1|e] eqn:E; cbn [bind]; [|discriminate].
    intros H. rewrite (IH (fun r' Hr' => Hall r' (or_intror Hr')) _ _ H).
    destruct (addSummary_fields _ _ _ _ _ E) as (_ & _ & -> & _).
    destruct (Hall r (or_introl eq_refl)) as [Hk Hetag].
    rewrite (obj_assign_plain _ _ _ Hk), obj_get_set.
    destruct (existsb _ reads); [now rewrite orb_true_r|]. rewrite orb_false_r.
    destruct (String.eqb_spec (fst (fst r)) key) as [<-|Hne]; [|reflexivity].
    now symmetry.
Qed.

(** X28.  Input keys whose blob is missing are skipped without error:
    the aggregate is what it would be had they not been given.  When no
    summary read has a dimension named after a member of
    [Object.prototype] and [__proto__] is no input key, then, in the
    summary returned, the total of [hourlyDownloads] is the sum of the
    totals of the daily summaries read, every dimension bucket is the sum
    of that bucket over them, and [sources] maps exactly the keys read to
    the ETags observed. *)
Theorem aggregate_is_sum_of_days_read (showUuid : string) (inputKeys : list string)
    (outputPeriod : string) :
  (forall r, In r (readSummaries inputKeys) -> plainDimensions (snd r)) ->
  ~ In "__proto__" inputKeys ->
  computeShowSummaryAggregate statsBlobs showUuid inputKeys outputPeriod
    = computeShowSummaryAggregate statsBlobs showUuid (filter present inputKeys)
        outputPeriod
  /\ forall summary,
      computeShowSummaryAggregate statsBlobs showUuid inputKeys outputPeriod
        = OK summary ->
      exists s,
        asShowSummary summary = Some s
        /\ total (hourlyDownloads s) =
           sumZ (map (fun r => total (hourlyDownloads (snd r)))
                     (readSummaries inputKeys))
        /\ (forall dimension bucket,
              bucketOf dimension bucket (dimensionsOf s) =
              sumZ (map (fun r => bucketOf dimension bucket (dimensionsOf (snd r)))
                        (readSummaries inputKeys)))
        /\ (forall key,
              obj_get key (sources s) =
              if in_dec string_dec key inputKeys
              then option_map snd (get_json statsBlobs key)
              else None).
Proof.
  intros Hplain Hproto. split.
  - unfold computeShowSummaryAggregate. fold (results inputKeys).
    fold (results (filter present inputKeys)). now rewrite results_skip_missing.
  - intros summary. unfold computeShowSummaryAggregate. fold (results inputKeys).
    destruct (forOf aggregateResult (results inputKeys) emptyMonth) as [acc|e] eqn:E;
      simpl; [|discriminate].
    intros [= <-]. destruct (results_fold _ _ _ E) as [Hfold Hparsed].
    eexists. split; [apply asShowSummary_sorted|]. simpl. repeat split.
    + rewrite (fold_hourly _ _ _ Hfold). reflexivity.
    + intros dimension bucket. unfold dimensionsOf at 1. simpl.
      assert (Hreads : forall r, In r (readSummaries inputKeys) ->
                         distinctKeys (snd r) /\ plainDimensions (snd r)).
      { intros r Hr. split; [now apply (readSummaries_sound inputKeys)|now apply Hplain]. }
      rewrite (fold_bucket dimension bucket _ Hreads _ _ Hfold). reflexivity.
    + intros key.
      assert (Hreads : forall r, In r (readSummaries inputKeys) ->
                         fst (fst r) <> "__proto__"
                         /\ option_map snd (get_json statsBlobs (fst (fst r)))
                            = Some (snd (fst r))).
      { intros r Hr. destruct (readSummaries_sound inputKeys r Hr) as (Hin & He & _).
        split; [|exact He]. intros Hk. apply Hproto. now rewrite <- Hk. }
      rewrite (fold_sources key _ Hreads _ _ Hfold).
      simpl. destruct (in_dec string_dec key inputKeys) as [Hin|Hnin].
      * destruct (get_json statsBlobs key) as [[doc etag]|] eqn:Eg; simpl.
        -- destruct (Hparsed _ _ _ Hin Eg) as (s & _ & Hr).
           replace (existsb _ _) with true; [reflexivity|].
           symmetry. apply existsb_exists. exists (key, etag, s).
           split; [exact Hr|]. simpl. apply String.eqb_refl.
        -- now destruct (existsb _ _).
      * replace (existsb _ _) with false; [reflexivity|].
        symmetry. apply not_true_is_false. intros H.
        apply existsb_exists in H. destruct H as (r & Hr & Hk).
        apply String.eqb_eq in Hk. subst key.
        now apply (readSummaries_sound inputKeys) in Hr.
Qed.

End Aggregate.

End AggregateProps.
(* ================================================================== *)
(** * The overall merge: order-independent first hours                 *)
(* ================================================================== *)

Module OverallProps.
Import Js Summaries Blobs ShowSummaries JsFacts OverallSpec.

(** ** The order on strings is total *)

Lemma str_le_trans (a b c : string) :
  str_lt b a = false -> str_lt c b = false -> str_lt c a = false.
Proof.
  intros Hab Hbc. destruct (str_lt c a) eqn:Hca; [|reflexivity].
  destruct (str_lt a b) eqn:Hab'.
  - now rewrite (str_lt_trans _ _ _ Hca Hab') in Hbc.
  - rewrite (str_lt_total _ _ Hab' Hab) in Hca. congruence.
Qed.

Ltac order :=
  repeat match goal with
    | H : str_lt ?a ?a = true |- _ => rewrite str_lt_irrefl in H; discriminate
    | H1 : str_lt ?a ?b = true, H2 : str_lt ?b ?a = true |- _ =>
        rewrite (str_lt_asym _ _ H1) in H2; discriminate
    | H1 : str_lt ?a ?b = true, H2 : str_lt ?b ?c = true, H3 : str_lt ?a ?c = false |- _ =>
        rewrite (str_lt_trans _ _ _ H1 H2) in H3; discriminate
    | H1 : str_lt ?a ?b = false, H2 : str_lt ?b ?a = false |- _ =>
        pose proof (str_lt_total _ _ H1 H2); subst; clear H2
    end.

Lemma lesser_swap (i : option string) (x y : string) :
  lesser (Some (lesser i x)) y = lesser (Some (lesser i y)) x.
Proof.
  destruct i as [c|]; simpl.
  - destruct (str_lt x c) eqn:Hxc, (str_lt y c) eqn:Hyc;
      destruct (str_lt y x) eqn:Hyx, (str_lt x y) eqn:Hxy;
      rewrite ?Hxc, ?Hyc; try reflexivity; order; try reflexivity;
      try congruence.
  - destruct (str_lt y x) eqn:Hyx, (str_lt x y) eqn:Hxy; try reflexivity; order;
      reflexivity.
Qed.

Lemma lexMin_perm (l l' : list string) :
  Permutation l l' -> forall prior, lexMin prior l = lexMin prior l'.
Proof.
  unfold lexMin. induction 1 as [|x l l' _ IH|x y l|l l' l'' _ IH1 _ IH2];
    intros prior; cbn [fold_left].
  - reflexivity.
  - apply IH.
  - now rewrite lesser_swap.
  - now rewrite IH1.
Qed.

Lemma lexMin_app (l l' : list string) (prior : option string) :
  lexMin prior (l ++ l') = lexMin (lexMin prior l) l'.
Proof. apply fold_left_app. Qed.

Lemma lesser_cases (i : option string) (h : string) :
  (lesser i h = h \/ i = Some (lesser i h))
  /\ str_lt h (lesser i h) = false
  /\ (forall c, i = Some c -> str_lt c (lesser i h) = false).
Proof.
  destruct i as [c|]; simpl.
  - destruct (str_lt h c) eqn:E.
    + repeat split; [now left|apply str_lt_irrefl|].
      intros ? [= <-]. now apply str_lt_asym.
    + repeat split; [now right|exact E|].
      intros ? [= <-]. apply str_lt_irrefl.
  - repeat split; [now left|apply str_lt_irrefl|discriminate].
Qed.

(** [lexMin] is the least of its arguments. *)
Lemma lexMin_least (hours : list string) :
  forall prior m,
    lexMin prior hours = Some m ->
    (prior = Some m \/ In m hours)
    /\ forall x, prior = Some x \/ In x hours -> str_lt x m = false.
Proof.
  unfold lexMin. induction hours as [|h hours IH]; cbn [fold_left In];
    intros prior m H.
  - split; [now left|]. intros x [Hx|[]]. rewrite Hx in H. injection H as ->.
    apply str_lt_irrefl.
  - destruct (IH _ _ H) as [Hin Hle].
    destruct (lesser_cases prior h) as (Hsel & Hh & Hp).
    assert (Hlm : str_lt (lesser prior h) m = false) by (apply Hle; now left).
    split.
    + destruct Hin as [Heq|Hin]; [|now right; right].
      injection Heq as <-.
      destruct Hsel as [Hs|Hs]; [right; now left|now left].
    + intros x [Hx|[<-|Hx]].
      * apply (str_le_trans _ (lesser prior h)); [exact Hlm|now apply Hp].
      * apply (str_le_trans _ (lesser prior h)); [exact Hlm|exact Hh].
      * apply Hle. now right.
Qed.

Lemma lexMin_none (hours : list string) (prior : option string) :
  lexMin prior hours = None <-> prior = None /\ hours = [].
Proof.
  unfold lexMin. destruct hours as [|h hours]; cbn [fold_left].
  - split; [now split|now intros [H _]].
  - split; [|now intros [_ H]]. intros H. exfalso. revert H.
    generalize (lesser prior h). clear.
    induction hours as [|h' hours IH]; cbn [fold_left].
    + discriminate.
    + intros s. apply IH.
  Qed.

(** ** One step of the merge loop *)

Lemma shadowedIn_member (eps : Obj EpisodeSummary) (episodeId : string) :
  shadowedIn eps episodeId = true <-> obj_member episodeId eps = Inherited.
Proof.
  unfold shadowedIn, obj_member.
  destruct (obj_get episodeId eps), (inherited episodeId); simpl; split;
    try discriminate; reflexivity.
Qed.

Lemma shadowedIn_hour (eps : Obj EpisodeSummary) (episodeId : string) :
  shadowedIn eps episodeId = true -> hourAt episodeId eps = None.
Proof.
  unfold shadowedIn, hourAt. destruct (obj_get episodeId eps); [|reflexivity].
  now rewrite andb_false_r.
Qed.

Lemma overallStep_hour (episodeId : string) (st : Obj EpisodeSummary * bool)
    (entry : string * EpisodeSummary) :
  hourAt episodeId (fst (overallStep st entry)) =
  if (fst entry =? episodeId) && negb (shadowedIn (fst st) episodeId)
  then Some (lesser (hourAt episodeId (fst st)) (ep_firstHour (snd entry)))
  else hourAt episodeId (fst st).
Proof.
  unfold overallStep, hourAt, shadowedIn, obj_member.
  destruct (String.eqb_spec (fst entry) episodeId) as [<-|Hne]; cbn [andb].
  - destruct (obj_get (fst entry) (fst st)) as [e|] eqn:E.
    + rewrite andb_false_r. cbn [negb option_map lesser].
      destruct (str_lt (ep_firstHour (snd entry)) (ep_firstHour e)); cbn [fst].
      * now rewrite obj_get_set_eq.
      * now rewrite E.
    + rewrite andb_true_r.
      destruct (inherited (fst entry)); cbn [negb fst option_map lesser].
      * now rewrite E.
      * now rewrite obj_get_set_eq.
  - destruct (obj_get (fst entry) (fst st)) as [e|];
      [destruct (str_lt (ep_firstHour (snd entry)) (ep_firstHour e))
      |destruct (inherited (fst entry))]; cbn [fst]; try reflexivity;
      now rewrite obj_get_set_neq.
Qed.

Lemma overallStep_keys (episodeId : string) (st : Obj EpisodeSummary * bool)
    (entry : string * EpisodeSummary) :
  In episodeId (keys (fst (overallStep st entry))) <->
  (episodeId = fst entry /\ shadowedIn (fst st) episodeId = false)
  \/ In episodeId (keys (fst st)).
Proof.
  unfold overallStep, shadowedIn, obj_member.
  destruct (obj_get (fst entry) (fst st)) as [e|] eqn:E.
  - assert (Hin : In (fst entry) (keys (fst st)))
      by (apply obj_get_in_keys; now exists e).
    destruct (str_lt (ep_firstHour (snd entry)) (ep_firstHour e)); cbn [fst].
    + rewrite in_keys_set. split.
      * intros [->|H]; [now right|now right].
      * intros [[-> _]|H]; [now left|now right].
    + split; [now right|]. intros [[-> _]|H]; [exact Hin|exact H].
  - destruct (inherited (fst entry)) eqn:Ei; cbn [fst].
    + split; [now right|]. intros [[-> H]|H]; [|exact H].
      rewrite Ei, E in H. discriminate.
    + rewrite in_keys_set. split.
      * intros [->|H]; [|now right]. left. split; [reflexivity|]. now rewrite Ei.
      * intros [[-> _]|H]; [now left|now right].
Qed.

Lemma overallStep_shadowed (episodeId : string) (st : Obj EpisodeSummary * bool)
    (entry : string * EpisodeSummary) :
  shadowedIn (fst (overallStep st entry)) episodeId = shadowedIn (fst st) episodeId.
Proof.
  pose proof (overallStep_keys episodeId st entry) as Hk.
  unfold shadowedIn in *. destruct (inherited episodeId); [|reflexivity]. cbn [andb] in *.
  destruct (obj_get episodeId (fst st)) as [e|] eqn:E.
  - assert (Hin : In episodeId (keys (fst (overallStep st entry)))).
    { apply Hk. right. apply obj_get_in_keys. now exists e. }
    apply obj_get_in_keys in Hin. destruct Hin as (e' & ->). reflexivity.
  - destruct (obj_get episodeId (fst (overallStep st entry))) as [e'|] eqn:E';
      [|reflexivity].
    assert (Hin : In episodeId (keys (fst (overallStep st entry))))
      by (apply obj_get_in_keys; now exists e').
    apply Hk in Hin. destruct Hin as [[_ H]|H]; [discriminate|].
    apply obj_get_in_keys in H. destruct H as (e0 & H). congruence.
Qed.

Lemma overallStep_changed (st : Obj EpisodeSummary * bool)
    (entry : string * EpisodeSummary) :
  snd (overallStep st entry) = false ->
  snd st = false /\ fst (overallStep st entry) = fst st.
Proof.
  unfold overallStep.
  destruct (match obj_member (fst entry) (fst st) with
            | Own e => str_lt (ep_firstHour (snd entry)) (ep_firstHour e)
            | Inherited => false
            | NoMember => true
            end); simpl; [discriminate|]. now split.
Qed.

Lemma loop_shadowed (episodeId : string) (eps : Obj EpisodeSummary) :
  forall st,
    shadowedIn (fst (fold_left overallStep eps st)) episodeId
    = shadowedIn (fst st) episodeId.
Proof.
  induction eps as [|entry eps IH]; intros st; cbn [fold_left]; [reflexivity|].
  now rewrite IH, overallStep_shadowed.
Qed.

Lemma loop_hour (episodeId : string) (eps : Obj EpisodeSummary) :
  forall st,
    hourAt episodeId (fst (fold_left overallStep eps st)) =
    if shadowedIn (fst st) episodeId then None
    else lexMin (hourAt episodeId (fst st)) (hoursIn episodeId eps).
Proof.
  unfold lexMin, hoursIn.
  induction eps as [|entry eps IH]; intros st; cbn [fold_left filter map].
  - destruct (shadowedIn (fst st) episodeId) eqn:Es; [|reflexivity].
    now apply shadowedIn_hour.
  - rewrite IH, overallStep_shadowed, overallStep_hour.
    destruct (shadowedIn (fst st) episodeId); [reflexivity|]. rewrite andb_true_r.
    destruct (fst entry =? episodeId); reflexivity.
Qed.

Lemma loop_keys (episodeId : string) (eps : Obj EpisodeSummary) :
  forall st,
    In episodeId (keys (fst (fold_left overallStep eps st))) <->
    In episodeId (keys (fst st))
    \/ (shadowedIn (fst st) episodeId = false /\ In episodeId (keys eps)).
Proof.
  induction eps as [|entry eps IH]; intros st; cbn [fold_left keys map In].
  - tauto.
  - rewrite IH, overallStep_keys, overallStep_shadowed. fold (keys eps).
    split; intros H; decompose [or and] H; subst; auto.
Qed.

Lemma loop_unchanged (eps : Obj EpisodeSummary) :
  forall st,
    snd (fold_left overallStep eps st) = false ->
    snd st = false /\ fst (fold_left overallStep eps st) = fst st.
Proof.
  induction eps as [|entry eps IH]; intros st; cbn [fold_left]; [now split|].
  intros H. destruct (IH _ H) as [Hs Hf].
  destruct (overallStep_changed _ _ Hs) as [Hs' Hf']. split; [exact Hs'|].
  now rewrite Hf.
Qed.

(** ** One month, then many *)

Lemma mergeMonth_episodes (overall : option ShowSummary) (summary : ShowSummary) :
  episodesOf (mergeMonth overall summary) =
  fst (fold_left overallStep (episodes summary)
         (episodesOf overall, match overall with None => true | Some _ => false end)).
Proof.
  unfold mergeMonth, tryComputeNewOverall.
  destruct overall as [o|]; cbv zeta; cbn [episodesOf episodes];
    match goal with
    | |- context [if snd ?x then _ else _] => destruct (snd x) eqn:E
    end; cbn [episodesOf episodes]; try reflexivity.
  - destruct (loop_unchanged _ _ E) as [_ Hf]. now rewrite Hf.
  - now destruct (loop_unchanged _ _ E) as [Hs _].
Qed.

Lemma firstHourOf_episodesOf (overall : option ShowSummary) (episodeId : string) :
  firstHourOf overall episodeId = hourAt episodeId (episodesOf overall).
Proof. now destruct overall. Qed.

Lemma episodeIds_episodesOf (overall : option ShowSummary) :
  episodeIds overall = keys (episodesOf overall).
Proof. now destruct overall. Qed.

Lemma mergeMonth_shadowed (episodeId : string) (overall : option ShowSummary)
    (summary : ShowSummary) :
  shadowed (mergeMonth overall summary) episodeId = shadowed overall episodeId.
Proof.
  unfold shadowed. rewrite mergeMonth_episodes.
  apply (loop_shadowed episodeId (episodes summary) (_, _)).
Qed.

Lemma mergeMonth_hour (episodeId : string) (overall : option ShowSummary)
    (summary : ShowSummary) :
  firstHourOf (mergeMonth overall summary) episodeId =
  if shadowed overall episodeId then None
  else lexMin (firstHourOf overall episodeId) (hoursIn episodeId (episodes summary)).
Proof.
  rewrite !firstHourOf_episodesOf, mergeMonth_episodes.
  apply (loop_hour episodeId (episodes summary) (_, _)).
Qed.

Lemma mergeMonth_ids (episodeId : string) (overall : option ShowSummary)
    (summary : ShowSummary) :
  In episodeId (episodeIds (mergeMonth overall summary)) <->
  In episodeId (episodeIds overall)
  \/ (shadowed overall episodeId = false /\ In episodeId (keys (episodes summary))).
Proof.
  rewrite !episodeIds_episodesOf, mergeMonth_episodes.
  apply (loop_keys episodeId (episodes summary) (_, _)).
Qed.

Lemma mergeMonths_shadowed (episodeId : string) (months : list ShowSummary) :
  forall overall,
    shadowed (mergeMonths overall months) episodeId = shadowed overall episodeId.
Proof.
  unfold mergeMonths.
  induction months as [|m months IH]; intros overall; cbn [fold_left]; [reflexivity|].
  now rewrite IH, mergeMonth_shadowed.
Qed.

Lemma mergeMonths_hour (episodeId : string) (months : list ShowSummary) :
  forall overall,
    firstHourOf (mergeMonths overall months) episodeId =
    if shadowed overall episodeId then None
    else lexMin (firstHourOf overall episodeId) (contributions episodeId months).
Proof.
  unfold mergeMonths, contributions.
  induction months as [|m months IH]; intros overall; cbn [fold_left flat_map].
  - destruct (shadowed overall episodeId) eqn:Es; [|reflexivity].
    rewrite firstHourOf_episodesOf. now apply shadowedIn_hour.
  - rewrite IH, mergeMonth_shadowed, mergeMonth_hour.
    destruct (shadowed overall episodeId); [reflexivity|]. now rewrite lexMin_app.
Qed.

Lemma mergeMonths_ids (episodeId : string) (months : list ShowSummary) :
  forall overall,
    In episodeId (episodeIds (mergeMonths overall months)) <->
    In episodeId (episodeIds overall)
    \/ (shadowed overall episodeId = false
        /\ exists m, In m months /\ In episodeId (keys (episodes m))).
Proof.
  unfold mergeMonths.
  induction months as [|m months IH]; intros overall; cbn [fold_left].
  - split; [now left|]. intros [H|(_ & m & [] & _)]. exact H.
  - rewrite IH, mergeMonth_ids, mergeMonth_shadowed. split.
    + intros [[H|[Hs H]]|(Hs & m' & Hm & H)].
      * now left.
      * right. split; [exact Hs|]. exists m. split; [now left|exact H].
      * right. split; [exact Hs|]. exists m'. split; [now right|exact H].
    + intros [H|(Hs & m' & [<-|Hm] & H)].
      * now left; left.
      * now left; right.
      * right. split; [exact Hs|]. now exists m'.
Qed.

Lemma contributions_perm (episodeId : string) (months months' : list ShowSummary) :
  Permutation months months' ->
  Permutation (contributions episodeId months) (contributions episodeId months').
Proof. apply Permutation_flat_map. Qed.

(** X29.  Folding month summaries into the overall summary, from any
    prior overall or from none, gives the same first hour for every
    episode in whatever order the months come.  An episode id that names
    a member of [Object.prototype] and is not in the prior overall is
    never added.  Those apart, the episode ids of the result are those of
    the prior overall and of all the months, and the first hour of an
    episode is the lexicographic minimum of its first hours in the prior
    overall and in the months. *)
Theorem overall_merge_order_independent (overall : option ShowSummary)
    (months months' : list ShowSummary) :
  Permutation months months' ->
  (forall episodeId,
     firstHourOf (mergeMonths overall months) episodeId
     = firstHourOf (mergeMonths overall months') episodeId)
  /\ (forall episodeId,
        In episodeId (episodeIds (mergeMonths overall months)) <->
        In episodeId (episodeIds overall)
        \/ (shadowed overall episodeId = false
            /\ exists m, In m months /\ In episodeId (keys (episodes m))))
  /\ (forall episodeId,
        firstHourOf (mergeMonths overall months) episodeId
        = if shadowed overall episodeId then None
          else lexMin (firstHourOf overall episodeId) (contributions episodeId months))
  /\ (forall episodeId least,
        firstHourOf (mergeMonths overall months) episodeId = Some least ->
        (firstHourOf overall episodeId = Some least
         \/ In least (contributions episodeId months))
        /\ forall h,
             firstHourOf overall episodeId = Some h
             \/ In h (contributions episodeId months) ->
             str_lt h least = false).
Proof.
  intros Hperm. split; [|split; [|split]].
  - intros episodeId. rewrite !mergeMonths_hour.
    destruct (shadowed overall episodeId); [reflexivity|].
    apply lexMin_perm. now apply contributions_perm.
  - intros episodeId. apply mergeMonths_ids.
  - intros episodeId. apply mergeMonths_hour.
  - intros episodeId least H. rewrite mergeMonths_hour in H.
    destruct (shadowed overall episodeId); [discriminate|].
    exact (lexMin_least _ _ _ H).
Qed.

End OverallProps.
(* ================================================================== *)
(** * The audience reducer: shards                                     *)
(* ================================================================== *)

Module AudienceProps.
Import Js Summaries Blobs Sleep Audience JsFacts SummariesFacts AudienceSpec.

Lemma processLine_step (partObj : option (Z * Z)) (date : string) (st : Found)
    (line : string) :
  supported partObj ->
  processLine partObj date st line = OK (step partObj st (date, line)).
Proof.
  intros Hs. unfold processLine, step, accepted, accept. simpl.
  destruct (String.length line =? 0)%nat; simpl; [reflexivity|].
  destruct partObj as [[partNum numParts]|]; simpl.
  - destruct Hs as [-> | ->]; simpl.
    + destruct (linePartNum4 line =? partNum)%Z; simpl; [|reflexivity].
      now destruct (falsy_at _ _).
    + destruct (linePartNum8 line =? partNum)%Z; simpl; [|reflexivity].
      now destruct (falsy_at _ _).
  - now destruct (falsy_at _ _).
Qed.

Lemma lines_fold (partObj : option (Z * Z)) (date : string) (lines : list string) :
  supported partObj ->
  forall st,
    forOf (processLine partObj date) lines st =
    OK (fold_left (step partObj) (map (pair date) lines) st).
Proof.
  intros Hs. induction lines as [|l lines IH]; intros st; simpl; [reflexivity|].
  rewrite (processLine_step _ _ _ _ Hs). simpl. apply IH.
Qed.

(** ** Thresholds *)

Lemma linePartNum4_first (c : ascii) (rest : string) :
  linePartNum4 (String c rest) =
  if Ascii.ltb c "4" then 1%Z else if Ascii.ltb c "8" then 2%Z
  else if Ascii.ltb c "c" then 3%Z else 4%Z.
Proof. unfold linePartNum4. now rewrite !str_lt_single. Qed.

Lemma linePartNum8_first (c : ascii) (rest : string) :
  linePartNum8 (String c rest) =
  if Ascii.ltb c "2" then 1%Z else if Ascii.ltb c "4" then 2%Z
  else if Ascii.ltb c "6" then 3%Z else if Ascii.ltb c "8" then 4%Z
  else if Ascii.ltb c "a" then 5%Z else if Ascii.ltb c "c" then 6%Z
  else if Ascii.ltb c "e" then 7%Z else 8%Z.
Proof. unfold linePartNum8. now rewrite !str_lt_single. Qed.

Lemma linePartNum_hex (c : ascii) (rest : string) (v : Z) :
  hexValue c = Some v ->
  linePartNum4 (String c rest) = (v / 4 + 1)%Z
  /\ linePartNum8 (String c rest) = (v / 2 + 1)%Z.
Proof.
  rewrite linePartNum4_first, linePartNum8_first.
  destruct c as [[] [] [] [] [] [] [] []]; vm_compute; intros [= <-];
    split; reflexivity.
Qed.

Lemma linePartNum_thresholds (c : ascii) (rest : string) (v : Z) :
  hexValue c = Some v ->
  linePartNum4 (String c rest) = partOfValue 4 v
  /\ linePartNum8 (String c rest) = partOfValue 8 v.
Proof.
  rewrite linePartNum4_first, linePartNum8_first.
  destruct c as [[] [] [] [] [] [] [] []]; vm_compute; intros [= <-];
    split; reflexivity.
Qed.

Lemma linePartNum4_range (line : string) :
  (1 <= linePartNum4 line <= 4)%Z.
Proof.
  unfold linePartNum4.
  destruct (str_lt line "4"), (str_lt line "8"), (str_lt line "c"); lia.
Qed.

Lemma linePartNum8_range (line : string) :
  (1 <= linePartNum8 line <= 8)%Z.
Proof.
  unfold linePartNum8.
  destruct (str_lt line "2"), (str_lt line "4"), (str_lt line "6"),
    (str_lt line "8"), (str_lt line "a"), (str_lt line "c"), (str_lt line "e"); lia.
Qed.

(** The part of a line is the part of its audience id. *)
Lemma linePartNum_id (line : string) :
  line <> "" ->
  linePartNum4 line = linePartNum4 (js_substring 0 64 line)
  /\ linePartNum8 line = linePartNum8 (js_substring 0 64 line).
Proof.
  destruct line as [|c rest]; [congruence|]. intros _.
  unfold js_substring. simpl.
  now rewrite !linePartNum4_first, !linePartNum8_first.
Qed.

(** ** The lines a run reads *)

Lemma accepted_nonempty (partObj : option (Z * Z)) (line : string) :
  accepted partObj line = true -> line <> "".
Proof. unfold accepted. now destruct line. Qed.

Lemma accepted_unsharded (line : string) :
  accepted None line = negb (String.length line =? 0)%nat.
Proof. unfold accepted. simpl. apply andb_true_r. Qed.

Lemma accepted_part (partNum numParts : Z) (line : string) :
  numParts = 4%Z \/ numParts = 8%Z ->
  accepted (Some (partNum, numParts)) line = true <->
  line <> ""
  /\ (if (numParts =? 4)%Z then linePartNum4 line else linePartNum8 line) = partNum.
Proof.
  unfold accepted. intros [-> | ->]; simpl; destruct line as [|c rest]; simpl;
    rewrite ?Z.eqb_eq; split; try tauto; try (intros [H _]; congruence);
    try discriminate; (intros H; split; [discriminate|exact H]).
Qed.

Lemma keys_step (partObj : option (Z * Z)) (st : Found) (dl : string * string)
    (id : string) :
  In id (keys (audienceTimestamps (step partObj st dl))) <->
  In id (keys (audienceTimestamps st))
  \/ (accepted partObj (snd dl) = true /\ js_substring 0 64 (snd dl) = id
      /\ inherited id = false).
Proof.
  unfold step. destruct (accepted partObj (snd dl)) eqn:Ea.
  - unfold accept, falsy_at, obj_member.
    destruct (obj_get (js_substring 0 64 (snd dl)) (audienceTimestamps st)) as [ts|] eqn:Eg.
    + assert (Hin : In (js_substring 0 64 (snd dl)) (keys (audienceTimestamps st)))
        by (apply obj_get_in_keys; now exists ts).
      destruct (ts =? ""); simpl.
      * rewrite in_keys_set. split.
        -- intros [->|H]; [now left|now left].
        -- intros [H|(_ & <- & _)]; [now right|now left].
      * split; [now left|]. intros [H|(_ & <- & _)]; [exact H|exact Hin].
    + destruct (inherited (js_substring 0 64 (snd dl))) eqn:Ei; simpl.
      * split; [now left|]. intros [H|(_ & <- & H)]; [exact H|congruence].
      * rewrite in_keys_set. split.
        -- intros [->|H]; [now right|now left].
        -- intros [H|(_ & <- & _)]; [now right|now left].
  - split; [now left|]. intros [H|[H _]]; [exact H|discriminate].
Qed.

Lemma keys_fold (partObj : option (Z * Z)) (id : string) (dls : list (string * string)) :
  forall st,
    In id (keys (audienceTimestamps (fold_left (step partObj) dls st))) <->
    In id (keys (audienceTimestamps st))
    \/ exists dl, In dl dls /\ accepted partObj (snd dl) = true
                  /\ js_substring 0 64 (snd dl) = id /\ inherited id = false.
Proof.
  induction dls as [|dl dls IH]; intros st; cbn [fold_left].
  - split; [now left|]. intros [H|(dl & [] & _)]. exact H.
  - rewrite IH, keys_step. split.
    + intros [[H|H]|(dl' & Hin & H)].
      * now left.
      * right. exists dl. split; [now left|exact H].
      * right. exists dl'. split; [now right|exact H].
    + intros [H|(dl' & [<-|Hin] & H)].
      * now left; left.
      * now left; right.
      * right. now exists dl'.
Qed.

(** ** Lines that start with a 64-hex audience id *)

Lemma substring_full (n : nat) (s : string) :
  (n <= String.length s)%nat -> String.length (String.substring 0 n s) = n.
Proof.
  revert s. induction n as [|n IH]; intros [|c s]; simpl; try lia.
  intros H. rewrite IH; lia.
Qed.

Lemma hexIdLine_parts (line : string) :
  hexIdLine line = true ->
  inherited (idOf line) = false
  /\ exists c rest v, line = String c rest /\ hexValue c = Some v.
Proof.
  unfold hexIdLine. intros H. apply andb_prop in H. destruct H as [Hlen Hhex].
  apply Nat.leb_le in Hlen. split.
  - apply inherited_short. unfold idOf, js_substring.
    change (64 - 0)%nat with 64%nat. rewrite (substring_full _ _ Hlen). lia.
  - destruct line as [|c rest]; [simpl in Hlen; lia|].
    cbn [String.substring list_ascii_of_string forallb] in Hhex.
    apply andb_prop in Hhex. destruct Hhex as [Hc _]. unfold is_hex in Hc.
    destruct (hexValue c) as [v|] eqn:Ev; [|discriminate]. now exists c, rest, v.
Qed.

(** On such a line the shard test of the code is the test of the spec. *)
Lemma accepted_shard (partNum numParts : Z) (line : string) :
  numParts = 4%Z \/ numParts = 8%Z ->
  hexIdLine line = true ->
  accepted (Some (partNum, numParts)) line = true <->
  shardOf numParts line = Some partNum.
Proof.
  intros Hn Hline. rewrite (accepted_part _ _ _ Hn).
  destruct (hexIdLine_parts _ Hline) as (_ & c & rest & v & -> & Hv).
  destruct (linePartNum_thresholds c rest v Hv) as [H4 H8].
  unfold shardOf. rewrite Hv. cbn [option_map].
  destruct Hn as [-> | ->]; cbn [Z.eqb Pos.eqb]; [rewrite H4|rewrite H8];
    (split; [intros [_ ->]; reflexivity|intros [= <-]; now split]).
Qed.

Section Runs.
Variables isValidUuid isValidDate isValidMonth : string -> bool.
Variable statsBlobs : Reader.

Local Abbreviation keyInput :=
  (AudienceSpec.keyInput isValidUuid isValidDate isValidMonth statsBlobs).
Local Abbreviation datedLines :=
  (AudienceSpec.datedLines isValidUuid isValidDate isValidMonth statsBlobs).
Local Abbreviation monthLines :=
  (AudienceSpec.monthLines isValidUuid isValidDate isValidMonth statsBlobs).

Lemma keys_run (partObj : option (Z * Z)) (keys : list string) :
  supported partObj ->
  forall st,
    forOf (processKey isValidUuid isValidDate isValidMonth statsBlobs partObj) keys st =
    (dls <- datedLines keys ;; OK (fold_left (step partObj) dls st)).
Proof.
  intros Hs. induction keys as [|key keys IH]; intros st; simpl; [reflexivity|].
  unfold processKey at 1, AudienceSpec.keyInput.
  destruct (get_lines statsBlobs key) as [lines|]; simpl; [|reflexivity].
  destruct (unpackAudienceKey _ _ _ key) as [unpacked|e]; simpl; [|reflexivity].
  destruct (isValidDate (snd (fst unpacked))); simpl; [|reflexivity].
  rewrite (lines_fold _ _ _ Hs). simpl. rewrite IH.
  destruct (datedLines keys) as [rest|e]; simpl; [|reflexivity].
  now rewrite fold_left_app.
Qed.

Lemma reduceMonth_lines (showUuid month : string) (partObj : option (Z * Z)) :
  supported partObj ->
  reduceMonth isValidUuid isValidDate isValidMonth statsBlobs showUuid month partObj =
  (dls <- monthLines showUuid month ;; OK (fold_left (step partObj) dls emptyFound)).
Proof. intros Hs. unfold reduceMonth. now apply keys_run. Qed.

(** C6.  For 4 or 8 parts and daily audience files whose non-empty
    lines each start with a 64-hex audience id: the unsharded run finds
    the audience ids of the non-empty lines; the run for part [partNum]
    succeeds and finds the audience ids of the lines whose first
    hexadecimal digit the thresholds ['4', '8', 'c'] (of 4) and
    ['2', '4', '6', '8', 'a', 'c', 'e'] (of 8) put in that part; the sets
    found by the runs for two different parts are disjoint, and the union
    of the sets found for the parts 1 to [numParts] is the set the
    unsharded run finds.  The part of a line depends on its first
    character alone, although the code compares the whole line. *)
Theorem shards_partition_the_unsharded_run (showUuid month : string)
    (numParts : Z) (dls : list (string * string)) :
  numParts = 4%Z \/ numParts = 8%Z ->
  monthLines showUuid month = OK dls ->
  (forall dl, In dl dls -> snd dl <> "" -> hexIdLine (snd dl) = true) ->
  exists all,
    reduceMonth isValidUuid isValidDate isValidMonth statsBlobs showUuid month None
      = OK all
    /\ (forall id,
          In id (keys (audienceTimestamps all)) <->
          exists dl, In dl dls /\ snd dl <> "" /\ idOf (snd dl) = id)
    /\ (forall partNum, exists st,
          reduceMonth isValidUuid isValidDate isValidMonth statsBlobs showUuid month
            (Some (partNum, numParts)) = OK st
          /\ forall id,
               In id (keys (audienceTimestamps st)) <->
               exists dl, In dl dls /\ idOf (snd dl) = id
                          /\ shardOf numParts (snd dl) = Some partNum)
    /\ (forall p q stp stq id,
          reduceMonth isValidUuid isValidDate isValidMonth statsBlobs showUuid month
            (Some (p, numParts)) = OK stp ->
          reduceMonth isValidUuid isValidDate isValidMonth statsBlobs showUuid month
            (Some (q, numParts)) = OK stq ->
          p <> q ->
          In id (keys (audienceTimestamps stp)) ->
          ~ In id (keys (audienceTimestamps stq)))
    /\ (forall id,
          In id (keys (audienceTimestamps all)) <->
          exists p st,
            (1 <= p <= numParts)%Z
            /\ reduceMonth isValidUuid isValidDate isValidMonth statsBlobs showUuid month
                 (Some (p, numParts)) = OK st
            /\ In id (keys (audienceTimestamps st)))
    /\ (forall c rest v,
          hexValue c = Some v ->
          linePartNum4 (String c rest) = partOfValue 4 v
          /\ linePartNum8 (String c rest) = partOfValue 8 v).
Proof.
  intros Hn El Hhex.
  assert (Hall : reduceMonth isValidUuid isValidDate isValidMonth statsBlobs showUuid
                   month None = OK (fold_left (step None) dls emptyFound)).
  { rewrite (reduceMonth_lines _ _ None I), El. reflexivity. }
  assert (Hrun : forall p,
             reduceMonth isValidUuid isValidDate isValidMonth statsBlobs showUuid month
               (Some (p, numParts))
             = OK (fold_left (step (Some (p, numParts))) dls emptyFound)).
  { intros p. rewrite (reduceMonth_lines _ _ (Some (p, numParts)) Hn), El.
    reflexivity. }
  assert (Hline : forall partObj (dl : string * string),
             In dl dls -> accepted partObj (snd dl) = true ->
             hexIdLine (snd dl) = true).
  { intros partObj dl Hin Ha. apply (Hhex dl Hin). now apply accepted_nonempty in Ha. }
  assert (Hkeys : forall partObj id,
             In id (keys (audienceTimestamps (fold_left (step partObj) dls emptyFound)))
             <-> exists dl, In dl dls /\ accepted partObj (snd dl) = true
                            /\ idOf (snd dl) = id).
  { intros partObj id. rewrite keys_fold. unfold idOf. split.
    - intros [[]|(dl & Hin & Ha & Hi & _)]. now exists dl.
    - intros (dl & Hin & Ha & Hi). right. exists dl. repeat split; try assumption.
      rewrite <- Hi. apply hexIdLine_parts. now apply (Hline partObj). }
  assert (Hpart : forall p id,
             In id (keys (audienceTimestamps
                            (fold_left (step (Some (p, numParts))) dls emptyFound)))
             <-> exists dl, In dl dls /\ idOf (snd dl) = id
                            /\ shardOf numParts (snd dl) = Some p).
  { intros p id. rewrite Hkeys. split.
    - intros (dl & Hin & Ha & Hi). exists dl. split; [exact Hin|]. split; [exact Hi|].
      apply (accepted_shard _ _ _ Hn); [now apply (Hline (Some (p, numParts)))|exact Ha].
    - intros (dl & Hin & Hi & Hs). exists dl. split; [exact Hin|]. split; [|exact Hi].
      apply (accepted_shard _ _ _ Hn); [|exact Hs]. apply (Hhex dl Hin).
      intros E. rewrite E in Hs. discriminate. }
  assert (Hfull : forall id,
             In id (keys (audienceTimestamps (fold_left (step None) dls emptyFound)))
             <-> exists dl, In dl dls /\ snd dl <> "" /\ idOf (snd dl) = id).
  { intros id. rewrite Hkeys. split.
    - intros (dl & Hin & Ha & Hi). exists dl. split; [exact Hin|].
      split; [now apply accepted_nonempty in Ha|exact Hi].
    - intros (dl & Hin & Hne & Hi). exists dl. split; [exact Hin|]. split; [|exact Hi].
      rewrite accepted_unsharded. now destruct (snd dl). }
  exists (fold_left (step None) dls emptyFound).
  split; [exact Hall|]. split; [exact Hfull|]. split; [|split; [|split]].
  - intros p. eexists. split; [apply Hrun|]. apply Hpart.
  - intros p q stp stq id Hp Hq Hpq Hinp Hinq.
    rewrite Hrun in Hp, Hq. injection Hp as <-. injection Hq as <-.
    apply Hpart in Hinp, Hinq.
    destruct Hinp as (dl & Hin & Hi & Hs), Hinq as (dl' & Hin' & Hi' & Hs').
    assert (Hne : snd dl <> "") by (intros E; rewrite E in Hs; discriminate).
    assert (Hne' : snd dl' <> "") by (intros E; rewrite E in Hs'; discriminate).
    destruct (hexIdLine_parts _ (Hhex dl Hin Hne)) as (_ & c & rest & v & El1 & Hv).
    destruct (hexIdLine_parts _ (Hhex dl' Hin' Hne')) as (_ & c' & rest' & v' & El2 & Hv').
    assert (Hc : c = c').
    { rewrite <- Hi' in Hi. unfold idOf, js_substring in Hi. rewrite El1, El2 in Hi.
      cbn [String.substring Nat.sub] in Hi. now injection Hi. }
    subst c'. rewrite El1 in Hs. rewrite El2 in Hs'. unfold shardOf in Hs, Hs'.
    rewrite Hv in Hs. rewrite Hv' in Hs'. congruence.
  - intros id. rewrite Hfull. split.
    + intros (dl & Hin & Hne & Hi).
      destruct (hexIdLine_parts _ (Hhex dl Hin Hne)) as (_ & c & rest & v & El1 & Hv).
      exists (partOfValue numParts v). eexists. split; [|split; [apply Hrun|]].
      * unfold partOfValue.
        destruct Hn as [-> | ->]; cbn [Z.eqb Pos.eqb];
          repeat match goal with |- context [(?a <? ?b)%Z] => destruct (a <? b)%Z end;
          lia.
      * apply Hpart. exists dl. split; [exact Hin|]. split; [exact Hi|].
        rewrite El1. unfold shardOf. now rewrite Hv.
    + intros (p & st & _ & Hp & Hin). rewrite Hrun in Hp. injection Hp as <-.
      apply Hpart in Hin. destruct Hin as (dl & Hin & Hi & Hs).
      exists dl. split; [exact Hin|]. split; [|exact Hi].
      intros E. rewrite E in Hs. discriminate.
  - intros c rest v. apply linePartNum_thresholds.
Qed.

End Runs.

End AudienceProps.
(* ================================================================== *)
(** * The audience reducer: writes and retries                         *)
(* ================================================================== *)

Module AudienceWrites.
Import Js Summaries Blobs Sleep Audience JsFacts SummariesFacts AudienceProps AudienceSpec.

Lemma attempts_app (key : string) (log log' : PutLog) :
  attempts key (log ++ log') = (attempts key log + attempts key log')%nat.
Proof. unfold attempts. now rewrite filter_app, length_app. Qed.

Lemma attempts_repeat_same (key : string) (body : PutBody) (n : nat) :
  attempts key (repeat (key, body) n) = n.
Proof.
  unfold attempts. induction n as [|n IH]; simpl; [reflexivity|].
  rewrite String.eqb_refl. simpl. now rewrite IH.
Qed.

Lemma attempts_repeat_other (key key' : string) (body : PutBody) (n : nat) :
  key' <> key -> attempts key (repeat (key', body) n) = 0%nat.
Proof.
  intros Hne. unfold attempts. induction n as [|n IH]; simpl; [reflexivity|].
  destruct (String.eqb_spec key' key); [congruence|exact IH].
Qed.

Section Retry.
Variable answers : Writer.
Variable key : string.
Variable body : PutBody.

Local Abbreviation outcomeAt := (AudienceSpec.outcomeAt answers key body).

Lemma put_outcome (log : PutLog) :
  put answers key body log = (outcomeAt log 0, log ++ [(key, body)]).
Proof. unfold put, AudienceSpec.outcomeAt. now rewrite Nat.add_0_r. Qed.

Lemma outcomeAt_next (log : PutLog) (i : nat) :
  outcomeAt (log ++ [(key, body)]) i = outcomeAt log (S i).
Proof.
  unfold AudienceSpec.outcomeAt. rewrite attempts_app. unfold attempts at 2. simpl.
  rewrite String.eqb_refl. simpl. now rewrite <- Nat.add_assoc.
Qed.

Lemma log_next (log : PutLog) (n : nat) :
  (log ++ [(key, body)]) ++ repeat (key, body) n = log ++ repeat (key, body) (S n).
Proof. now rewrite <- app_assoc. Qed.

(** Retryable failures, then a success within the bound. *)
Lemma retries_then_success (isRetryable : Error -> bool) (etag : string) (k : nat) :
  forall maxRetries log,
    (k <= maxRetries)%nat ->
    (forall i, (i < k)%nat ->
       exists e, outcomeAt log i = Throw e /\ isRetryable e = true) ->
    outcomeAt log k = OK etag ->
    executeWithRetries (put answers key body) maxRetries isRetryable log
    = (OK etag, log ++ repeat (key, body) (S k)).
Proof.
  induction k as [|k IH]; intros maxRetries log Hk Hfail Hok.
  - destruct maxRetries; cbn [executeWithRetries]; now rewrite put_outcome, Hok.
  - destruct maxRetries as [|m]; [lia|].
    destruct (Hfail 0%nat) as (e & He & Hr); [lia|].
    cbn [executeWithRetries]. rewrite put_outcome, He, Hr.
    rewrite (IH m (log ++ [(key, body)])).
    + now rewrite log_next.
    + lia.
    + intros i Hi. rewrite outcomeAt_next. apply Hfail. lia.
    + now rewrite outcomeAt_next.
Qed.

(** Retryable failures up to the bound: the last one is thrown. *)
Lemma retries_exhausted (isRetryable : Error -> bool) (maxRetries : nat) :
  forall log,
    (forall i, (i <= maxRetries)%nat ->
       exists e, outcomeAt log i = Throw e /\ isRetryable e = true) ->
    exists e,
      outcomeAt log maxRetries = Throw e
      /\ executeWithRetries (put answers key body) maxRetries isRetryable log
         = (Throw e, log ++ repeat (key, body) (S maxRetries)).
Proof.
  induction maxRetries as [|m IH]; intros log Hfail.
  - destruct (Hfail 0%nat) as (e & He & Hr); [lia|].
    exists e. split; [exact He|]. cbn [executeWithRetries].
    now rewrite put_outcome, He, Hr.
  - destruct (Hfail 0%nat) as (e & He & Hr); [lia|].
    destruct (IH (log ++ [(key, body)])) as (e' & He' & Hx).
    { intros i Hi. rewrite outcomeAt_next. apply Hfail. lia. }
    exists e'. split; [now rewrite <- outcomeAt_next|].
    cbn [executeWithRetries]. rewrite put_outcome, He, Hr, Hx. now rewrite log_next.
Qed.

(** Whatever the store answers: between 1 and [maxRetries + 1] [put]s
    of the same body, and a success only of a body whose length is the
    declared one. *)
Lemma retries_log (isRetryable : Error -> bool) (maxRetries : nat) :
  forall log r log',
    executeWithRetries (put answers key body) maxRetries isRetryable log = (r, log') ->
    (exists n, (n <= maxRetries)%nat /\ log' = log ++ repeat (key, body) (S n))
    /\ (forall etag, r = OK etag -> lengthHonoured body = true).
Proof.
  induction maxRetries as [|m IH]; intros log r log'; cbn [executeWithRetries];
    rewrite put_outcome.
  - assert (Hh : forall etag, outcomeAt log 0 = OK etag -> lengthHonoured body = true).
    { unfold AudienceSpec.outcomeAt. now destruct (lengthHonoured body). }
    destruct (outcomeAt log 0) as [etag|e] eqn:Eo.
    + intros [= <- <-]. split; [now exists 0%nat|]. intros etag' _. now apply (Hh etag).
    + assert (Hr : (Throw e, log ++ [(key, body)]) = (r, log') ->
                   (exists n, (n <= 0)%nat /\ log' = log ++ repeat (key, body) (S n))
                   /\ (forall etag, r = OK etag -> lengthHonoured body = true)).
      { intros [= <- <-]. split; [now exists 0%nat|discriminate]. }
      now destruct (isRetryable e).
  - assert (Hh : forall etag, outcomeAt log 0 = OK etag -> lengthHonoured body = true).
    { unfold AudienceSpec.outcomeAt. now destruct (lengthHonoured body). }
    destruct (outcomeAt log 0) as [etag|e] eqn:Eo.
    + intros [= <- <-]. split; [exists 0%nat; split; [lia|reflexivity]|].
      intros etag' _. now apply (Hh etag).
    + destruct (isRetryable e).
      * intros H. destruct (IH _ _ _ H) as [(n & Hn & ->) Hlen]. split; [|exact Hlen].
        exists (S n). split; [lia|]. now rewrite log_next.
      * intros [= <- <-]. split; [exists 0%nat; split; [lia|reflexivity]|discriminate].
Qed.

(** ** The retries after a first call *)

Lemma executeWithRetries_first (isRetryable : Error -> bool) (maxRetries : nat)
    (log : PutLog) :
  executeWithRetries (put answers key body) maxRetries isRetryable log =
  retriesAfter (put answers key body) maxRetries isRetryable
    (fst (put answers key body log)) (snd (put answers key body log)).
Proof.
  destruct maxRetries; cbn [executeWithRetries retriesAfter];
    now destruct (put answers key body log) as [[a|e] log'].
Qed.

(** What comes between the first call and the retries, when it is no
    [put] on the key, changes no answer. *)
Lemma outcomeAt_between (log mid : PutLog) (i : nat) :
  attempts key mid = 0%nat ->
  outcomeAt ((log ++ [(key, body)]) ++ mid) i = outcomeAt log (S i).
Proof.
  intros Hmid. unfold AudienceSpec.outcomeAt. rewrite !attempts_app, Hmid.
  unfold attempts at 2. simpl. rewrite String.eqb_refl. simpl.
  now replace (attempts key log + 1 + 0 + i)%nat with (attempts key log + S i)%nat by lia.
Qed.

Lemma retriesAfter_success (isRetryable : Error -> bool) (etag : string) (k : nat)
    (maxRetries : nat) (log mid : PutLog) :
  attempts key mid = 0%nat ->
  (k <= maxRetries)%nat ->
  (forall i, (i < k)%nat ->
     exists e, outcomeAt log i = Throw e /\ isRetryable e = true) ->
  outcomeAt log k = OK etag ->
  retriesAfter (put answers key body) maxRetries isRetryable (outcomeAt log 0)
    ((log ++ [(key, body)]) ++ mid)
  = (OK etag, ((log ++ [(key, body)]) ++ mid) ++ repeat (key, body) k).
Proof.
  intros Hmid Hk Hfail Hok. destruct k as [|k].
  - rewrite Hok. cbn [retriesAfter repeat]. now rewrite app_nil_r.
  - destruct (Hfail 0%nat) as (e & He & Hr); [lia|].
    rewrite He. cbn [retriesAfter]. rewrite Hr.
    destruct maxRetries as [|m]; [lia|].
    apply retries_then_success.
    + lia.
    + intros i Hi. rewrite (outcomeAt_between _ _ _ Hmid). apply Hfail. lia.
    + now rewrite (outcomeAt_between _ _ _ Hmid).
Qed.

Lemma retriesAfter_exhausted (isRetryable : Error -> bool) (maxRetries : nat)
    (log mid : PutLog) :
  attempts key mid = 0%nat ->
  (forall i, (i <= maxRetries)%nat ->
     exists e, outcomeAt log i = Throw e /\ isRetryable e = true) ->
  exists e,
    outcomeAt log maxRetries = Throw e
    /\ retriesAfter (put answers key body) maxRetries isRetryable (outcomeAt log 0)
         ((log ++ [(key, body)]) ++ mid)
       = (Throw e, ((log ++ [(key, body)]) ++ mid) ++ repeat (key, body) maxRetries).
Proof.
  intros Hmid Hfail. destruct (Hfail 0%nat) as (e & He & Hr); [lia|].
  destruct maxRetries as [|m].
  - exists e. split; [exact He|]. rewrite He. cbn [retriesAfter repeat].
    now rewrite Hr, app_nil_r.
  - destruct (retries_exhausted isRetryable m ((log ++ [(key, body)]) ++ mid))
      as (e' & He' & Hx).
    { intros i Hi. rewrite (outcomeAt_between _ _ _ Hmid). apply Hfail. lia. }
    exists e'. split; [now rewrite <- (outcomeAt_between log mid m Hmid)|].
    rewrite He. cbn [retriesAfter]. now rewrite Hr.
Qed.

Lemma retriesAfter_log (isRetryable : Error -> bool) (maxRetries : nat)
    (log : PutLog) (first r : Result string) (log' : PutLog) :
  (forall etag, first = OK etag -> lengthHonoured body = true) ->
  retriesAfter (put answers key body) maxRetries isRetryable first log = (r, log') ->
  (exists n, (n <= maxRetries)%nat /\ log' = log ++ repeat (key, body) n)
  /\ (forall etag, r = OK etag -> lengthHonoured body = true).
Proof.
  intros Hfirst. unfold retriesAfter. destruct first as [etag|e].
  - intros [= <- <-]. split; [exists 0%nat; split; [lia|now rewrite app_nil_r]|].
    intros etag' _. now apply (Hfirst etag).
  - assert (Hstop : (Throw e, log) = (r, log') ->
                    (exists n, (n <= maxRetries)%nat /\ log' = log ++ repeat (key, body) n)
                    /\ (forall etag, r = OK etag -> lengthHonoured body = true)).
    { intros [= <- <-]. split; [exists 0%nat; split; [lia|now rewrite app_nil_r]|].
      discriminate. }
    destruct (isRetryable e); [|exact Hstop].
    destruct maxRetries as [|m]; [exact Hstop|].
    intros H. destruct (retries_log _ _ _ _ _ H) as [(n & Hn & ->) Hlen].
    split; [|exact Hlen]. exists (S n). split; [lia|reflexivity].
Qed.

End Retry.

(** ** The two writes of [recomputeAudienceForMonth] *)

Lemma audience_keys_differ (showUuid month : string) (part : option string) :
  computeAudienceKey showUuid month part
  <> computeAudienceSummaryKey showUuid month part.
Proof. unfold computeAudienceKey, computeAudienceSummaryKey. simpl. discriminate. Qed.

Section Writes.
Variables isValidUuid isValidDate isValidMonth : string -> bool.
Variable statsBlobs : Reader.
Variable answers : Writer.
Variables showUuid month : string.
Variable partObj : option (Z * Z).

Local Abbreviation audienceKey := (AudienceSpec.audienceKey showUuid month partObj).
Local Abbreviation summaryKey := (AudienceSpec.summaryKey showUuid month partObj).
Local Abbreviation summaryBody := (AudienceSpec.summaryBody showUuid month partObj).
Local Abbreviation resultOf := (AudienceSpec.resultOf partObj).
Local Abbreviation reduced :=
  (AudienceSpec.reduced isValidUuid isValidDate isValidMonth statsBlobs showUuid month partObj).
Local Abbreviation run :=
  (AudienceSpec.run isValidUuid isValidDate isValidMonth statsBlobs answers showUuid month partObj).

Lemma run_unfold (st : Found) (log : PutLog) :
  reduced = OK st ->
  run log =
  let '(first, log1) := put answers audienceKey (audienceBody st) log in
  let '(r2, log2) := put answers summaryKey (summaryBody st) log1 in
  let '(r1, log3) :=
    retriesAfter (put answers audienceKey (audienceBody st)) 2
      isRetryableErrorFromR2 first log2 in
  (_ <- promiseAll2 r1 r2 ;; OK (resultOf st), log3).
Proof.
  unfold AudienceSpec.run, AudienceSpec.reduced, recomputeAudienceForMonth. intros ->. reflexivity.
Qed.

Lemma run_failed_reduce (e : Error) (log : PutLog) :
  reduced = Throw e -> run log = (Throw e, log).
Proof.
  unfold AudienceSpec.run, AudienceSpec.reduced, recomputeAudienceForMonth. intros ->. reflexivity.
Qed.

Lemma summary_between (st : Found) :
  attempts audienceKey [(summaryKey, summaryBody st)] = 0%nat.
Proof.
  unfold attempts. simpl.
  destruct (String.eqb_spec summaryKey audienceKey) as [E|]; [|reflexivity].
  symmetry in E. now apply audience_keys_differ in E.
Qed.

(** The run whose reduction succeeded, with the first [put] of the blob
    and the [put] of the summary carried out. *)
Lemma run_steps (st : Found) (log : PutLog) :
  reduced = OK st ->
  run log =
  let '(r1, log3) :=
    retriesAfter (put answers audienceKey (audienceBody st)) 2 isRetryableErrorFromR2
      (outcomeAt answers audienceKey (audienceBody st) log 0)
      ((log ++ [(audienceKey, audienceBody st)]) ++ [(summaryKey, summaryBody st)]) in
  (_ <- promiseAll2 r1 (answers summaryKey (attempts summaryKey log)) ;;
   OK (resultOf st), log3).
Proof.
  intros Hred. rewrite (run_unfold st log Hred), put_outcome.
  unfold put at 1. cbn [lengthHonoured AudienceSpec.summaryBody].
  rewrite attempts_app.
  replace (attempts summaryKey [(audienceKey, audienceBody st)]) with 0%nat.
  - now rewrite Nat.add_0_r.
  - unfold attempts. simpl.
    destruct (String.eqb_spec audienceKey summaryKey) as [E|]; [|reflexivity].
    now apply audience_keys_differ in E.
Qed.

(** The log of a run whose reduction succeeded: the [put] of the
    audience blob, the [put] of the summary, and then up to two more of
    the blob. *)
Lemma run_log (st : Found) (log : PutLog) :
  reduced = OK st ->
  exists n, (n <= 2)%nat
    /\ snd (run log) =
       ((log ++ [(audienceKey, audienceBody st)]) ++ [(summaryKey, summaryBody st)])
         ++ repeat (audienceKey, audienceBody st) n
    /\ (forall r, fst (run log) = OK r ->
          r = resultOf st /\ lengthHonoured (audienceBody st) = true).
Proof.
  intros Hred. rewrite (run_steps st log Hred).
  destruct (retriesAfter _ _ _ _ _) as [r1 log3] eqn:E.
  apply retriesAfter_log in E.
  2:{ unfold AudienceSpec.outcomeAt. now destruct (lengthHonoured (audienceBody st)). }
  destruct E as [(n & Hn & ->) Hlen].
  exists n. split; [exact Hn|]. cbn [fst snd]. split; [reflexivity|].
  intros r. destruct r1 as [etag|e]; cbn [promiseAll2 bind]; [|discriminate].
  destruct (answers summaryKey _); cbn [bind]; [|discriminate].
  intros [= <-]. split; [reflexivity|]. now apply (Hlen etag).
Qed.

(** C9.  With the bounded retry of the spec around the audience blob
    [put]: when the store fails it with retryable faults at most twice
    and then accepts it, the run succeeds; when it fails it with
    retryable faults three times in a row, the fault is thrown to the
    caller after the third [put] (the summary [put] succeeding in both
    cases); and the audience summary is [put] exactly once, whatever the
    store answers. *)
Theorem audience_put_is_retried_twice (st : Found) (log : PutLog) :
  reduced = OK st ->
  lengthHonoured (audienceBody st) = true ->
  (forall k etag setag,
      (k <= 2)%nat ->
      (forall i, (i < k)%nat ->
         answers audienceKey (attempts audienceKey log + i) = Throw (StorageError true)) ->
      answers audienceKey (attempts audienceKey log + k) = OK etag ->
      answers summaryKey (attempts summaryKey log) = OK setag ->
      fst (run log) = OK (resultOf st)
      /\ attempts audienceKey (snd (run log)) = (attempts audienceKey log + S k)%nat)
  /\ (forall setag,
        (forall i, (i <= 2)%nat ->
           answers audienceKey (attempts audienceKey log + i) = Throw (StorageError true)) ->
        answers summaryKey (attempts summaryKey log) = OK setag ->
        fst (run log) = Throw (StorageError true)
        /\ attempts audienceKey (snd (run log)) = (attempts audienceKey log + 3)%nat)
  /\ attempts summaryKey (snd (run log)) = (attempts summaryKey log + 1)%nat.
Proof.
  intros Hred Hlen.
  assert (Hother : forall n,
             attempts summaryKey (repeat (audienceKey, audienceBody st) n) = 0%nat).
  { intros n. apply attempts_repeat_other. apply audience_keys_differ. }
  pose proof (summary_between st) as Hother'.
  assert (Hone : attempts audienceKey [(audienceKey, audienceBody st)] = 1%nat).
  { unfold attempts. simpl. now rewrite String.eqb_refl. }
  split; [|split].
  - intros k etag setag Hk Hfail Hok Hsum.
    rewrite (run_steps st log Hred).
    rewrite (retriesAfter_success answers audienceKey (audienceBody st)
               isRetryableErrorFromR2 etag k 2 log _ Hother' Hk).
    + rewrite Hsum. cbn [fst snd promiseAll2 bind]. split; [reflexivity|].
      rewrite !attempts_app, attempts_repeat_same, Hother', Hone. lia.
    + intros i Hi. exists (StorageError true). unfold outcomeAt.
      rewrite Hlen, (Hfail i Hi). now split.
    + unfold outcomeAt. now rewrite Hlen.
  - intros setag Hfail Hsum. rewrite (run_steps st log Hred).
    destruct (retriesAfter_exhausted answers audienceKey (audienceBody st)
                isRetryableErrorFromR2 2 log _ Hother') as (e & He & ->).
    { intros i Hi. exists (StorageError true). unfold outcomeAt.
      rewrite Hlen, (Hfail i Hi). now split. }
    unfold outcomeAt in He. rewrite Hlen, (Hfail 2%nat (le_n 2)) in He.
    injection He as <-. cbn [fst snd promiseAll2 bind].
    split; [reflexivity|].
    rewrite !attempts_app, attempts_repeat_same, Hother', Hone. lia.
  - destruct (run_log st log Hred) as (n & _ & -> & _).
    rewrite !attempts_app, Hother. unfold attempts at 2 3. simpl.
    rewrite String.eqb_refl. simpl.
    destruct (String.eqb_spec audienceKey summaryKey) as [E|]; [|simpl; lia].
    now apply audience_keys_differ in E.
Qed.

End Writes.

End AudienceWrites.
(* ================================================================== *)
(** * The audience reducer: the blob and its length                    *)
(* ================================================================== *)

Module AudienceBlob.
Import Js Summaries Blobs Sleep Audience JsFacts SummariesFacts AudienceProps
  AudienceWrites AudienceSpec.

(** ** Lengths of strings *)

Lemma length_substring (s : string) :
  forall n m, (String.length (String.substring n m s) <= m)%nat.
Proof.
  induction s as [|c s IH]; intros [|n] [|m]; simpl; try lia.
  - specialize (IH 0%nat m). lia.
  - apply IH.
  - apply IH.
Qed.

Lemma length_concat (l : list string) :
  String.length (String.concat "" l) =
  fold_right (fun s n => (String.length s + n)%nat) 0%nat l.
Proof.
  induction l as [|s l IH]; simpl; [reflexivity|].
  destruct l as [|s' l]; [simpl; lia|].
  rewrite !length_append, IH. reflexivity.
Qed.

(** A string is what precedes its [n]-th character, that character, and
    what follows. *)
Lemma split_at (s : string) :
  forall n c,
    String.get n s = Some c ->
    s = (String.substring 0 n s
         ++ String c (String.substring (S n) (String.length s - S n) s))%string.
Proof.
  induction s as [|x s IH]; intros [|n] c; simpl; try discriminate.
  - intros [= ->]. f_equal. clear. rewrite Nat.sub_0_r.
    induction s as [|y s IH]; simpl; [reflexivity|]. now rewrite <- IH.
  - intros H. f_equal. now apply IH.
Qed.

(** ** Keys of 64 characters *)

Lemma digits_value_lower (s : string) :
  forall acc n,
    digits_value acc s = Some n -> (acc * 10 ^ N.of_nat (String.length s) <= n)%N.
Proof.
  induction s as [|c s IH]; intros acc n; simpl String.length.
  - simpl. intros [= <-]. lia.
  - cbn [digits_value]. destruct (is_digit c); [|discriminate].
    intros H. apply IH in H. rewrite Nat2N.inj_succ, N.pow_succ_r'. nia.
Qed.

Lemma array_index_long (k : string) :
  (10 < String.length k)%nat -> array_index k = None.
Proof.
  destruct k as [|c rest]; [reflexivity|]. intros Hlen. unfold array_index.
  destruct (Ascii.eqb c "0" && negb (rest =? "")) eqn:E0; [reflexivity|].
  cbn [digits_value]. destruct (is_digit c) eqn:Ed; [|reflexivity].
  destruct (digits_value _ rest) as [n|] eqn:Ev; [|reflexivity].
  apply digits_value_lower in Ev.
  assert (Hc : (1 <= 0 * 10 + (N_of_ascii c - 48))%N).
  { destruct (Ascii.eqb_spec c "0") as [->|Hne].
    - simpl in E0, Hlen. destruct rest; [simpl in Hlen; lia|discriminate].
    - unfold is_digit in Ed. apply andb_prop in Ed. destruct Ed as [H1 H2].
      apply N.leb_le in H1, H2.
      assert (N_of_ascii c <> 48%N).
      { intros H. apply Hne. rewrite <- (ascii_N_embedding c), H. reflexivity. }
      lia. }
  assert (Hp : (10 ^ 10 <= 10 ^ N.of_nat (String.length rest))%N).
  { apply N.pow_le_mono_r; [lia|]. simpl in Hlen. lia. }
  replace (n <? 4294967295)%N with false; [reflexivity|].
  symmetry. apply N.ltb_ge.
  assert (H10 : (4294967295 <= 10 ^ 10)%N) by (vm_compute; discriminate).
  nia.
Qed.

(** ** The size of an object *)

Section Size.
Context {A : Type}.

Lemma length_replace (k : string) (v : A) (o : Obj A) :
  List.length (obj_replace k v o) = List.length o.
Proof.
  induction o as [|[k0 v0] o IH]; simpl; [reflexivity|].
  destruct (k0 =? k); simpl; [reflexivity|]. now rewrite IH.
Qed.

Lemma length_insert_index (n : N) (k : string) (v : A) (o : Obj A) :
  List.length (obj_insert_index n k v o) = S (List.length o).
Proof.
  induction o as [|[k0 v0] o IH]; simpl; [reflexivity|].
  destruct (array_index k0) as [n0|]; [destruct (n0 <? n)%N|]; simpl;
    try reflexivity. now rewrite IH.
Qed.

Lemma length_set (k : string) (v : A) (o : Obj A) :
  List.length (obj_set k v o) =
  match obj_get k o with
  | Some _ => List.length o
  | None => S (List.length o)
  end.
Proof.
  unfold obj_set. destruct (obj_get k o).
  - apply length_replace.
  - destruct (array_index k).
    + apply length_insert_index.
    + rewrite length_app. simpl. lia.
Qed.

End Size.

(** ** The loop keeps [count] above the number of entries *)

Lemma sized_step (partObj : option (Z * Z)) (st : Found) (dl : string * string) :
  sized st -> sized (step partObj st dl).
Proof.
  intros (Hnd & Hcount & Hall). unfold step.
  destruct (accepted partObj (snd dl)); [|now repeat split].
  unfold accept.
  destruct (falsy_at (js_substring 0 64 (snd dl)) (audienceTimestamps st));
    unfold sized; cbn [audienceTimestamps count]; [|now repeat split].
  split; [now apply nodup_keys_set|]. split.
  - rewrite length_set. destruct (obj_get _ _); lia.
  - apply Forall_forall. intros kv Hin.
    apply in_obj_set in Hin. destruct Hin as [->|Hin].
    + cbn [fst snd]. unfold js_substring. split; apply length_substring.
    + now apply (proj1 (Forall_forall _ _) Hall).
Qed.

Lemma sized_fold (partObj : option (Z * Z)) (dls : list (string * string)) :
  forall st, sized st -> sized (fold_left (step partObj) dls st).
Proof.
  induction dls as [|dl dls IH]; intros st H; cbn [fold_left]; [exact H|].
  apply IH. now apply sized_step.
Qed.

Lemma sized_empty : sized emptyFound.
Proof.
  unfold sized, emptyFound. cbn. repeat split; [constructor|lia|constructor].
Qed.

(** ** When no timestamp is empty, [count] is the number of entries *)

Lemma substring_nonempty (s : string) :
  forall n m, (n < String.length s)%nat -> (0 < m)%nat -> String.substring n m s <> "".
Proof.
  induction s as [|c s IH]; intros n m Hn Hm; simpl in Hn; [lia|].
  destruct n as [|n]; destruct m as [|m]; try lia; simpl.
  - discriminate.
  - apply IH; lia.
Qed.

Lemma counted_step (partObj : option (Z * Z)) (st : Found) (dl : string * string) :
  (accepted partObj (snd dl) = true -> (65 < String.length (snd dl))%nat) ->
  count st = Z.of_nat (List.length (audienceTimestamps st))
  /\ Forall (fun kv => snd kv <> "") (audienceTimestamps st) ->
  count (step partObj st dl) = Z.of_nat (List.length (audienceTimestamps (step partObj st dl)))
  /\ Forall (fun kv => snd kv <> "") (audienceTimestamps (step partObj st dl)).
Proof.
  intros Hlong [Hcount Hall]. unfold step.
  destruct (accepted partObj (snd dl)); [|now split].
  specialize (Hlong eq_refl). unfold accept, falsy_at, obj_member.
  destruct (obj_get (js_substring 0 64 (snd dl)) (audienceTimestamps st)) as [s|] eqn:Eg.
  - assert (Hs : s <> "").
    { apply obj_get_some_in in Eg.
      apply (proj1 (Forall_forall _ _) Hall) in Eg. exact Eg. }
    destruct (String.eqb_spec s ""); [contradiction|]. now split.
  - destruct (inherited (js_substring 0 64 (snd dl))); [now split|].
    cbn [count audienceTimestamps]. split.
    + rewrite length_set, Eg. lia.
    + apply Forall_forall. intros kv Hin. apply in_obj_set in Hin.
      destruct Hin as [->|Hin]; [|now apply (proj1 (Forall_forall _ _) Hall)].
      cbn [snd]. unfold js_substring. apply substring_nonempty; lia.
Qed.

Lemma counted_fold (partObj : option (Z * Z)) (dls : list (string * string)) :
  (forall line, In line (acceptedLines partObj dls) -> (65 < String.length line)%nat) ->
  forall st,
    count st = Z.of_nat (List.length (audienceTimestamps st))
    /\ Forall (fun kv => snd kv <> "") (audienceTimestamps st) ->
    count (fold_left (step partObj) dls st)
    = Z.of_nat (List.length (audienceTimestamps (fold_left (step partObj) dls st))).
Proof.
  unfold acceptedLines.
  induction dls as [|dl dls IH]; intros Hlong st H; cbn [fold_left]; [apply H|].
  apply IH.
  - intros line Hin. apply Hlong. cbn [map filter].
    destruct (accepted partObj (snd dl)); [now right|exact Hin].
  - apply counted_step; [|exact H]. intros Ha. apply Hlong. cbn [map filter].
    rewrite Ha. now left.
Qed.

(** ** Lines of the stated form *)

Lemma wfLine_parts (line : string) :
  wfLine line = true ->
  String.length line = 80%nat
  /\ line = (fst (entryOf line) ++ String "009" (snd (entryOf line)))%string
  /\ String.length (fst (entryOf line)) = 64%nat
  /\ String.length (snd (entryOf line)) = 15%nat.
Proof.
  unfold wfLine. intros H. apply andb_prop in H. destruct H as [H Htab].
  apply andb_prop in H. destruct H as [Hlen _]. apply Nat.eqb_eq in Hlen.
  destruct (String.get 64 line) as [c|] eqn:Eg; [|discriminate].
  apply Ascii.eqb_eq in Htab. subst c.
  pose proof (split_at _ _ _ Eg) as Hsplit. rewrite Hlen in Hsplit.
  change (80 - 65)%nat with 15%nat in Hsplit.
  pose proof (f_equal String.length Hsplit) as Hsum.
  rewrite length_append in Hsum. cbn [String.length] in Hsum. rewrite Hlen in Hsum.
  pose proof (length_substring line 0 64) as Hid.
  pose proof (length_substring line 65 15) as Hts.
  unfold entryOf, js_substring. cbn [fst snd].
  change (64 - 0)%nat with 64%nat. change (80 - 65)%nat with 15%nat.
  split; [exact Hlen|]. split; [exact Hsplit|]. lia.
Qed.

Lemma seen_keys (id : string) (ats : Obj string) :
  Forall (fun kv => snd kv <> "") ats ->
  truthy (obj_get id ats) = existsb (String.eqb id) (keys ats).
Proof.
  induction 1 as [|[k v] ats Hv _ IH]; cbn [obj_get keys map existsb fst];
    [reflexivity|].
  rewrite (String.eqb_sym id k).
  destruct (k =? id); cbn [orb]; [|exact IH].
  cbn [snd] in Hv. unfold truthy. now destruct v.
Qed.

Lemma fold_wf (partObj : option (Z * Z)) (dls : list (string * string)) :
  (forall line, In line (acceptedLines partObj dls) -> wfLine line = true) ->
  forall st,
    Forall (fun kv => snd kv <> "") (audienceTimestamps st) ->
    audienceTimestamps (fold_left (step partObj) dls st) =
    audienceTimestamps st
      ++ map entryOf (firstLines (keys (audienceTimestamps st))
                        (acceptedLines partObj dls))
    /\ count (fold_left (step partObj) dls st) =
       (count st
        + Z.of_nat (List.length (firstLines (keys (audienceTimestamps st))
                                   (acceptedLines partObj dls))))%Z.
Proof.
  unfold acceptedLines.
  induction dls as [|dl dls IH]; intros Hwf st Hst; cbn [fold_left map filter].
  - cbn [firstLines map List.length]. rewrite app_nil_r. split; [reflexivity|lia].
  - unfold step at 2 4. destruct (accepted partObj (snd dl)) eqn:Ea.
    + assert (Hl : wfLine (snd dl) = true).
      { apply Hwf. cbn [map filter]. rewrite Ea. now left. }
      assert (Hrest : forall line,
                 In line (filter (accepted partObj) (map snd dls)) -> wfLine line = true).
      { intros line H. apply Hwf. cbn [map filter]. rewrite Ea. now right. }
      destruct (wfLine_parts _ Hl) as (_ & _ & Hid & Hts).
      cbn [firstLines]. unfold accept.
      rewrite falsy_at_plain, (seen_keys _ _ Hst);
        [|apply inherited_short; unfold entryOf in Hid; cbn [fst] in Hid;
          rewrite Hid; lia].
      unfold idOf.
      destruct (existsb (String.eqb (js_substring 0 64 (snd dl)))
                        (keys (audienceTimestamps st))) eqn:Es; cbn [negb].
      * destruct (IH Hrest {| audienceTimestamps := audienceTimestamps st;
                              found := increment (found st) (fst dl);
                              count := count st |} Hst) as [Ha Hc].
        cbn [audienceTimestamps count] in Ha, Hc. now split.
      * assert (Hget : obj_get (js_substring 0 64 (snd dl)) (audienceTimestamps st) = None).
        { apply obj_get_none_iff. intros Hin.
          apply not_true_iff_false in Es. apply Es. apply existsb_exists.
          exists (js_substring 0 64 (snd dl)). split; [exact Hin|apply String.eqb_refl]. }
        assert (Hset : obj_set (js_substring 0 64 (snd dl)) (js_substring 65 80 (snd dl))
                         (audienceTimestamps st)
                       = audienceTimestamps st ++ [entryOf (snd dl)]).
        { unfold obj_set. rewrite Hget, array_index_long; [reflexivity|].
          unfold entryOf in Hid. cbn [fst] in Hid. rewrite Hid. lia. }
        rewrite Hset.
        destruct (IH Hrest {| audienceTimestamps := audienceTimestamps st ++ [entryOf (snd dl)];
                              found := increment (found st) (fst dl);
                              count := (count st + 1)%Z |}) as [Ha Hc].
        { cbn [audienceTimestamps]. apply Forall_app. split; [exact Hst|].
          constructor; [|constructor]. unfold entryOf in *. cbn [snd fst] in *.
          intros E. rewrite E in Hts. discriminate. }
        cbn [audienceTimestamps count] in Ha, Hc.
        unfold keys in Ha, Hc. rewrite map_app in Ha, Hc. cbn [map fst entryOf] in Ha, Hc.
        fold (keys (audienceTimestamps st)) in Ha, Hc.
        cbn [map List.length]. rewrite Ha, Hc, <- app_assoc. cbn [app].
        split; [reflexivity|lia].
    + apply IH; [|exact Hst]. intros line H. apply Hwf. cbn [map filter].
      now rewrite Ea.
Qed.

Lemma bytes_of_lines (lines : list string) :
  (forall line, In line lines -> wfLine line = true) ->
  audienceBytes (map entryOf lines) =
  String.concat "" (map (fun l => (l ++ String "010" "")%string) lines).
Proof.
  intros Hwf. unfold audienceBytes. rewrite map_map. f_equal.
  apply map_ext_in. intros line Hin.
  destruct (wfLine_parts _ (Hwf _ Hin)) as (_ & Hparts & _).
  rewrite Hparts at 3.
  generalize (fst (entryOf line)) as a, (snd (entryOf line)) as b. clear.
  intros a b. induction a as [|c a IH]; cbn [String.append];
    [reflexivity|now rewrite IH].
Qed.

Lemma lines_length (lines : list string) :
  (forall line, In line lines -> wfLine line = true) ->
  String.length (String.concat "" (map (fun l => (l ++ String "010" "")%string) lines))
  = (81 * List.length lines)%nat.
Proof.
  intros Hwf. rewrite length_concat.
  induction lines as [|l ls IH]; cbn [map fold_right List.length]; [reflexivity|].
  rewrite IH by (intros line H; apply Hwf; now right).
  rewrite length_append. cbn [String.length].
  destruct (wfLine_parts l (Hwf l (or_introl eq_refl))) as (Hlen & _). lia.
Qed.

Lemma firstLines_sub (lines seen : list string) :
  forall line, In line (firstLines seen lines) -> In line lines.
Proof.
  revert seen. induction lines as [|l ls IH]; intros seen line; cbn [firstLines];
    [tauto|].
  destruct (existsb _ seen).
  - intros H. right. now apply (IH seen).
  - intros [<-|H]; [now left|]. right. now apply (IH _ _ H).
Qed.

Lemma keys_are_countedIds (partObj : option (Z * Z)) (dls : list (string * string)) :
  List.length (audienceTimestamps (fold_left (step partObj) dls emptyFound))
  = List.length (countedIds partObj dls).
Proof.
  rewrite <- (length_map fst). fold (keys (audienceTimestamps
                                         (fold_left (step partObj) dls emptyFound))).
  apply Permutation_length, NoDup_Permutation.
  - apply (sized_fold partObj dls emptyFound sized_empty).
  - apply NoDup_filter, NoDup_nodup.
  - intros id. unfold countedIds, distinctIds, acceptedLines.
    rewrite keys_fold, filter_In, nodup_In, in_map_iff, negb_true_iff. split.
    + intros [[]|(dl & Hin & Ha & Hi & Hp)]. split; [|exact Hp].
      exists (snd dl). split; [exact Hi|].
      apply filter_In. split; [now apply in_map|exact Ha].
    + intros [(line & Hi & Hin) Hp]. apply filter_In in Hin. destruct Hin as [Hin Ha].
      apply in_map_iff in Hin. destruct Hin as (dl & <- & Hin).
      right. now exists dl.
Qed.

Section Blob.
Variables isValidUuid isValidDate isValidMonth : string -> bool.
Variable statsBlobs : Reader.
Variable answers : Writer.

(** X30.  When [recomputeAudienceForMonth] returns, [contentLength] is
    [(64 + 1 + 15 + 1)] times the count it returns, and the blob it has
    put has an entry for each distinct audience id accepted for the month
    and part that names no member of [Object.prototype].  When every
    accepted line is longer than 65 characters, so that no timestamp is
    empty, the count is the number of those ids.  When every accepted
    line is a 64-hex audience id, a tab and a 15-character timestamp, the
    blob is made of the accepted lines that bring a new audience id, in
    the order they were read, each followed by a newline; there are
    [count] of them, and [contentLength] bytes in all. *)
Theorem audience_blob_has_81_bytes_a_line (showUuid month : string)
    (partObj : option (Z * Z)) (log log' : PutLog) (r : AudienceResult) :
  supported partObj ->
  recomputeAudienceForMonth isValidUuid isValidDate isValidMonth statsBlobs answers
    showUuid month partObj log = (OK r, log') ->
  exists st dls,
    reduceMonth isValidUuid isValidDate isValidMonth statsBlobs showUuid month partObj
      = OK st
    /\ monthLines isValidUuid isValidDate isValidMonth statsBlobs showUuid month = OK dls
    /\ contentLength r = ((64 + 1 + 15 + 1) * audience r)%Z
    /\ In (computeAudienceKey showUuid month (partName partObj),
           FixedLengthBody (contentLength r) (audienceBytes (audienceTimestamps st)))
          log'
    /\ List.length (audienceTimestamps st) = List.length (countedIds partObj dls)
    /\ ((forall line, In line (acceptedLines partObj dls) ->
                      (65 < String.length line)%nat) ->
        audience r = Z.of_nat (List.length (countedIds partObj dls)))
    /\ ((forall line, In line (acceptedLines partObj dls) -> wfLine line = true) ->
        audienceBytes (audienceTimestamps st) =
        String.concat ""
          (map (fun l => (l ++ String "010" "")%string)
               (firstLines [] (acceptedLines partObj dls)))
        /\ audience r
           = Z.of_nat (List.length (firstLines [] (acceptedLines partObj dls)))
        /\ Z.of_nat (String.length (audienceBytes (audienceTimestamps st)))
           = contentLength r).
Proof.
  intros Hs Hrun.
  pose (red := reduced isValidUuid isValidDate isValidMonth statsBlobs showUuid month
                 partObj).
  destruct red as [st|e] eqn:Ered; subst red.
  2:{ pose proof (run_failed_reduce isValidUuid isValidDate isValidMonth statsBlobs
                    answers showUuid month partObj e log Ered) as H.
      unfold run in H. rewrite H in Hrun. discriminate. }
  destruct (run_log isValidUuid isValidDate isValidMonth statsBlobs answers
              showUuid month partObj st log Ered) as (n & _ & Hlog & Hok).
  unfold run in Hlog, Hok. rewrite Hrun in Hlog, Hok. cbn [fst snd] in Hlog, Hok.
  destruct (Hok r eq_refl) as [-> _]. clear Hok.
  pose proof Ered as Hlines. unfold reduced in Hlines.
  rewrite (reduceMonth_lines _ _ _ _ _ _ _ Hs) in Hlines.
  destruct (monthLines _ _ _ _ showUuid month) as [dls|e] eqn:El;
    cbn [bind] in Hlines; [|discriminate].
  injection Hlines as Hst.
  exists st, dls. split; [exact Ered|]. split; [reflexivity|].
  cbn [contentLength audience resultOf].
  split; [reflexivity|]. split; [|split; [|split]].
  - rewrite Hlog. apply in_or_app. left. apply in_or_app. left.
    apply in_or_app. right. now left.
  - rewrite <- Hst. apply keys_are_countedIds.
  - intros Hlong. rewrite <- keys_are_countedIds, <- Hst.
    apply counted_fold; [exact Hlong|]. split; [reflexivity|constructor].
  - intros Hwf.
    destruct (fold_wf partObj dls Hwf emptyFound (Forall_nil _)) as [Ha Hc].
    rewrite Hst in Ha, Hc. cbn [audienceTimestamps count emptyFound keys map app] in Ha, Hc.
    assert (Hfirst : forall line,
               In line (firstLines [] (acceptedLines partObj dls)) -> wfLine line = true).
    { intros line Hin. apply Hwf. now apply (firstLines_sub _ []). }
    assert (Hbytes : audienceBytes (audienceTimestamps st) =
                     String.concat ""
                       (map (fun l => (l ++ String "010" "")%string)
                            (firstLines [] (acceptedLines partObj dls)))).
    { rewrite Ha. now apply bytes_of_lines. }
    split; [exact Hbytes|]. split; [rewrite Hc; lia|].
    rewrite Hbytes, (lines_length _ Hfirst), Hc. lia.
Qed.

End Blob.

End AudienceBlob.

(* ================================================================== *)
(** * The audience key space                                           *)
(* ================================================================== *)

Module KeyProps.
Import Js Audience JsFacts.

Lemma prefix_append (a b c : string) :
  String.prefix (a ++ b) (a ++ c) = String.prefix b c.
Proof.
  induction a as [|x a IH]; [reflexivity|].
  cbn [String.append String.prefix].
  destruct (ascii_dec x x) as [_|Hne]; [exact IH|congruence].
Qed.

Lemma prefix_same_length (a a' : string) :
  forall b c,
    String.length a = String.length a' ->
    String.prefix (a ++ b) (a' ++ c) = true ->
    a = a' /\ String.prefix b c = true.
Proof.
  revert a'. induction a as [|x a IH]; intros [|x' a'] b c; simpl;
    try discriminate.
  - intros _ H. now split.
  - intros [= Hlen]. destruct (ascii_dec x x') as [->|]; [|discriminate].
    intros H. destruct (IH _ _ _ Hlen H) as [-> Hp]. now split.
Qed.

Lemma prefix_within (x : string) :
  forall p q,
    (String.length x <= String.length p)%nat ->
    String.prefix x (p ++ q) = true -> String.prefix x p = true.
Proof.
  induction x as [|c x IH]; intros [|c' p] q; cbn [String.length String.append].
  - reflexivity.
  - reflexivity.
  - lia.
  - intros Hlen. cbn [String.prefix].
    destruct (ascii_dec c c'); [|discriminate]. apply IH. lia.
Qed.

(** The listing prefix against a key of the audience family comes down
    to the month against the period. *)
Lemma prefix_of_audience_key (showUuid month period : string) (part : option string) :
  String.prefix (computeAudienceKeyPrefix showUuid month)
                (computeAudienceKey showUuid period part)
  = String.prefix (month ++ "-")
                  (period ++ "." ++ partSuffix part ++ ".audience.txt").
Proof.
  unfold computeAudienceKeyPrefix, computeAudienceKey.
  rewrite (prefix_append "audiences/show/"), (prefix_append showUuid).
  rewrite (prefix_append "/"), (prefix_append showUuid).
  now rewrite (prefix_append "-").
Qed.

Section KeySpace.
Variables isValidDate isValidMonth : string -> bool.
Hypothesis month_length :
  forall s, isValidMonth s = true -> String.length s = 7%nat.
Hypothesis date_length :
  forall s, isValidDate s = true -> String.length s = 10%nat.

(** C10.  The prefix [recomputeAudienceForMonth] lists with never
    matches the key of the monthly audience blob it writes for the same
    show and month, whatever the part.  Among the audience keys of the
    show, whose period is a date or a month, it matches only keys whose
    period is a date of that month: the daily audience keys. *)
Theorem listing_prefix_matches_daily_keys_only (showUuid month : string) :
  (forall part,
      String.prefix (computeAudienceKeyPrefix showUuid month)
                    (computeAudienceKey showUuid month part) = false)
  /\ (forall period part,
        isValidMonth month = true ->
        isValidDate period = true \/ isValidMonth period = true ->
        String.prefix (computeAudienceKeyPrefix showUuid month)
                      (computeAudienceKey showUuid period part) = true ->
        isValidDate period = true
        /\ isValidMonth period = false
        /\ String.prefix (month ++ "-") period = true).
Proof.
  split.
  - intros part. rewrite prefix_of_audience_key, prefix_append. reflexivity.
  - intros period part Hm Hp. rewrite prefix_of_audience_key. intros Hpre.
    assert (Hnot : isValidMonth period = false).
    { destruct (isValidMonth period) eqn:E; [|reflexivity].
      destruct (prefix_same_length month period "-"
                  ("." ++ partSuffix part ++ ".audience.txt")) as [_ H].
      - now rewrite (month_length _ Hm), (month_length _ E).
      - exact Hpre.
      - discriminate H. }
    destruct Hp as [Hd|Hp]; [|congruence].
    split; [exact Hd|]. split; [exact Hnot|].
    apply (prefix_within _ _ ("." ++ partSuffix part ++ ".audience.txt")); [|exact Hpre].
    rewrite length_append, (month_length _ Hm), (date_length _ Hd). simpl. lia.
Qed.

End KeySpace.

Lemma isValidMonth_length (s : string) :
  Check.isValidMonth s = true -> String.length s = 7%nat.
Proof.
  unfold Check.isValidMonth. intros H. apply andb_prop in H.
  now apply Nat.eqb_eq.
Qed.

Lemma isValidDate_length (s : string) :
  Check.isValidDate s = true -> String.length s = 10%nat.
Proof.
  unfold Check.isValidDate. intros H. apply andb_prop in H.
  now apply Nat.eqb_eq.
Qed.

End KeyProps.

(* ================================================================== *)
(** * The request parser                                               *)
(* ================================================================== *)

Module ParserProps.
Import Js ShowSummaries.

Section Parser.
Variable isValidUuid : string -> bool.
Variable isValidMonth : string -> bool.
Variable tryParseInt : option string -> option Z.

(** C8, as the code has it.  A request with a valid show and month is
    parsed whatever its [phases] parameter holds: the tokens outside the
    recognized set are dropped and the recognized ones are kept, in
    order; no error is raised for them. *)
Theorem unrecognized_phase_tokens_are_dropped (parameters : Obj string)
    (show month phasesStr : string) :
  obj_get "show" parameters = Some show ->
  isValidUuid show = true ->
  obj_get "month" parameters = Some month ->
  isValidMonth month = true ->
  obj_get "phases" parameters = Some phasesStr ->
  phasesStr <> "" ->
  exists req,
    tryParseRecomputeShowSummariesForMonthRequest isValidUuid isValidMonth tryParseInt
      "update" "/work/recompute-show-summaries" (Some parameters) = OK (Some req)
    /\ req_phases req = Some (filter isPhase (split "," phasesStr))
    /\ forall token,
         In token (filter isPhase (split "," phasesStr)) <->
         In token (split "," phasesStr) /\ isPhase token = true.
Proof.
  intros Hshow Hu Hmonth Hm Hphases Hne.
  unfold tryParseRecomputeShowSummariesForMonthRequest.
  cbn [String.eqb Ascii.eqb Bool.eqb andb].
  rewrite Hshow, Hmonth, Hphases. unfold check. rewrite Hu, Hm. cbn [bind].
  assert (Ht : truthy (Some phasesStr) = true).
  { unfold truthy. destruct (String.eqb_spec phasesStr ""); [congruence|reflexivity]. }
  rewrite Ht. eexists. split; [reflexivity|]. split; [reflexivity|].
  intros token. apply filter_In.
Qed.

End Parser.
End ParserProps.

(* ================================================================== *)
(** * The daily computer: what every count counts                     *)
(* ================================================================== *)

Module DailyCounts.
Import Js Summaries Blobs ShowSummaries JsFacts SummariesFacts.
Import DailySpec AggregateSpec OverallSpec DailyProps OverallProps.

#[local] Arguments total : simpl never.

Lemma countZ_nil {A : Type} (f : A -> bool) : countZ f [] = 0%Z.
Proof. reflexivity. Qed.

Lemma countZ_cons {A : Type} (f : A -> bool) (a : A) (l : list A) :
  countZ f (a :: l) = ((if f a then 1 else 0) + countZ f l)%Z.
Proof. unfold countZ. cbn [filter]. destruct (f a); cbn [List.length]; lia. Qed.

Lemma nonBot_cons (r : TsvRow) (rows : list TsvRow) :
  nonBot (r :: rows) =
  match botType r with None => r :: nonBot rows | Some _ => nonBot rows end.
Proof. unfold nonBot. simpl. now destruct (botType r). Qed.

Lemma count_of_increment (h k : string) (o : Obj Z) :
  count_of h (increment o k) = (count_of h o + if (k =? h)%string then 1 else 0)%Z.
Proof.
  unfold increment. rewrite count_of_set.
  destruct (String.eqb_spec k h) as [->|]; lia.
Qed.

Lemma nodup_keys_increment (o : Obj Z) (k : string) :
  NoDup (keys o) -> NoDup (keys (increment o k)).
Proof. apply nodup_keys_set. Qed.

Lemma in_keys_increment (o : Obj Z) (k h : string) :
  In h (keys (increment o k)) <-> h = k \/ In h (keys o).
Proof. apply in_keys_set. Qed.

(** What one record does, when the loop goes on. *)
Lemma processRow_inv (acc acc' : DailyAcc) (r : TsvRow) :
  processRow acc r = OK acc' ->
  match botType r with
  | Some _ => acc' = acc
  | None =>
      d_hourlyDownloads acc' = increment (d_hourlyDownloads acc) (hourOf r)
      /\ d_dimensionDownloads acc' = recordDimensions (d_dimensionDownloads acc) r
      /\ d_audienceTimestamps acc' =
         match audienceId r with
         | Some a =>
             if truthy (Some a) && falsy_at a (d_audienceTimestamps acc)
             then obj_set a (timestampOf r) (d_audienceTimestamps acc)
             else d_audienceTimestamps acc
         | None => d_audienceTimestamps acc
         end
      /\ match episodeId r with
         | Some e => recordEpisode (d_episodes acc) e (hourOf r)
         | None => OK (d_episodes acc)
         end = OK (d_episodes acc')
  end.
Proof.
  unfold processRow, hourOf, timestampOf. destruct (time r) as [t|]; [|discriminate].
  destruct (botType r); [now intros [= <-]|].
  match goal with
  | |- context [bind ?x _] => destruct x as [eps|e]
  end; cbn [bind]; [|discriminate].
  intros [= <-]. now repeat split.
Qed.

(** What one record does to the hourly counts. *)
Lemma processRow_hourly (acc acc' : DailyAcc) (r : TsvRow) :
  processRow acc r = OK acc' ->
  d_hourlyDownloads acc' =
  match botType r with
  | None => increment (d_hourlyDownloads acc) (hourOf r)
  | Some _ => d_hourlyDownloads acc
  end.
Proof.
  intros E. apply processRow_inv in E.
  destruct (botType r); [now subst|]. now destruct E as (-> & _).
Qed.

Lemma rows_hourly (rows : list TsvRow) :
  forall acc acc',
    forOf processRow rows acc = OK acc' ->
    (NoDup (keys (d_hourlyDownloads acc)) -> NoDup (keys (d_hourlyDownloads acc')))
    /\ forall h,
         count_of h (d_hourlyDownloads acc') =
         (count_of h (d_hourlyDownloads acc) + countZ (inHour h) (nonBot rows))%Z
         /\ (In h (keys (d_hourlyDownloads acc')) <->
             In h (keys (d_hourlyDownloads acc))
             \/ exists r, In r (nonBot rows) /\ hourOf r = h).
Proof.
  induction rows as [|r rows IH]; cbn [forOf]; intros acc acc'.
  - intros [= <-]. split; [tauto|]. intros h.
    change (nonBot []) with (@nil TsvRow). rewrite countZ_nil. split; [lia|].
    split; [now left|]. intros [H|(r & [] & _)]. exact H.
  - destruct (processRow acc r) as [acc1|e] eqn:E; cbn [bind]; [|discriminate].
    intros H. destruct (IH _ _ H) as [Hnd Hh].
    pose proof (processRow_hourly _ _ _ E) as E1.
    rewrite nonBot_cons. split.
    + intros H0. apply Hnd. rewrite E1. destruct (botType r); [exact H0|].
      now apply nodup_keys_increment.
    + intros h. destruct (Hh h) as [Hc Hk]. rewrite Hc, Hk, E1.
      destruct (botType r) as [b|]; [split; [reflexivity|reflexivity]|].
      rewrite countZ_cons, count_of_increment, in_keys_increment.
      change (inHour h r) with (hourOf r =? h).
      split; [lia|]. split.
      * intros [[->|H1]|(r' & Hin & Hr)].
        -- right. exists r. split; [now left|reflexivity].
        -- now left.
        -- right. exists r'. split; [now right|exact Hr].
      * intros [H1|(r' & [<-|Hin] & Hr)].
        -- now left; right.
        -- left; left. now symmetry.
        -- right. now exists r'.
Qed.

Section Hours.
Variable computeShowDailyKey : string -> string -> string.

(** X1.  In the summary [computeShowSummaryForDate] returns, every hour
    holds the number of records of that hour whose [botType] is unset, and
    the hours are those of such records, each of them once. *)
Theorem daily_hours_count_their_downloads (statsBlobs : Reader) (showUuid date : string)
    (rows : list TsvRow) (etag : string) (summary : JsValue) (audience : Obj string) :
  get_tsv statsBlobs (computeShowDailyKey showUuid date) = Some (rows, etag) ->
  computeShowSummaryForDate computeShowDailyKey statsBlobs showUuid date
    = OK (summary, audience) ->
  exists s,
    asShowSummary summary = Some s
    /\ NoDup (keys (hourlyDownloads s))
    /\ forall h,
         count_of h (hourlyDownloads s) = countZ (inHour h) (nonBot rows)
         /\ (In h (keys (hourlyDownloads s)) <->
             exists r, In r (nonBot rows) /\ hourOf r = h).
Proof.
  unfold computeShowSummaryForDate. intros -> H.
  destruct (forOf processRow rows emptyDaily) as [acc|e] eqn:E; cbn [bind] in H;
    [|discriminate].
  injection H as <- <-.
  eexists. split; [apply asShowSummary_sorted|]. cbn [hourlyDownloads].
  destruct (rows_hourly _ _ _ E) as [Hnd Hh]. split; [apply Hnd; constructor|].
  intros h. destruct (Hh h) as [Hc Hk]. split.
  - rewrite Hc. reflexivity.
  - rewrite Hk. split; [intros [[]|H]; exact H|now right].
Qed.

End Hours.

(** ** Dimensions *)

Lemma dimensionTotal_increment (d d' k : string) (dims : Obj (Obj Z)) :
  dimensionTotal d' (incrementDimension dims d k) =
  (dimensionTotal d' dims + if (d =? d')%string then 1 else 0)%Z.
Proof.
  unfold dimensionTotal, incrementDimension. rewrite obj_get_set.
  destruct (String.eqb_spec d d') as [->|]; [|lia].
  now rewrite total_increment.
Qed.

Lemma dimensionTotal_tags (d' : string) (l : list string) :
  forall dims,
    dimensionTotal d' (fold_left (fun d tag => incrementDimension d "tag" tag) l dims) =
    (dimensionTotal d' dims
     + if ("tag" =? d')%string then Z.of_nat (List.length l) else 0)%Z.
Proof.
  induction l as [|t l IH]; intros dims; cbn [fold_left List.length].
  - destruct ("tag" =? d')%string; lia.
  - rewrite IH, dimensionTotal_increment. destruct ("tag" =? d')%string; lia.
Qed.

Lemma dimensionTotal_if (d d0 k : string) (c : bool) (dims : Obj (Obj Z)) :
  dimensionTotal d (if c then incrementDimension dims d0 k else dims) =
  (dimensionTotal d dims + if c && (d0 =? d)%string then 1 else 0)%Z.
Proof.
  destruct c; cbn [andb]; [apply dimensionTotal_increment|lia].
Qed.

Lemma dimensionTotal_ite (d : string) (c : bool) (a b : Obj (Obj Z)) :
  dimensionTotal d (if c then a else b) =
  if c then dimensionTotal d a else dimensionTotal d b.
Proof. now destruct c. Qed.

Lemma dimensionTotal_opt (d d0 : string) (o : option string) (g : string -> string)
    (dims : Obj (Obj Z)) :
  dimensionTotal d
    match o with
    | Some m => if truthy (Some m) then incrementDimension dims d0 (g m) else dims
    | None => dims
    end =
  (dimensionTotal d dims + if truthy o && (d0 =? d)%string then 1 else 0)%Z.
Proof.
  destruct o as [m|]; [apply dimensionTotal_if|]. cbn [truthy andb]. lia.
Qed.

Lemma if_same {A : Type} (c : bool) (a : A) : (if c then a else a) = a.
Proof. now destruct c. Qed.

Ltac step_let :=
  lazymatch goal with
  | |- dimensionTotal ?d (let x := ?v in @?f x) = ?R =>
      let y := fresh "x" in
      let Hy := fresh "H" in
      pose (y := v);
      let t := eval cbv beta in (f y) in
      change (dimensionTotal d t = R);
      first [ assert (Hy : dimensionTotal d y = dimensionTotal d v) by reflexivity;
              clearbody y
            | idtac ]
  end.

Ltac settle H :=
  cbv zeta in H;
  rewrite ?dimensionTotal_ite in H;
  rewrite ?dimensionTotal_opt, ?dimensionTotal_if, ?dimensionTotal_increment in H;
  cbn [String.eqb Ascii.eqb Bool.eqb] in H;
  rewrite ?andb_false_r, ?andb_true_r, ?Z.add_0_r, ?if_same in H.

Ltac settle_all :=
  repeat match goal with
    | H : dimensionTotal _ _ = dimensionTotal _ (_ _) |- _ => progress settle H
    | H : dimensionTotal _ _ = dimensionTotal _ (match _ with _ => _ end) |- _ =>
        progress settle H
    end.

Ltac settle_tags :=
  lazymatch goal with
  | |- context [tags ?obj] =>
      destruct (tags obj) as [?t|]; [destruct (truthy (Some t))|];
      rewrite ?dimensionTotal_tags; cbn [String.eqb Ascii.eqb Bool.eqb]
  end.

(** What one record adds to the total of a dimension that every
    download counts in. *)
Lemma recordDimensions_always (d : string) (dims : Obj (Obj Z)) (obj : TsvRow) :
  d = "countryCode" \/ d = "deviceType" \/ d = "deviceName" ->
  dimensionTotal d (recordDimensions dims obj) = (dimensionTotal d dims + 1)%Z.
Proof.
  intros Hd. cbv beta delta [recordDimensions]. do 19 step_let.
  destruct Hd as [->|[->| ->]]; settle_all; settle_tags; lia.
Qed.

(** What one record adds to the total of the dimension of its agent
    type. *)
Lemma recordDimensions_agent (d kind : string) (dims : Obj (Obj Z)) (obj : TsvRow) :
  (d, kind) = ("appName", "app") \/ (d, kind) = ("browserName", "browser")
  \/ (d, kind) = ("libraryName", "library") ->
  dimensionTotal d (recordDimensions dims obj) =
  (dimensionTotal d dims
   + if (orDefault "unknown" (agentType obj) =? kind)%string then 1 else 0)%Z.
Proof.
  intros Hd. cbv beta delta [recordDimensions]. do 19 step_let.
  destruct Hd as [[= -> ->]|[[= -> ->]|[= -> ->]]]; settle_all; settle_tags;
    repeat match goal with y := _ : string |- _ => subst y end;
    repeat match goal with
      | H : context [if (?a =? ?b)%string then _ else _] |- _ =>
          destruct (String.eqb_spec a b)
      | |- context [if (?a =? ?b)%string then _ else _] =>
          destruct (String.eqb_spec a b)
      end; try congruence; try lia.
Qed.

(** ** Rows: dimensions *)

Lemma processRow_dimensions (acc acc' : DailyAcc) (r : TsvRow) :
  processRow acc r = OK acc' ->
  d_dimensionDownloads acc' =
  match botType r with
  | None => recordDimensions (d_dimensionDownloads acc) r
  | Some _ => d_dimensionDownloads acc
  end.
Proof.
  intros E. apply processRow_inv in E.
  destruct (botType r); [now subst|]. now destruct E as (_ & -> & _).
Qed.

Lemma rows_dimensions (d : string) (hit : TsvRow -> bool) :
  (forall dims r,
      dimensionTotal d (recordDimensions dims r) =
      (dimensionTotal d dims + if hit r then 1 else 0)%Z) ->
  forall rows acc acc',
    forOf processRow rows acc = OK acc' ->
    dimensionTotal d (d_dimensionDownloads acc') =
    (dimensionTotal d (d_dimensionDownloads acc) + countZ hit (nonBot rows))%Z.
Proof.
  intros Hstep. induction rows as [|r rows IH]; cbn [forOf]; intros acc acc'.
  - intros [= <-]. change (nonBot []) with (@nil TsvRow). rewrite countZ_nil. lia.
  - destruct (processRow acc r) as [acc1|e] eqn:E; cbn [bind]; [|discriminate].
    intros H. rewrite (IH _ _ H), (processRow_dimensions _ _ _ E), nonBot_cons.
    destruct (botType r); [lia|]. rewrite Hstep, countZ_cons. lia.
Qed.

(** ** Rows: episodes *)

Lemma recordEpisode_get (id e hour : string) (eps eps' : Obj EpisodeSummary) :
  recordEpisode eps e hour = OK eps' ->
  obj_get id eps' =
  if e =? id
  then Some {| ep_hourlyDownloads := increment (hoursOfEpisode e eps) hour;
               ep_firstHour := lesser (hourAt e eps) hour |}
  else obj_get id eps.
Proof.
  unfold recordEpisode, obj_member, hoursOfEpisode, hourAt.
  destruct (obj_get e eps) as [r|]; [|destruct (inherited e); [discriminate|]];
    intros [= <-]; rewrite obj_get_set; (destruct (e =? id); [|reflexivity]);
    cbn [option_map lesser ep_firstHour ep_hourlyDownloads].
  - now destruct (str_lt hour (ep_firstHour r)).
  - now rewrite str_lt_irrefl.
Qed.

Lemma processRow_episodes (acc acc' : DailyAcc) (r : TsvRow) :
  processRow acc r = OK acc' ->
  match botType r, episodeId r with
  | None, Some e => recordEpisode (d_episodes acc) e (hourOf r) = OK (d_episodes acc')
  | _, _ => d_episodes acc' = d_episodes acc
  end.
Proof.
  intros E. apply processRow_inv in E.
  destruct (botType r); [now subst|]. destruct E as (_ & _ & _ & E).
  destruct (episodeId r); [exact E|]. now injection E.
Qed.

Lemma processRow_episode (id : string) (acc acc' : DailyAcc) (r : TsvRow) :
  processRow acc r = OK acc' ->
  botType r = None ->
  hourAt id (d_episodes acc') =
    (if ofEpisode id r then Some (lesser (hourAt id (d_episodes acc)) (hourOf r))
     else hourAt id (d_episodes acc))
  /\ hoursOfEpisode id (d_episodes acc') =
     (if ofEpisode id r then increment (hoursOfEpisode id (d_episodes acc)) (hourOf r)
      else hoursOfEpisode id (d_episodes acc))
  /\ (In id (keys (d_episodes acc')) <->
      ofEpisode id r = true \/ In id (keys (d_episodes acc))).
Proof.
  intros E Hb. pose proof (processRow_episodes _ _ _ E) as E1. rewrite Hb in E1.
  unfold ofEpisode. rewrite !obj_get_in_keys. unfold hourAt at 1, hoursOfEpisode at 1.
  destruct (episodeId r) as [e|].
  - rewrite (recordEpisode_get id _ _ _ _ E1).
    destruct (String.eqb_spec e id) as [->|Hne]; cbn [option_map ep_firstHour ep_hourlyDownloads].
    + repeat split; [now left|]. intros _. eexists. reflexivity.
    + repeat split; [now right|]. intros [H|H]; [discriminate|exact H].
  - rewrite E1. repeat split; [now right|]. intros [H|H]; [discriminate|exact H].
Qed.

Lemma rows_episodes (id : string) (rows : list TsvRow) :
  forall acc acc',
    forOf processRow rows acc = OK acc' ->
    hourAt id (d_episodes acc') =
      lexMin (hourAt id (d_episodes acc))
             (map hourOf (filter (ofEpisode id) (nonBot rows)))
    /\ (forall h,
          count_of h (hoursOfEpisode id (d_episodes acc')) =
          (count_of h (hoursOfEpisode id (d_episodes acc))
           + countZ (fun r => ofEpisode id r && inHour h r) (nonBot rows))%Z)
    /\ total (hoursOfEpisode id (d_episodes acc')) =
       (total (hoursOfEpisode id (d_episodes acc))
        + countZ (ofEpisode id) (nonBot rows))%Z
    /\ (In id (keys (d_episodes acc')) <->
        In id (keys (d_episodes acc))
        \/ exists r, In r (nonBot rows) /\ ofEpisode id r = true).
Proof.
  induction rows as [|r rows IH]; cbn [forOf]; intros acc acc'.
  - intros [= <-]. change (nonBot []) with (@nil TsvRow).
    rewrite !countZ_nil. cbn [filter map]. unfold lexMin. cbn [fold_left].
    repeat split; try lia.
    + intros h. rewrite countZ_nil. lia.
    + now left.
    + intros [H|(r & [] & _)]. exact H.
  - destruct (processRow acc r) as [acc1|e] eqn:E; cbn [bind]; [|discriminate].
    intros H. destruct (IH _ _ H) as (Hh & Hc & Ht & Hk).
    rewrite Hh, Ht, Hk, nonBot_cons. setoid_rewrite Hc. clear Hh Hc Ht Hk.
    destruct (botType r) as [b|] eqn:Eb.
    + pose proof (processRow_episodes _ _ _ E) as E1. rewrite Eb in E1.
      rewrite E1. repeat split; tauto.
    + destruct (processRow_episode id _ _ _ E Eb) as (Eh & Ec & Ek).
      rewrite Eh, Ec, Ek. cbn [filter]. rewrite !countZ_cons.
      destruct (ofEpisode id r) eqn:Eo; cbn [map andb].
      * split; [reflexivity|]. split; [|split].
        -- intros h. rewrite countZ_cons, Eo, count_of_increment. cbn [andb].
           change (inHour h r) with (hourOf r =? h). lia.
        -- rewrite total_increment. lia.
        -- split.
           ++ intros [[_|H1]|(r' & Hin & Hr)].
              ** right. exists r. split; [now left|exact Eo].
              ** now left.
              ** right. exists r'. split; [now right|exact Hr].
           ++ intros [H1|(r' & [<-|Hin] & Hr)].
              ** now left; right.
              ** now left; left.
              ** right. now exists r'.
      * split; [reflexivity|]. split; [|split].
        -- intros h. rewrite countZ_cons, Eo. cbn [andb]. lia.
        -- lia.
        -- split.
           ++ intros [[H1|H1]|(r' & Hin & Hr)]; [discriminate|now left|].
              right. exists r'. split; [now right|exact Hr].
           ++ intros [H1|(r' & [<-|Hin] & Hr)]; [now left; right|congruence|].
              right. now exists r'.
Qed.

(** ** Rows: audience timestamps *)

Lemma nonempty_get (a v : string) (ats : Obj string) :
  Forall (fun kv => snd kv <> "") ats -> obj_get a ats = Some v -> v <> "".
Proof.
  intros Hall Hget. apply obj_get_some_in in Hget.
  exact (proj1 (Forall_forall _ _) Hall _ Hget).
Qed.

Lemma find_heard_cons (a : string) (r : TsvRow) (rows : list TsvRow) :
  find (heardBy a) (r :: rows) = if heardBy a r then Some r else find (heardBy a) rows.
Proof. reflexivity. Qed.

(** The listener a record brings, if it is one the loop can record. *)
Lemma processRow_audience_keys (acc acc' : DailyAcc) (r : TsvRow) :
  processRow acc r = OK acc' ->
  (NoDup (keys (d_audienceTimestamps acc)) -> NoDup (keys (d_audienceTimestamps acc')))
  /\ forall a,
       In a (keys (d_audienceTimestamps acc')) <->
       In a (keys (d_audienceTimestamps acc))
       \/ (botType r = None /\ audienceId r = Some a /\ a <> ""
           /\ inherited a = false).
Proof.
  intros E. apply processRow_inv in E.
  assert (Hsame : d_audienceTimestamps acc' = d_audienceTimestamps acc ->
            (forall a, botType r = None -> audienceId r = Some a -> a <> "" ->
                       inherited a = false -> In a (keys (d_audienceTimestamps acc))) ->
            (NoDup (keys (d_audienceTimestamps acc)) ->
             NoDup (keys (d_audienceTimestamps acc')))
            /\ forall a,
                 In a (keys (d_audienceTimestamps acc')) <->
                 In a (keys (d_audienceTimestamps acc))
                 \/ (botType r = None /\ audienceId r = Some a /\ a <> ""
                     /\ inherited a = false)).
  { intros -> Hin. split; [tauto|]. intros a. split; [now left|].
    intros [H|(Hb & Ha & Hne & Hp)]; [exact H|now apply Hin]. }
  destruct (botType r) as [b|] eqn:Eb; [subst acc'; apply Hsame; [reflexivity|discriminate]|].
  destruct E as (_ & _ & E & _).
  destruct (audienceId r) as [a0|] eqn:Ea; [|apply Hsame; [exact E|discriminate]].
  change (truthy (Some a0)) with (negb (a0 =? "")) in E.
  destruct (String.eqb_spec a0 "") as [->|Hne]; cbn [negb andb] in E.
  { apply Hsame; [exact E|]. intros a _ [= <-]. congruence. }
  unfold falsy_at, obj_member in E.
  destruct (obj_get a0 (d_audienceTimestamps acc)) as [v|] eqn:Eg.
  - assert (Hin : In a0 (keys (d_audienceTimestamps acc)))
      by (apply obj_get_in_keys; now exists v).
    destruct (v =? "").
    + rewrite E. split; [apply nodup_keys_set|]. intros a. rewrite in_keys_set. split.
      * intros [->|H]; now left.
      * intros [H|(_ & [= <-] & _)]; [now right|now left].
    + apply Hsame; [exact E|]. now intros a _ [= <-].
  - destruct (inherited a0) eqn:Ei.
    + apply Hsame; [exact E|]. intros a _ [= <-]. congruence.
    + rewrite E. split; [apply nodup_keys_set|]. intros a. rewrite in_keys_set. split.
      * intros [->|H]; [|now left]. right. now repeat split.
      * intros [H|(_ & [= <-] & _)]; [now right|now left].
Qed.

Lemma rows_audience_keys (rows : list TsvRow) :
  forall acc acc',
    forOf processRow rows acc = OK acc' ->
    (NoDup (keys (d_audienceTimestamps acc)) ->
     NoDup (keys (d_audienceTimestamps acc')))
    /\ forall a,
         In a (keys (d_audienceTimestamps acc')) <->
         In a (keys (d_audienceTimestamps acc))
         \/ (a <> "" /\ inherited a = false
             /\ exists r, In r (nonBot rows) /\ audienceId r = Some a).
Proof.
  induction rows as [|r rows IH]; cbn [forOf]; intros acc acc'.
  - intros [= <-]. split; [tauto|]. intros a. split; [now left|].
    intros [H|(_ & _ & r & [] & _)]. exact H.
  - destruct (processRow acc r) as [acc1|e] eqn:E; cbn [bind]; [|discriminate].
    intros H. destruct (IH _ _ H) as (Hnd & Hk).
    destruct (processRow_audience_keys _ _ _ E) as (Hnd1 & Hk1).
    split; [tauto|]. intros a. rewrite Hk, Hk1, nonBot_cons. split.
    + intros [[H1|(Hb & Ha & Hne & Hp)]|(Hne & Hp & r' & Hr & Hid)].
      * now left.
      * right. split; [exact Hne|]. split; [exact Hp|]. exists r.
        rewrite Hb. split; [now left|exact Ha].
      * right. split; [exact Hne|]. split; [exact Hp|]. exists r'.
        split; [|exact Hid]. destruct (botType r); [exact Hr|now right].
    + intros [H1|(Hne & Hp & r' & Hr & Hid)]; [now left; left|].
      destruct (botType r) as [b|] eqn:Eb.
      * right. split; [exact Hne|]. split; [exact Hp|]. now exists r'.
      * destruct Hr as [<-|Hr].
        -- left; right. now repeat split.
        -- right. split; [exact Hne|]. split; [exact Hp|]. now exists r'.
Qed.

(** The timestamp a record gives a listener the loop can record. *)
Lemma processRow_audience_get (acc acc' : DailyAcc) (r : TsvRow) :
  processRow acc r = OK acc' ->
  (botType r = None -> timestampOf r <> "") ->
  Forall (fun kv => snd kv <> "") (d_audienceTimestamps acc) ->
  Forall (fun kv => snd kv <> "") (d_audienceTimestamps acc')
  /\ forall a,
       a <> "" -> inherited a = false ->
       obj_get a (d_audienceTimestamps acc') =
       match obj_get a (d_audienceTimestamps acc) with
       | Some ts => Some ts
       | None =>
           match botType r with
           | None => if heardBy a r then Some (timestampOf r) else None
           | Some _ => None
           end
       end.
Proof.
  intros E Hts Hall. apply processRow_inv in E.
  assert (Hsame : d_audienceTimestamps acc' = d_audienceTimestamps acc ->
            (forall a, a <> "" -> inherited a = false -> botType r = None ->
                       heardBy a r = true ->
                       obj_get a (d_audienceTimestamps acc) <> None) ->
            Forall (fun kv => snd kv <> "") (d_audienceTimestamps acc')
            /\ forall a,
                 a <> "" -> inherited a = false ->
                 obj_get a (d_audienceTimestamps acc') =
                 match obj_get a (d_audienceTimestamps acc) with
                 | Some ts => Some ts
                 | None =>
                     match botType r with
                     | None => if heardBy a r then Some (timestampOf r) else None
                     | Some _ => None
                     end
                 end).
  { intros -> Hin. split; [exact Hall|]. intros a Ha Hp.
    destruct (obj_get a (d_audienceTimestamps acc)) as [ts|] eqn:Eg; [reflexivity|].
    destruct (botType r) eqn:Eb; [reflexivity|].
    destruct (heardBy a r) eqn:Eh; [|reflexivity].
    now destruct (Hin a Ha Hp eq_refl Eh). }
  destruct (botType r) as [b|] eqn:Eb;
    [subst acc'; apply Hsame; [reflexivity|discriminate]|].
  destruct E as (_ & _ & E & _). unfold heardBy in *.
  destruct (audienceId r) as [a0|] eqn:Ea; [|apply Hsame; [exact E|discriminate]].
  change (truthy (Some a0)) with (negb (a0 =? "")) in E.
  destruct (String.eqb_spec a0 "") as [->|Hne]; cbn [negb andb] in E.
  { apply Hsame; [exact E|]. intros a Ha _ _ Heq. apply String.eqb_eq in Heq. congruence. }
  unfold falsy_at, obj_member in E.
  destruct (obj_get a0 (d_audienceTimestamps acc)) as [v|] eqn:Eg.
  - pose proof (nonempty_get _ _ _ Hall Eg) as Hv.
    destruct (String.eqb_spec v ""); [contradiction|].
    apply Hsame; [exact E|]. intros a _ _ _ Heq. apply String.eqb_eq in Heq.
    subst a0. now rewrite Eg.
  - destruct (inherited a0) eqn:Ei.
    + apply Hsame; [exact E|]. intros a _ Hp _ Heq. apply String.eqb_eq in Heq.
      congruence.
    + rewrite E. split.
      * apply Forall_forall. intros kv Hin. apply in_obj_set in Hin.
        destruct Hin as [->|Hin]; [|exact (proj1 (Forall_forall _ _) Hall _ Hin)].
        cbn [snd]. now apply Hts.
      * intros a Ha Hp. rewrite obj_get_set.
        destruct (String.eqb_spec a0 a) as [->|Hneq]; [now rewrite Eg|].
        now destruct (obj_get a (d_audienceTimestamps acc)).
Qed.

Lemma rows_audience_first (rows : list TsvRow) :
  forall acc acc',
    forOf processRow rows acc = OK acc' ->
    (forall r, In r (nonBot rows) -> timestampOf r <> "") ->
    Forall (fun kv => snd kv <> "") (d_audienceTimestamps acc) ->
    forall a,
      a <> "" -> inherited a = false ->
      obj_get a (d_audienceTimestamps acc') =
      match obj_get a (d_audienceTimestamps acc) with
      | Some ts => Some ts
      | None => option_map timestampOf (find (heardBy a) (nonBot rows))
      end.
Proof.
  induction rows as [|r rows IH]; cbn [forOf]; intros acc acc'.
  - intros [= <-] _ _ a _ _. now destruct (obj_get a _).
  - destruct (processRow acc r) as [acc1|e] eqn:E; cbn [bind]; [|discriminate].
    intros H Hts Hall a Ha Hp. rewrite nonBot_cons in Hts |- *.
    destruct (processRow_audience_get _ _ _ E) as [Hall1 Hget]; [|exact Hall|].
    { intros Hb. apply Hts. rewrite Hb. now left. }
    rewrite (IH _ _ H); [|intros r0 Hr0; apply Hts; destruct (botType r);
                           [exact Hr0|now right]|exact Hall1|exact Ha|exact Hp].
    rewrite (Hget a Ha Hp).
    destruct (obj_get a (d_audienceTimestamps acc)) as [ts|]; [reflexivity|].
    destruct (botType r); [reflexivity|]. rewrite find_heard_cons.
    now destruct (heardBy a r).
Qed.

(** ** Rows: failure *)

(** The episodes of the loop never hold a name of [Object.prototype]:
    the record with such an episode id is where the loop stops. *)
Lemma processRow_outcome (acc : DailyAcc) (r : TsvRow) :
  (forall id, In id (keys (d_episodes acc)) -> inherited id = false) ->
  if stops r then processRow acc r = Throw (errorAt r)
  else exists acc',
      processRow acc r = OK acc'
      /\ forall id, In id (keys (d_episodes acc')) -> inherited id = false.
Proof.
  intros Hplain. unfold stops, errorAt, namesMember, hasTime, processRow.
  destruct (time r) as [t|]; [|reflexivity]. cbn [negb orb].
  destruct (botType r) as [b|]; [eexists; split; [reflexivity|exact Hplain]|].
  destruct (episodeId r) as [e|]; [|eexists; split; [reflexivity|exact Hplain]].
  unfold recordEpisode, obj_member.
  destruct (inherited e) eqn:Ei.
  - destruct (obj_get e (d_episodes acc)) as [rec|] eqn:Eg; [|reflexivity].
    assert (Hin : In e (keys (d_episodes acc))) by (apply obj_get_in_keys; now exists rec).
    apply Hplain in Hin. congruence.
  - destruct (obj_get e (d_episodes acc)) as [rec|]; cbn [bind];
      (eexists; split; [reflexivity|]); cbn [d_episodes]; intros id Hin;
      apply in_keys_set in Hin; (destruct Hin as [->|Hin]; [exact Ei|now apply Hplain]).
Qed.

Lemma rows_outcome (rows : list TsvRow) :
  forall acc,
    (forall id, In id (keys (d_episodes acc)) -> inherited id = false) ->
    match find stops rows with
    | None => exists acc', forOf processRow rows acc = OK acc'
    | Some r => forOf processRow rows acc = Throw (errorAt r)
    end.
Proof.
  induction rows as [|r rows IH]; intros acc Hplain; cbn [find forOf].
  - now exists acc.
  - pose proof (processRow_outcome acc r Hplain) as Hr.
    destruct (stops r).
    + now rewrite Hr.
    + destruct Hr as (acc1 & -> & Hplain1). cbn [bind]. now apply IH.
Qed.

Section Daily.
Variable computeShowDailyKey : string -> string -> string.

(** X2.  In the daily summary, the episodes are those of the records
    whose [botType] is unset; the hourly counts of an episode are the
    numbers of its records, hour by hour and in total; and its first hour
    is the hour of one of its records, none of which has an earlier one. *)
Theorem daily_episode_counts_and_first_hour (statsBlobs : Reader)
    (showUuid date : string) (rows : list TsvRow) (etag : string)
    (summary : JsValue) (audience : Obj string) :
  get_tsv statsBlobs (computeShowDailyKey showUuid date) = Some (rows, etag) ->
  computeShowSummaryForDate computeShowDailyKey statsBlobs showUuid date
    = OK (summary, audience) ->
  exists s,
    asShowSummary summary = Some s
    /\ forall id,
         (In id (keys (episodes s)) <->
          exists r, In r (nonBot rows) /\ ofEpisode id r = true)
         /\ total (hoursOfEpisode id (episodes s)) = countZ (ofEpisode id) (nonBot rows)
         /\ (forall h,
               count_of h (hoursOfEpisode id (episodes s)) =
               countZ (fun r => ofEpisode id r && inHour h r) (nonBot rows))
         /\ (forall first,
               hourAt id (episodes s) = Some first ->
               (exists r, In r (nonBot rows) /\ ofEpisode id r = true
                          /\ hourOf r = first)
               /\ forall r, In r (nonBot rows) -> ofEpisode id r = true ->
                            str_lt (hourOf r) first = false).
Proof.
  unfold computeShowSummaryForDate. intros -> H.
  destruct (forOf processRow rows emptyDaily) as [acc|e] eqn:E; cbn [bind] in H;
    [|discriminate].
  injection H as <- <-.
  eexists. split; [apply asShowSummary_sorted|]. cbn [episodes].
  intros id. destruct (rows_episodes id _ _ _ E) as (Hh & Hc & Ht & Hk).
  split; [|split; [|split]].
  - rewrite Hk. split; [intros [[]|H]; exact H|now right].
  - rewrite Ht. reflexivity.
  - intros h. rewrite Hc. reflexivity.
  - intros first Hf. rewrite Hh in Hf. cbn [emptyDaily d_episodes hourAt obj_get option_map] in Hf.
    destruct (lexMin_least _ _ _ Hf) as [Hin Hle]. split.
    + destruct Hin as [Hin|Hin]; [discriminate|].
      apply in_map_iff in Hin. destruct Hin as (r & Hr & Hin).
      apply filter_In in Hin. exists r. tauto.
    + intros r Hr Ho. apply Hle. right. apply in_map. apply filter_In. now split.
Qed.

(** X3.  Every record whose [botType] is unset adds one to each of the
    dimensions [countryCode], [deviceType] and [deviceName]: the total of
    each is the total of [hourlyDownloads], the number of such records. *)
Theorem every_download_counts_once_per_fixed_dimension (statsBlobs : Reader)
    (showUuid date : string) (rows : list TsvRow) (etag : string)
    (summary : JsValue) (audience : Obj string) :
  get_tsv statsBlobs (computeShowDailyKey showUuid date) = Some (rows, etag) ->
  computeShowSummaryForDate computeShowDailyKey statsBlobs showUuid date
    = OK (summary, audience) ->
  exists s,
    asShowSummary summary = Some s
    /\ forall d,
         d = "countryCode" \/ d = "deviceType" \/ d = "deviceName" ->
         dimensionTotal d (dimensionsOf s) = total (hourlyDownloads s)
         /\ dimensionTotal d (dimensionsOf s) = Z.of_nat (List.length (nonBot rows)).
Proof.
  unfold computeShowSummaryForDate. intros -> H.
  destruct (forOf processRow rows emptyDaily) as [acc|e] eqn:E; cbn [bind] in H;
    [|discriminate].
  injection H as <- <-.
  eexists. split; [apply asShowSummary_sorted|].
  cbn [dimensionsOf dimensionDownloads hourlyDownloads].
  intros d Hd.
  rewrite (rows_dimensions d (fun _ => true)
             (fun dims r => recordDimensions_always d dims r Hd) _ _ _ E).
  rewrite (rows_total _ _ _ E).
  assert (Hc : countZ (fun _ : TsvRow => true) (nonBot rows)
               = Z.of_nat (List.length (nonBot rows))).
  { unfold countZ. f_equal. f_equal. induction (nonBot rows) as [|r l IH];
      cbn [filter]; [reflexivity|now rewrite IH]. }
  rewrite Hc. split; reflexivity.
Qed.

(** X4.  The dimensions [appName], [browserName] and [libraryName] count
    the records whose [botType] is unset by agent type: the total of each
    is the number of such records whose agent type is [app], [browser] or
    [library]; a record of another agent type, or of none, is in none. *)
Theorem agent_dimensions_count_by_agent_type (statsBlobs : Reader)
    (showUuid date : string) (rows : list TsvRow) (etag : string)
    (summary : JsValue) (audience : Obj string) :
  get_tsv statsBlobs (computeShowDailyKey showUuid date) = Some (rows, etag) ->
  computeShowSummaryForDate computeShowDailyKey statsBlobs showUuid date
    = OK (summary, audience) ->
  exists s,
    asShowSummary summary = Some s
    /\ forall d kind,
         (d, kind) = ("appName", "app") \/ (d, kind) = ("browserName", "browser")
         \/ (d, kind) = ("libraryName", "library") ->
         dimensionTotal d (dimensionsOf s) =
         countZ (fun r => agentTypeOf r =? kind) (nonBot rows).
Proof.
  unfold computeShowSummaryForDate. intros -> H.
  destruct (forOf processRow rows emptyDaily) as [acc|e] eqn:E; cbn [bind] in H;
    [|discriminate].
  injection H as <- <-.
  eexists. split; [apply asShowSummary_sorted|].
  cbn [dimensionsOf dimensionDownloads]. intros d kind Hd.
  rewrite (rows_dimensions d (fun r => agentTypeOf r =? kind)
             (fun dims r => recordDimensions_agent d kind dims r Hd) _ _ _ E).
  reflexivity.
Qed.

(** X5.  The audience timestamps of a day have one entry for every
    non-empty audience id of a record whose [botType] is unset, those
    that name a member of [Object.prototype] apart, and no other; when
    none of the timestamps is empty, the entry of a listener holds the
    timestamp of the first of those records. *)
Theorem daily_audience_is_first_seen_per_listener (statsBlobs : Reader)
    (showUuid date : string) (rows : list TsvRow) (etag : string)
    (summary : JsValue) (audience : Obj string) :
  get_tsv statsBlobs (computeShowDailyKey showUuid date) = Some (rows, etag) ->
  computeShowSummaryForDate computeShowDailyKey statsBlobs showUuid date
    = OK (summary, audience) ->
  NoDup (keys audience)
  /\ (forall a,
        In a (keys audience) <->
        a <> "" /\ inherited a = false
        /\ exists r, In r (nonBot rows) /\ audienceId r = Some a)
  /\ ((forall r, In r (nonBot rows) -> timestampOf r <> "") ->
      forall a, a <> "" -> inherited a = false ->
        obj_get a audience = option_map timestampOf (find (heardBy a) (nonBot rows))).
Proof.
  unfold computeShowSummaryForDate. intros -> H.
  destruct (forOf processRow rows emptyDaily) as [acc|e] eqn:E; cbn [bind] in H;
    [|discriminate].
  injection H as <- <-.
  destruct (rows_audience_keys _ _ _ E) as [Hnd Hk]. split; [|split].
  - apply Hnd. constructor.
  - intros a. rewrite Hk. split; [intros [[]|H]; exact H|now right].
  - intros Hts a Ha Hp.
    now rewrite (rows_audience_first _ _ _ E Hts (Forall_nil _) a Ha Hp).
Qed.

(** X6.  [computeShowSummaryForDate] fails when the show-daily blob is
    missing, and at the first record of the blob that lacks [time] or
    that, [botType] unset, has an episode id naming a member of
    [Object.prototype]: with [Undefined time] in the first case and with
    the runtime's fault on [undefined] in the second.  It returns in every
    other case. *)
Theorem daily_computation_fails_at_the_first_bad_record (statsBlobs : Reader)
    (showUuid date : string) :
  match get_tsv statsBlobs (computeShowDailyKey showUuid date) with
  | None =>
      computeShowSummaryForDate computeShowDailyKey statsBlobs showUuid date
      = Throw (MissingInput (computeShowDailyKey showUuid date))
  | Some (rows, etag) =>
      match find stops rows with
      | None =>
          exists r,
            computeShowSummaryForDate computeShowDailyKey statsBlobs showUuid date = OK r
      | Some bad =>
          computeShowSummaryForDate computeShowDailyKey statsBlobs showUuid date
          = Throw (errorAt bad)
      end
  end.
Proof.
  unfold computeShowSummaryForDate.
  destruct (get_tsv statsBlobs (computeShowDailyKey showUuid date)) as [[rows etag]|];
    [|reflexivity].
  pose proof (rows_outcome rows emptyDaily) as H.
  destruct (find stops rows).
  - rewrite H; [reflexivity|]. intros id [].
  - destruct H as [acc ->]; [intros id []|]. cbn [bind]. eexists. reflexivity.
Qed.

End Daily.

End DailyCounts.

(* ================================================================== *)
(** * The monthly aggregator: hours and episodes                      *)
(* ================================================================== *)

Module AggregateCounts.
Import Js Summaries Blobs ShowSummaries JsFacts SummariesFacts.
Import DailySpec AggregateSpec OverallSpec.
Import DailyProps AggregateProps OverallProps DailyCounts.

#[local] Arguments total : simpl never.

Lemma sumZ_cons (x : Z) (l : list Z) : sumZ (x :: l) = (x + sumZ l)%Z.
Proof. reflexivity. Qed.

(** ** One episode of one summary *)

Lemma shadowedIn_stable (P : Prop) (id : string) (eps eps' : Obj EpisodeSummary) :
  (In id (keys eps') <-> (P /\ shadowedIn eps id = false) \/ In id (keys eps)) ->
  shadowedIn eps' id = shadowedIn eps id.
Proof.
  intros Hk. unfold shadowedIn in *. destruct (inherited id); [|reflexivity].
  cbn [andb] in *.
  destruct (obj_get id eps) as [e|] eqn:E.
  - assert (Hin : In id (keys eps')).
    { apply Hk. right. apply obj_get_in_keys. now exists e. }
    apply obj_get_in_keys in Hin. destruct Hin as (e' & ->). reflexivity.
  - destruct (obj_get id eps') as [e'|] eqn:E'; [|reflexivity].
    assert (Hin : In id (keys eps')) by (apply obj_get_in_keys; now exists e').
    apply Hk in Hin. destruct Hin as [[_ H]|H]; [discriminate|].
    apply obj_get_in_keys in H. destruct H as (e0 & H). congruence.
Qed.

Lemma mergeEpisode_get (id : string) (eps eps' : Obj EpisodeSummary)
    (entry : string * EpisodeSummary) :
  mergeEpisode eps entry = OK eps' ->
  obj_get id eps' =
  if (fst entry =? id) && negb (shadowedIn eps id)
  then Some {| ep_hourlyDownloads :=
                 incrementAll (hoursOfEpisode (fst entry) eps)
                              (ep_hourlyDownloads (snd entry));
               ep_firstHour :=
                 lesser (hourAt (fst entry) eps) (ep_firstHour (snd entry)) |}
  else obj_get id eps.
Proof.
  unfold mergeEpisode, obj_member, shadowedIn, hoursOfEpisode, hourAt.
  destruct (String.eqb_spec (fst entry) id) as [<-|Hne]; cbn [andb].
  - destruct (obj_get (fst entry) eps) as [r|] eqn:Eg.
    + rewrite andb_false_r. cbn [negb]. intros [= <-]. rewrite obj_get_set_eq.
      cbn [option_map lesser]. now destruct (str_lt (ep_firstHour (snd entry)) (ep_firstHour r)).
    + rewrite andb_true_r. destruct (inherited (fst entry)); cbn [negb].
      * destruct (ep_hourlyDownloads (snd entry)); [|discriminate]. now intros [= <-].
      * intros [= <-]. rewrite obj_get_set_eq. cbn [option_map lesser].
        now rewrite str_lt_irrefl.
  - destruct (obj_get (fst entry) eps) as [r|];
      [|destruct (inherited (fst entry));
        [destruct (ep_hourlyDownloads (snd entry)); [|discriminate]|]];
      intros [= <-]; try reflexivity; now rewrite obj_get_set_neq.
Qed.

Lemma mergeEpisode_keys (id : string) (eps eps' : Obj EpisodeSummary)
    (entry : string * EpisodeSummary) :
  mergeEpisode eps entry = OK eps' ->
  In id (keys eps') <->
  (id = fst entry /\ shadowedIn eps id = false) \/ In id (keys eps).
Proof.
  intros E. pose proof (mergeEpisode_get id _ _ _ E) as Hg.
  rewrite !obj_get_in_keys, Hg.
  destruct (String.eqb_spec (fst entry) id) as [<-|Hne]; cbn [andb].
  - destruct (shadowedIn eps (fst entry)) eqn:Es; cbn [negb].
    + split; [now right|]. intros [[_ H]|H]; [discriminate|exact H].
    + split; [now left|]. intros _. eexists. reflexivity.
  - split; [now right|]. intros [[H _]|H]; [now symmetry in H|exact H].
Qed.

(** Where the loop goes on past an episode it cannot add, the episode
    brings no count. *)
Lemma mergeEpisode_shadowed (eps eps' : Obj EpisodeSummary)
    (entry : string * EpisodeSummary) :
  mergeEpisode eps entry = OK eps' ->
  shadowedIn eps (fst entry) = true ->
  ep_hourlyDownloads (snd entry) = [].
Proof.
  unfold mergeEpisode. intros E Hs. apply shadowedIn_member in Hs. rewrite Hs in E.
  now destruct (ep_hourlyDownloads (snd entry)).
Qed.

(** The counts one list of episodes holds for an episode and an hour. *)
Lemma fold_mergeEpisode (id : string) (src : Obj EpisodeSummary) :
  forall eps eps',
    forOf mergeEpisode src eps = OK eps' ->
    hourAt id eps' =
      (if shadowedIn eps id then None else lexMin (hourAt id eps) (hoursIn id src))
    /\ (In id (keys eps') <->
        In id (keys eps) \/ (shadowedIn eps id = false /\ In id (keys src)))
    /\ shadowedIn eps' id = shadowedIn eps id
    /\ (NoDup (keys src) ->
        (forall k e, In (k, e) src -> NoDup (keys (ep_hourlyDownloads e))) ->
        forall h,
          count_of h (hoursOfEpisode id eps') =
          (count_of h (hoursOfEpisode id eps) + count_of h (hoursOfEpisode id src))%Z).
Proof.
  induction src as [|entry src IH]; intros eps eps'; cbn [forOf].
  - intros [= <-]. unfold hoursIn, lexMin. cbn [filter map fold_left keys In].
    split; [|split; [tauto|split; [reflexivity|]]].
    + destruct (shadowedIn eps id) eqn:Es; [|reflexivity]. now apply shadowedIn_hour.
    + intros _ _ h. change (count_of h (hoursOfEpisode id [])) with 0%Z. lia.
  - destruct (mergeEpisode eps entry) as [eps1|e] eqn:E; cbn [bind]; [|discriminate].
    intros H. destruct (IH _ _ H) as (Hh & Hk & Hs & Hc).
    pose proof (mergeEpisode_get id _ _ _ E) as Hg.
    pose proof (mergeEpisode_keys id _ _ _ E) as Hk1.
    pose proof (shadowedIn_stable _ _ _ _ Hk1) as Hs1.
    rewrite Hs1 in Hh, Hk, Hs. split; [|split; [|split]].
    + rewrite Hh. destruct (shadowedIn eps id) eqn:Es; [reflexivity|].
      unfold hoursIn, lexMin, hourAt at 1. cbn [filter]. rewrite Hg.
      destruct (fst entry =? id) eqn:Ee; cbn [andb negb map fold_left option_map ep_firstHour].
      * apply String.eqb_eq in Ee. now rewrite Ee.
      * reflexivity.
    + rewrite Hk, Hk1. cbn [keys map In]. fold (keys src).
      split; intros H0; decompose [or and] H0; subst; auto.
    + exact Hs.
    + intros Hnd Hvals h. inversion Hnd as [|? ? Hnotin Hnd']; subst.
      rewrite Hc; [|exact Hnd'|intros k e H0; apply (Hvals k e); now right].
      destruct entry as [k e]. cbn [fst snd] in *.
      assert (Hsrc : hoursOfEpisode id ((k, e) :: src) =
                     if k =? id then ep_hourlyDownloads e else hoursOfEpisode id src).
      { unfold hoursOfEpisode. cbn [obj_get]. now destruct (k =? id). }
      rewrite Hsrc. unfold hoursOfEpisode at 1. rewrite Hg.
      destruct (String.eqb_spec k id) as [->|Hne]; cbn [andb]; [|fold (hoursOfEpisode id eps); lia].
      apply obj_get_none_iff in Hnotin.
      replace (hoursOfEpisode id src) with (@nil (string * Z))
        by (unfold hoursOfEpisode; now rewrite Hnotin).
      change (count_of h []) with 0%Z.
      destruct (shadowedIn eps id) eqn:Es; cbn [negb].
      * pose proof (mergeEpisode_shadowed _ _ _ E Es) as He. cbn [snd] in He.
        rewrite He. fold (hoursOfEpisode id eps). change (count_of h []) with 0%Z. lia.
      * cbn [ep_hourlyDownloads]. rewrite count_of_incrementAll.
        rewrite sum_key_nodup; [lia|apply (Hvals id e); now left].
Qed.

Section Aggregate.
Variable statsBlobs : Reader.

Local Abbreviation readSummaries := (AggregateSpec.readSummaries statsBlobs).
Local Abbreviation results := (AggregateSpec.results statsBlobs).

Lemma fold_hour (h : string) (reads : list (string * string * ShowSummary)) :
  (forall r, In r reads -> distinctKeys (snd r)) ->
  forall acc acc',
    forOf addRead reads acc = OK acc' ->
    count_of h (m_hourlyDownloads acc') =
    (count_of h (m_hourlyDownloads acc)
     + sumZ (map (fun r => count_of h (hourlyDownloads (snd r))) reads))%Z.
Proof.
  induction reads as [|r reads IH]; cbn [forOf map]; intros Hall acc acc'.
  - intros [= <-]. simpl. lia.
  - unfold AggregateSpec.addRead at 1.
    destruct (addSummary acc _ _ (snd r)) as [acc1|e] eqn:E; cbn [bind]; [|discriminate].
    intros H. rewrite (IH (fun r' Hr' => Hall r' (or_intror Hr')) _ _ H).
    destruct (addSummary_fields _ _ _ _ _ E) as (-> & _).
    rewrite count_of_incrementAll, sum_key_nodup, sumZ_cons; [lia|].
    now destruct (Hall r (or_introl eq_refl)) as (H0 & _).
Qed.

Lemma fold_episodes (id : string) (reads : list (string * string * ShowSummary)) :
  (forall r, In r reads -> distinctKeys (snd r)) ->
  forall acc acc',
    forOf addRead reads acc = OK acc' ->
    hourAt id (m_episodes acc') =
      (if shadowedIn (m_episodes acc) id then None
       else lexMin (hourAt id (m_episodes acc))
                   (flat_map (fun r => hoursIn id (episodes (snd r))) reads))
    /\ (In id (keys (m_episodes acc')) <->
        In id (keys (m_episodes acc))
        \/ (shadowedIn (m_episodes acc) id = false
            /\ exists r, In r reads /\ In id (keys (episodes (snd r)))))
    /\ forall h,
         count_of h (hoursOfEpisode id (m_episodes acc')) =
         (count_of h (hoursOfEpisode id (m_episodes acc))
          + sumZ (map (fun r => count_of h (hoursOfEpisode id (episodes (snd r)))) reads))%Z.
Proof.
  induction reads as [|r reads IH]; cbn [forOf map flat_map]; intros Hall acc acc'.
  - intros [= <-]. unfold lexMin. cbn [fold_left]. split; [|split].
    + destruct (shadowedIn (m_episodes acc) id) eqn:Es; [|reflexivity].
      now apply shadowedIn_hour.
    + split; [now left|]. intros [H|(_ & r & [] & _)]. exact H.
    + intros h. simpl. lia.
  - unfold AggregateSpec.addRead at 1.
    destruct (addSummary acc _ _ (snd r)) as [acc1|e] eqn:E; cbn [bind]; [|discriminate].
    intros H.
    destruct (IH (fun r' Hr' => Hall r' (or_intror Hr')) _ _ H) as (Hh & Hk & Hc).
    destruct (Hall r (or_introl eq_refl)) as (_ & Hnd & _ & _ & Hvals).
    destruct (addSummary_fields _ _ _ _ _ E) as (_ & _ & _ & Hm).
    destruct (fold_mergeEpisode id _ _ _ Hm) as (Eh & Ek & Es & Ec).
    rewrite Es in Hh, Hk. split; [|split].
    + rewrite Hh. destruct (shadowedIn (m_episodes acc) id); [reflexivity|].
      now rewrite Eh, lexMin_app.
    + rewrite Hk, Ek. split.
      * intros [[H0|[Hs H0]]|(Hs & r' & Hin & H0)].
        -- now left.
        -- right. split; [exact Hs|]. exists r. split; [now left|exact H0].
        -- right. split; [exact Hs|]. exists r'. split; [now right|exact H0].
      * intros [H0|(Hs & r' & [<-|Hin] & H0)].
        -- now left; left.
        -- now left; right.
        -- right. split; [exact Hs|]. now exists r'.
    + intros h. rewrite Hc, (Ec Hnd Hvals), sumZ_cons. lia.
Qed.

Lemma hoursIn_get (id : string) (eps : Obj EpisodeSummary) (h : string) :
  NoDup (keys eps) ->
  In h (hoursIn id eps) <-> exists e, obj_get id eps = Some e /\ ep_firstHour e = h.
Proof.
  intros Hnd. unfold hoursIn. rewrite in_map_iff. split.
  - intros ([k e] & <- & Hin). apply filter_In in Hin. destruct Hin as [Hin Hk].
    cbn [fst snd] in *. apply String.eqb_eq in Hk. subst k.
    exists e. split; [now apply in_nodup_obj_get|reflexivity].
  - intros (e & Hget & <-). exists (id, e). split; [reflexivity|].
    apply filter_In. split; [now apply obj_get_some_in|]. apply String.eqb_refl.
Qed.

(** X7.  In the summary [computeShowSummaryAggregate] returns, the count
    of every hour is the sum of the counts of that hour in the daily
    summaries read. *)
Theorem month_hours_are_sums_of_daily_hours (showUuid : string)
    (inputKeys : list string) (outputPeriod : string) (summary : JsValue) :
  computeShowSummaryAggregate statsBlobs showUuid inputKeys outputPeriod = OK summary ->
  exists s,
    asShowSummary summary = Some s
    /\ forall h,
         count_of h (hourlyDownloads s) =
         sumZ (map (fun r => count_of h (hourlyDownloads (snd r)))
                   (readSummaries inputKeys)).
Proof.
  unfold computeShowSummaryAggregate. fold (results inputKeys).
  destruct (forOf aggregateResult (results inputKeys) emptyMonth) as [acc|e] eqn:E;
    cbn [bind]; [|discriminate].
  intros [= <-]. destruct (results_fold _ _ _ _ E) as [Hfold _].
  eexists. split; [apply asShowSummary_sorted|]. cbn [hourlyDownloads].
  assert (Hall : forall r, In r (readSummaries inputKeys) -> distinctKeys (snd r)).
  { intros r Hr. now apply (readSummaries_sound statsBlobs inputKeys). }
  intros h. rewrite (fold_hour h _ Hall _ _ Hfold). reflexivity.
Qed.

(** X8.  When no daily summary read has a dimension named [__proto__]:
    in the month summary, the episodes are those of the daily summaries
    read whose id names no member of [Object.prototype]; the count of an
    episode in an hour is the sum of its counts in that hour over them;
    and its first hour is the first hour one of them gives it, none giving
    it an earlier one. *)
Theorem month_episodes_merge_the_days (showUuid : string)
    (inputKeys : list string) (outputPeriod : string) (summary : JsValue) :
  (forall r, In r (readSummaries inputKeys) ->
             ~ In "__proto__" (keys (dimensionsOf (snd r)))) ->
  computeShowSummaryAggregate statsBlobs showUuid inputKeys outputPeriod = OK summary ->
  exists s,
    asShowSummary summary = Some s
    /\ forall id,
         (In id (keys (episodes s)) <->
          inherited id = false
          /\ exists r, In r (readSummaries inputKeys) /\ In id (keys (episodes (snd r))))
         /\ (forall h,
               count_of h (hoursOfEpisode id (episodes s)) =
               sumZ (map (fun r => count_of h (hoursOfEpisode id (episodes (snd r))))
                         (readSummaries inputKeys)))
         /\ (forall first,
               hourAt id (episodes s) = Some first ->
               (exists r e, In r (readSummaries inputKeys)
                            /\ obj_get id (episodes (snd r)) = Some e
                            /\ ep_firstHour e = first)
               /\ forall r e, In r (readSummaries inputKeys) ->
                              obj_get id (episodes (snd r)) = Some e ->
                              str_lt (ep_firstHour e) first = false).
Proof.
  intros _. unfold computeShowSummaryAggregate. fold (results inputKeys).
  destruct (forOf aggregateResult (results inputKeys) emptyMonth) as [acc|e] eqn:E;
    cbn [bind]; [|discriminate].
  intros [= <-]. destruct (results_fold _ _ _ _ E) as [Hfold _].
  eexists. split; [apply asShowSummary_sorted|]. cbn [episodes].
  assert (Hall : forall r, In r (readSummaries inputKeys) -> distinctKeys (snd r)).
  { intros r Hr. now apply (readSummaries_sound statsBlobs inputKeys). }
  intros id. destruct (fold_episodes id _ Hall _ _ Hfold) as (Hh & Hk & Hc).
  assert (Hs : shadowedIn (m_episodes emptyMonth) id = inherited id).
  { unfold shadowedIn. cbn. apply andb_true_r. }
  rewrite Hs in Hh, Hk.
  split; [|split].
  - rewrite Hk. split; [intros [[]|H]; exact H|now right].
  - intros h. rewrite Hc. reflexivity.
  - intros first Hf. rewrite Hh in Hf. destruct (inherited id); [discriminate|].
    cbn [emptyMonth m_episodes hourAt obj_get option_map] in Hf.
    destruct (lexMin_least _ _ _ Hf) as [Hin Hle]. split.
    + destruct Hin as [Hin|Hin]; [discriminate|].
      apply in_flat_map in Hin. destruct Hin as (r & Hr & Hin).
      apply hoursIn_get in Hin; [|now destruct (Hall r Hr) as (_ & Hnd & _)].
      destruct Hin as (e & Hget & Hfh). now exists r, e.
    + intros r e Hr Hget. apply Hle. right. apply in_flat_map. exists r.
      split; [exact Hr|]. apply hoursIn_get; [now destruct (Hall r Hr) as (_ & Hnd & _)|].
      now exists e.
Qed.

End Aggregate.

End AggregateCounts.
(* ================================================================== *)
(** * The overall merge: when it writes, and what                     *)
(* ================================================================== *)

Module OverallWrites.
Import Js Summaries Blobs ShowSummaries JsFacts SummariesFacts.
Import DailySpec OverallSpec OverallProps.

Lemma overallStep_improves (st : Obj EpisodeSummary * bool)
    (entry : string * EpisodeSummary) :
  snd (overallStep st entry) = snd st || improves (fst st) entry.
Proof.
  unfold overallStep, improves.
  destruct (match obj_member (fst entry) (fst st) with
            | Own e => str_lt (ep_firstHour (snd entry)) (ep_firstHour e)
            | Inherited => false
            | NoMember => true
            end); cbn [snd]; [now rewrite orb_true_r|now rewrite orb_false_r].
Qed.

Lemma loop_flag_stays (eps : Obj EpisodeSummary) :
  forall st, snd st = true -> snd (fold_left overallStep eps st) = true.
Proof.
  induction eps as [|entry eps IH]; intros st H; cbn [fold_left]; [exact H|].
  apply IH. rewrite overallStep_improves, H. reflexivity.
Qed.

Lemma loop_flag (eps : Obj EpisodeSummary) (o : Obj EpisodeSummary) :
  snd (fold_left overallStep eps (o, false)) = existsb (improves o) eps.
Proof.
  induction eps as [|entry eps IH]; cbn [fold_left existsb]; [reflexivity|].
  destruct (improves o entry) eqn:E; cbn [orb].
  - apply loop_flag_stays. rewrite overallStep_improves. cbn [fst snd]. now rewrite E.
  - replace (overallStep (o, false) entry) with (o, false); [exact IH|].
    unfold overallStep. unfold improves in E. cbn [fst snd]. now rewrite E.
Qed.

Lemma overallStep_counts (id : string) (st : Obj EpisodeSummary * bool)
    (entry : string * EpisodeSummary) :
  hoursOfEpisode id (fst (overallStep st entry)) = hoursOfEpisode id (fst st).
Proof.
  unfold overallStep, obj_member, hoursOfEpisode.
  destruct (obj_get (fst entry) (fst st)) as [e|] eqn:E.
  - destruct (str_lt (ep_firstHour (snd entry)) (ep_firstHour e)); cbn [fst];
      [|reflexivity].
    rewrite obj_get_set. destruct (String.eqb_spec (fst entry) id) as [<-|]; [|reflexivity].
    now rewrite E.
  - destruct (inherited (fst entry)); cbn [fst]; [reflexivity|]. rewrite obj_get_set.
    destruct (String.eqb_spec (fst entry) id) as [<-|]; [|reflexivity].
    now rewrite E.
Qed.

Lemma loop_counts (id : string) (eps : Obj EpisodeSummary) :
  forall st,
    hoursOfEpisode id (fst (fold_left overallStep eps st)) = hoursOfEpisode id (fst st).
Proof.
  induction eps as [|entry eps IH]; intros st; cbn [fold_left]; [reflexivity|].
  now rewrite IH, overallStep_counts.
Qed.

Lemma tryComputeNewOverall_episodes (overall : option ShowSummary)
    (summary newOverall : ShowSummary) :
  tryComputeNewOverall overall summary = Some newOverall ->
  episodes newOverall =
  fst (fold_left overallStep (episodes summary)
         (episodesOf overall, match overall with None => true | Some _ => false end)).
Proof.
  unfold tryComputeNewOverall. destruct overall as [o|]; cbv zeta;
    cbn [episodesOf episodes];
    match goal with
    | |- context [if snd ?x then _ else _] => destruct (snd x)
    end; try discriminate; now intros [= <-].
Qed.

Lemma fresh_overall_is_saved (summary : ShowSummary) :
  tryComputeNewOverall None summary <> None.
Proof.
  unfold tryComputeNewOverall. cbv zeta. cbn [episodes].
  rewrite loop_flag_stays; [discriminate|reflexivity].
Qed.

Lemma improves_false (eps : Obj EpisodeSummary) (id : string) (e : EpisodeSummary) :
  improves eps (id, e) = false <->
  (exists e0, obj_get id eps = Some e0
              /\ str_lt (ep_firstHour e) (ep_firstHour e0) = false)
  \/ (obj_get id eps = None /\ inherited id = true).
Proof.
  unfold improves, obj_member. cbn [fst snd].
  destruct (obj_get id eps) as [e0|]; [|destruct (inherited id)]; split.
  - intros H. left. now exists e0.
  - intros [(e1 & [= <-] & H)|[H _]]; [exact H|discriminate].
  - intros _. now right.
  - reflexivity.
  - discriminate.
  - intros [(e1 & H & _)|[_ H]]; discriminate.
Qed.

Lemma unchanged_iff (overall summary : ShowSummary) :
  tryComputeNewOverall (Some overall) summary = None <->
  forall id e,
    In (id, e) (episodes summary) ->
    (exists e0, obj_get id (episodes overall) = Some e0
                /\ str_lt (ep_firstHour e) (ep_firstHour e0) = false)
    \/ (obj_get id (episodes overall) = None /\ inherited id = true).
Proof.
  unfold tryComputeNewOverall. cbv zeta. rewrite loop_flag.
  destruct (existsb (improves (episodes overall)) (episodes summary)) eqn:E.
  - split; [discriminate|]. intros H. exfalso.
    apply existsb_exists in E. destruct E as ([id e] & Hin & Himp).
    apply (H id e) in Hin. apply improves_false in Hin. congruence.
  - split; [|reflexivity]. intros _ id e Hin. apply improves_false.
    destruct (improves (episodes overall) (id, e)) eqn:Ei; [|reflexivity].
    rewrite <- E. symmetry. apply existsb_exists. now exists (id, e).
Qed.

Lemma newOverall_fields (overall : option ShowSummary)
    (summary newOverall : ShowSummary) :
  tryComputeNewOverall overall summary = Some newOverall ->
  match overall with
  | Some o =>
      showUuid newOverall = showUuid o /\ period newOverall = period o
      /\ hourlyDownloads newOverall = hourlyDownloads o
      /\ sources newOverall = sources o
      /\ dimensionDownloads newOverall = dimensionDownloads o
  | None =>
      showUuid newOverall = showUuid summary /\ period newOverall = "overall"
      /\ hourlyDownloads newOverall = [] /\ sources newOverall = []
      /\ dimensionDownloads newOverall = None
  end.
Proof.
  unfold tryComputeNewOverall. destruct overall as [o|]; cbv zeta;
    match goal with
    | |- context [if snd ?x then _ else _] => destruct (snd x)
    end; try discriminate; intros [= <-]; repeat split.
Qed.

(** X9.  [tryComputeNewOverall] returns a summary to save whenever there
    was no overall summary; with one, it returns [undefined] exactly when
    every episode of the month either is already in it with a first hour
    that is not later, or is not in it and has an id that names a member
    of [Object.prototype]. *)
Theorem overall_is_rewritten_only_when_it_changes (summary : ShowSummary) :
  tryComputeNewOverall None summary <> None
  /\ forall overall,
       tryComputeNewOverall (Some overall) summary = None <->
       forall id e,
         In (id, e) (episodes summary) ->
         (exists e0, obj_get id (episodes overall) = Some e0
                     /\ str_lt (ep_firstHour e) (ep_firstHour e0) = false)
         \/ (obj_get id (episodes overall) = None /\ inherited id = true).
Proof.
  split; [apply fresh_overall_is_saved|]. intros overall. apply unchanged_iff.
Qed.

(** X10.  Merging the same month again changes nothing: after a merge
    that returned a new overall summary, the merge of the same month into
    it returns [undefined], and nothing is saved. *)
Theorem merging_a_month_twice_saves_once (overall : option ShowSummary)
    (summary newOverall : ShowSummary) :
  tryComputeNewOverall overall summary = Some newOverall ->
  tryComputeNewOverall (Some newOverall) summary = None.
Proof.
  intros H. apply unchanged_iff. intros id e Hin.
  pose proof (tryComputeNewOverall_episodes _ _ _ H) as Heps.
  pose proof (loop_hour id (episodes summary)
                (episodesOf overall, match overall with None => true | Some _ => false end))
    as Hh.
  pose proof (loop_shadowed id (episodes summary)
                (episodesOf overall, match overall with None => true | Some _ => false end))
    as Hs.
  rewrite <- Heps in Hh, Hs. cbn [fst] in Hh, Hs.
  destruct (shadowedIn (episodesOf overall) id) eqn:Es.
  { right. unfold shadowedIn in Hs. apply andb_prop in Hs. destruct Hs as [Hi Hg].
    split; [|exact Hi]. now destruct (obj_get id (episodes newOverall)). }
  assert (Hmem : In (ep_firstHour e) (hoursIn id (episodes summary))).
  { unfold hoursIn. apply in_map_iff. exists (id, e). split; [reflexivity|].
    apply filter_In. split; [exact Hin|]. apply String.eqb_refl. }
  destruct (lexMin (hourAt id (episodesOf overall)) (hoursIn id (episodes summary)))
    as [m|] eqn:Em.
  - unfold hourAt in Hh at 1. destruct (obj_get id (episodes newOverall)) as [e0|];
      [|discriminate]. left. exists e0. split; [reflexivity|].
    injection Hh as ->. destruct (lexMin_least _ _ _ Em) as [_ Hle].
    apply Hle. now right.
  - apply lexMin_none in Em. destruct Em as [_ Em]. rewrite Em in Hmem. destruct Hmem.
Qed.

(** X11.  The merge touches first hours only: the show, the period and
    every count of the overall summary stay as they were, the counts of
    its episodes included; an overall summary made anew has the show of
    the month, the period [overall] and no count at all. *)
Theorem overall_merge_leaves_counts_alone (overall : option ShowSummary)
    (summary newOverall : ShowSummary) :
  tryComputeNewOverall overall summary = Some newOverall ->
  match overall with
  | Some o =>
      showUuid newOverall = showUuid o /\ period newOverall = period o
      /\ hourlyDownloads newOverall = hourlyDownloads o
      /\ sources newOverall = sources o
      /\ dimensionDownloads newOverall = dimensionDownloads o
  | None =>
      showUuid newOverall = showUuid summary /\ period newOverall = "overall"
      /\ hourlyDownloads newOverall = [] /\ sources newOverall = []
      /\ dimensionDownloads newOverall = None
  end
  /\ forall id,
       hoursOfEpisode id (episodes newOverall) = hoursOfEpisode id (episodesOf overall).
Proof.
  intros H. split; [now apply newOverall_fields|]. intros id.
  rewrite (tryComputeNewOverall_episodes _ _ _ H). now rewrite loop_counts.
Qed.

End OverallWrites.

(* ================================================================== *)
(** * The request parser: what it rejects                             *)
(* ================================================================== *)

Module ParserErrors.
Import Js ShowSummaries.

Section Parser.
Variable isValidUuid : string -> bool.
Variable isValidMonth : string -> bool.
Variable tryParseInt : option string -> option Z.

Local Abbreviation parse :=
  (tryParseRecomputeShowSummariesForMonthRequest isValidUuid isValidMonth tryParseInt).

(** X14.  The parser answers [undefined], without looking at the
    parameters, for any other path or operation, and when there are no
    parameters.  On its own route it rejects a missing or invalid show,
    then a missing or invalid month, and accepts everything else; the flags
    [log] and [sequential] are set when they are among the comma-separated
    [flags]. *)
Theorem parser_rejects_only_a_bad_show_or_month (operationKind targetPath : string)
    (parameters : option (Obj string)) :
  match parameters with
  | Some ps =>
      if (targetPath =? "/work/recompute-show-summaries") && (operationKind =? "update")
      then
        match obj_get "show" ps, obj_get "month" ps with
        | Some show, Some month =>
            if isValidUuid show
            then if isValidMonth month
                 then exists req,
                     parse operationKind targetPath parameters = OK (Some req)
                     /\ req_showUuid req = show /\ req_month req = month
                     /\ (req_log req = true <->
                         In "log" (split "," (orDefault "" (obj_get "flags" ps))))
                     /\ (req_sequential req = true <->
                         In "sequential" (split "," (orDefault "" (obj_get "flags" ps))))
                 else parse operationKind targetPath parameters
                      = Throw (InvalidInput "month")
            else parse operationKind targetPath parameters = Throw (InvalidInput "show")
        | Some show, None =>
            parse operationKind targetPath parameters =
            Throw (InvalidInput (if isValidUuid show then "month" else "show"))
        | None, _ => parse operationKind targetPath parameters = Throw (InvalidInput "show")
        end
      else parse operationKind targetPath parameters = OK None
  | None => parse operationKind targetPath parameters = OK None
  end.
Proof.
  destruct parameters as [ps|]; [|reflexivity].
  unfold tryParseRecomputeShowSummariesForMonthRequest.
  destruct ((targetPath =? "/work/recompute-show-summaries") && (operationKind =? "update"));
    [|reflexivity].
  unfold check.
  destruct (obj_get "show" ps) as [show|]; [|now destruct (obj_get "month" ps)].
  destruct (obj_get "month" ps) as [month|].
  - destruct (isValidUuid show); [|reflexivity].
    destruct (isValidMonth month); [|reflexivity]. cbn [bind].
    eexists. split; [reflexivity|]. cbn [req_showUuid req_month req_log req_sequential].
    split; [reflexivity|]. split; [reflexivity|].
    assert (Hmem : forall flag l, existsb (String.eqb flag) l = true <-> In flag l).
    { intros flag l. rewrite existsb_exists. split.
      - intros (x & Hx & Heq). apply String.eqb_eq in Heq. now subst.
      - intros H. exists flag. split; [exact H|apply String.eqb_refl]. }
    split; apply Hmem.
  - now destruct (isValidUuid show).
Qed.

End Parser.

End ParserErrors.

(* ================================================================== *)
(** * The coordinator: phases, days and writes                        *)
(* ================================================================== *)

Module CoordinatorProps.
Import Js Summaries Blobs ShowSummaries Audience Recompute.
Import JsFacts SummariesFacts AudienceSpec.
Import DailyProps KeyProps.

(** ** The documents written pass the validators *)

Lemma isValidShowSummary_sorted (u p : string) (h : Obj Z) (e : Obj EpisodeSummary)
    (d : Obj (Obj Z)) (s : Obj string) :
  isValidShowSummary (computeSorted (summaryLiteral u p h e d s)) = true.
Proof. reflexivity. Qed.

Lemma isValidShowSummary_overallJs (s : ShowSummary) :
  isValidShowSummary (overallJs s) = true.
Proof. unfold overallJs. now destruct (dimensionDownloads s). Qed.

Lemma saveShowSummary_sorted (u p : string) (h : Obj Z) (e : Obj EpisodeSummary)
    (d : Obj (Obj Z)) (s : Obj string) :
  saveShowSummary (computeSorted (summaryLiteral u p h e d s)) =
  (computeShowSummaryKey u p, JsonBody (computeSorted (summaryLiteral u p h e d s))).
Proof. reflexivity. Qed.

Lemma saveShowSummary_overallJs (s : ShowSummary) :
  saveShowSummary (overallJs s) =
  (computeShowSummaryKey (showUuid s) (period s), JsonBody (overallJs s)).
Proof. reflexivity. Qed.

Lemma prefix_extend (x : string) :
  forall p q, String.prefix x p = true -> String.prefix x (p ++ q) = true.
Proof.
  induction x as [|c x IH]; intros p q; [now destruct (p ++ q)%string|].
  destruct p as [|c' p]; cbn [String.prefix String.append]; [discriminate|].
  destruct (ascii_dec c c'); [apply IH|discriminate].
Qed.

(** ** The phases *)

Lemma isPhase_cases (v : string) :
  isPhase v = true ->
  v = "dailies" \/ v = "aggregates" \/ v = "audience" \/ v = "audience-1of4"
  \/ v = "audience-2of4" \/ v = "audience-3of4" \/ v = "audience-4of4".
Proof.
  unfold isPhase. rewrite !orb_true_iff, !String.eqb_eq. tauto.
Qed.

Lemma audiencePhase_of_phase (v : string) :
  isPhase v = true ->
  audiencePhase v = None
  \/ exists p, audiencePhase v = Some (p, 4%Z) /\ (1 <= p <= 4)%Z
               /\ v = ("audience-" ++ numberToString p ++ "of4")%string.
Proof.
  intros H. apply isPhase_cases in H.
  destruct H as [->|[->|[->|[->|[->|[->| ->]]]]]];
    try (left; reflexivity); right;
    [exists 1%Z|exists 2%Z|exists 3%Z|exists 4%Z]; (split; [reflexivity|split; [lia|reflexivity]]).
Qed.

Lemma audiencePart_cons (v : string) (phases : list string) :
  audiencePart (v :: phases) =
  match audiencePhase v with
  | Some part => Some part
  | None => audiencePart phases
  end.
Proof. unfold audiencePart. cbn [map find]. now destruct (audiencePhase v). Qed.

(** X16.  The phases the parser lets through split the audience by
    four or not at all, into a part from 1 to 4 that is named among them:
    the reducer never meets a number of parts it does not support. *)
Theorem parsed_phases_shard_by_four_only (tokens : list string) :
  match audiencePart (filter isPhase tokens) with
  | None => True
  | Some (partNum, numParts) =>
      numParts = 4%Z /\ (1 <= partNum <= 4)%Z
      /\ In ("audience-" ++ numberToString partNum ++ "of4")%string tokens
  end
  /\ forall line, exists b, inPart (audiencePart (filter isPhase tokens)) line = OK b.
Proof.
  assert (H : match audiencePart (filter isPhase tokens) with
              | None => True
              | Some (partNum, numParts) =>
                  numParts = 4%Z /\ (1 <= partNum <= 4)%Z
                  /\ In ("audience-" ++ numberToString partNum ++ "of4")%string tokens
              end).
  { induction tokens as [|v tokens IH]; cbn [filter]; [exact I|].
    destruct (isPhase v) eqn:Ev.
    - rewrite audiencePart_cons.
      destruct (audiencePhase_of_phase v Ev) as [->|(p & -> & Hp & Hv)].
      + destruct (audiencePart (filter isPhase tokens)) as [[p n]|]; [|exact I].
        destruct IH as (Hn & Hp & Hin). repeat split; try tauto. now right.
      + repeat split; try lia. left. now symmetry.
    - destruct (audiencePart (filter isPhase tokens)) as [[p n]|]; [|exact I].
      destruct IH as (Hn & Hp & Hin). repeat split; try tauto. now right. }
  split; [exact H|]. intros line.
  destruct (audiencePart (filter isPhase tokens)) as [[p n]|]; cbn [inPart].
  - destruct H as (-> & _). cbn. eexists. reflexivity.
  - now exists true.
Qed.

Section Parser.
Variable isValidUuid : string -> bool.
Variable isValidMonth : string -> bool.
Variable tryParseInt : option string -> option Z.

Local Abbreviation parse :=
  (tryParseRecomputeShowSummariesForMonthRequest isValidUuid isValidMonth tryParseInt).

(** X15.  A request without [phases], or with an empty one, runs the
    three default phases, the audience unsplit; a request whose [phases]
    names no recognized phase runs none. *)
Theorem unrecognized_phases_run_nothing (parameters : Obj string) (show month : string) :
  obj_get "show" parameters = Some show ->
  isValidUuid show = true ->
  obj_get "month" parameters = Some month ->
  isValidMonth month = true ->
  exists req,
    parse "update" "/work/recompute-show-summaries" (Some parameters) = OK (Some req)
    /\ match obj_get "phases" parameters with
       | None | Some "" =>
           phasesOf req = defaultPhases
           /\ runDailies (phasesOf req) = true /\ runAggregates (phasesOf req) = true
           /\ runAudience (phasesOf req) = true /\ audiencePart (phasesOf req) = None
       | Some phasesStr =>
           phasesOf req = filter isPhase (split "," phasesStr)
           /\ (filter isPhase (split "," phasesStr) = [] ->
               runDailies (phasesOf req) = false /\ runAggregates (phasesOf req) = false
               /\ runAudience (phasesOf req) = false)
       end.
Proof.
  intros Hshow Hu Hmonth Hm.
  unfold tryParseRecomputeShowSummariesForMonthRequest.
  cbn [String.eqb Ascii.eqb Bool.eqb andb].
  rewrite Hshow, Hmonth. unfold check. rewrite Hu, Hm. cbn [bind].
  eexists. split; [reflexivity|]. unfold phasesOf. cbn [req_phases].
  destruct (obj_get "phases" parameters) as [[|c rest]|]; cbn [truthy String.eqb negb].
  - repeat split.
  - split; [reflexivity|]. intros ->. repeat split.
  - repeat split.
Qed.

End Parser.

Section Days.
Variable unpackShowDailyKey : string -> Result string.
Variable unpackDate : string -> Result Z.
Variable computeShowDailyKey : string -> string -> string.
Variable statsBlobs : Reader.

(** X18.  What the dailies phase writes for a day is what the other
    phases read: the summary, which passes [isValidShowSummary], under the
    key the aggregates block computes for the day, and the audience
    timestamps under a key the audience reducer lists for the month. *)
Theorem dailies_write_where_the_month_reads (show month showDailyKey date : string)
    (puts : list (string * PutBody)) :
  unpackShowDailyKey showDailyKey = OK date ->
  String.prefix (month ++ "-") date = true ->
  recomputeShowSummary unpackShowDailyKey computeShowDailyKey statsBlobs show showDailyKey
    = OK puts ->
  exists summary audienceTimestamps,
    computeShowSummaryForDate computeShowDailyKey statsBlobs show date
      = OK (summary, audienceTimestamps)
    /\ puts = [ (computeShowSummaryKey show date, JsonBody summary);
                (computeAudienceKey show date None,
                 TextBody (audienceBytes audienceTimestamps)) ]
    /\ isValidShowSummary summary = true
    /\ inputKeys unpackShowDailyKey show [showDailyKey]
       = OK [computeShowSummaryKey show date]
    /\ String.prefix (computeAudienceKeyPrefix show month)
                     (computeAudienceKey show date None) = true.
Proof.
  intros Hdate Hpre. unfold recomputeShowSummary, inputKeys. cbn [forOf].
  rewrite Hdate. cbn [bind app].
  destruct (computeShowSummaryForDate computeShowDailyKey statsBlobs show date)
    as [[summary audienceTimestamps]|e] eqn:E; cbn [bind fst snd]; [|discriminate].
  intros [= <-]. exists summary, audienceTimestamps. split; [reflexivity|].
  unfold computeShowSummaryForDate in E.
  destruct (get_tsv statsBlobs (computeShowDailyKey show date)) as [[rows etag]|];
    [|discriminate].
  destruct (forOf processRow rows emptyDaily) as [acc|e]; cbn [bind] in E; [|discriminate].
  injection E as <- <-.
  split; [reflexivity|]. split; [reflexivity|]. split; [reflexivity|].
  rewrite prefix_of_audience_key. now apply prefix_extend.
Qed.

Lemma filterKeys_filter (test : string -> Result bool) (f : string -> bool)
    (keys : list string) :
  (forall v, In v keys -> test v = OK (f v)) ->
  filterKeys test keys = OK (filter f keys).
Proof.
  induction keys as [|v keys IH]; intros H; cbn [filterKeys filter]; [reflexivity|].
  rewrite (H v (or_introl eq_refl)), IH; [|intros v' Hv; apply H; now right].
  cbn [bind]. now destruct (f v).
Qed.

(** X17.  The days the dailies phase processes: none when [maxDays] is
    zero; all of them when [startDay] is not given, whatever [maxDays]
    is; otherwise the days from [startDay] on, [maxDays] of them at most. *)
Theorem days_processed_are_a_window (startDay maxDays : option Z)
    (showDailyKeys : list string) (dayOf : string -> Z) :
  (forall v, In v showDailyKeys ->
     (date <- unpackShowDailyKey v ;; unpackDate date) = OK (dayOf v)) ->
  showDailyKeysProcessed unpackShowDailyKey unpackDate startDay maxDays showDailyKeys =
  OK (filter
        (fun v =>
           match maxDays, startDay with
           | Some 0%Z, _ => false
           | _, None => true
           | Some m, Some s => (s <=? dayOf v)%Z && (dayOf v <=? s + m - 1)%Z
           | None, Some s => (s <=? dayOf v)%Z
           end)
        showDailyKeys).
Proof.
  intros Hday. unfold showDailyKeysProcessed. apply filterKeys_filter.
  intros v Hv. unfold keepDay. specialize (Hday v Hv).
  destruct maxDays as [m|], startDay as [s|]; try reflexivity.
  - destruct (Z.eqb_spec m 0) as [->|Hne]; [reflexivity|].
    destruct (unpackShowDailyKey v) as [date|e]; cbn [bind] in Hday |- *; [|discriminate].
    rewrite Hday. cbn [bind].
    replace (match m with 0%Z => false | _ => (s <=? dayOf v)%Z && (dayOf v <=? s + m - 1)%Z end)
      with ((s <=? dayOf v)%Z && (dayOf v <=? s + m - 1)%Z) by (now destruct m).
    destruct (Z.ltb_spec (dayOf v) s), (Z.leb_spec s (dayOf v)); try lia; cbn [andb];
      [reflexivity|].
    rewrite Z.gtb_ltb.
    destruct (Z.ltb_spec (s + m - 1) (dayOf v)), (Z.leb_spec (dayOf v) (s + m - 1));
      try lia; reflexivity.
  - destruct (Z.eqb_spec m 0) as [->|Hne]; [reflexivity|]. now destruct m.
  - destruct (unpackShowDailyKey v) as [date|e]; cbn [bind] in Hday |- *; [|discriminate].
    rewrite Hday. cbn [bind].
    destruct (Z.ltb_spec (dayOf v) s), (Z.leb_spec s (dayOf v)); try lia; reflexivity.
Qed.

End Days.

End CoordinatorProps.

(* ================================================================== *)
(** * The aggregates block: its writes                                *)
(* ================================================================== *)

Module BlockProps.
Import Js Summaries Blobs ShowSummaries.
Import JsFacts SummariesFacts AggregateSpec OverallSpec.
Import DailyProps AggregateProps OverallProps OverallWrites CoordinatorProps.

Section Block.
Variable statsBlobs : Reader.

(** X19.  The aggregates block writes the month summary under the key of
    the month and then, if the merge changed it, the overall summary under
    the key of the show and period it records; both documents pass
    [isValidShowSummary]; on a store without an overall summary both are
    written, the second under the overall key of the show. *)
Theorem aggregates_block_writes_month_then_overall (show month : string)
    (inputKeys : list string) (puts : list (string * PutBody)) :
  runAggregates statsBlobs show month inputKeys = OK puts ->
  exists monthDoc typed prior,
    computeShowSummaryAggregate statsBlobs show inputKeys month = OK monthDoc
    /\ asShowSummary monthDoc = Some typed
    /\ tryLoadShowSummary statsBlobs (computeShowSummaryKey show "overall") = OK prior
    /\ puts =
       (computeShowSummaryKey show month, JsonBody monthDoc)
       :: match tryComputeNewOverall prior typed with
          | Some newOverall =>
              [ (computeShowSummaryKey (showUuid newOverall) (period newOverall),
                 JsonBody (overallJs newOverall)) ]
          | None => []
          end
    /\ (prior = None ->
        exists newOverall,
          tryComputeNewOverall prior typed = Some newOverall
          /\ showUuid newOverall = show /\ period newOverall = "overall")
    /\ Forall (fun p => exists doc, snd p = JsonBody doc /\ isValidShowSummary doc = true)
              puts.
Proof.
  unfold runAggregates, computeShowSummaryAggregate.
  destruct (forOf aggregateResult _ emptyMonth) as [acc|e]; cbn [bind]; [|discriminate].
  destruct (tryLoadShowSummary statsBlobs (computeShowSummaryKey show "overall"))
    as [prior|e]; cbn [bind]; [|discriminate].
  rewrite asShowSummary_sorted, saveShowSummary_sorted. intros H.
  eexists. eexists. exists prior.
  split; [reflexivity|]. split; [apply asShowSummary_sorted|]. split; [reflexivity|].
  match goal with
  | H : match tryComputeNewOverall prior ?t with _ => _ end = _ |- _ =>
      set (typed := t) in *
  end.
  assert (Hputs : puts =
            (computeShowSummaryKey show month,
             JsonBody (computeSorted
                         (summaryLiteral show month (m_hourlyDownloads acc)
                            (m_episodes acc) (m_dimensionDownloads acc) (m_sources acc))))
            :: match tryComputeNewOverall prior typed with
               | Some newOverall =>
                   [ (computeShowSummaryKey (showUuid newOverall) (period newOverall),
                      JsonBody (overallJs newOverall)) ]
               | None => []
               end).
  { destruct (tryComputeNewOverall prior typed) as [newOverall|]; now injection H as <-. }
  split; [exact Hputs|]. split.
  - intros ->. destruct (tryComputeNewOverall None typed) as [newOverall|] eqn:En.
    + exists newOverall. split; [reflexivity|].
      destruct (newOverall_fields _ _ _ En) as (Hu & Hp & _).
      split; [exact Hu|exact Hp].
    + now destruct (fresh_overall_is_saved typed).
  - rewrite Hputs. constructor.
    + eexists. split; [reflexivity|]. apply isValidShowSummary_sorted.
    + destruct (tryComputeNewOverall prior typed) as [newOverall|]; constructor;
        [|constructor].
      eexists. split; [reflexivity|]. apply isValidShowSummary_overallJs.
Qed.

End Block.

End BlockProps.

(* ================================================================== *)
(** * First hours, read back from the store                           *)
(* ================================================================== *)

Module FirstHourProps.
Import Js Summaries Blobs ShowSummaries.
Import JsFacts SummariesFacts AggregateSpec OverallSpec.
Import DailyProps AggregateProps OverallProps OverallWrites.

Lemma obj_get_fromEntries {A : Type} (k : string) (l : list (string * A)) :
  NoDup (keys l) -> obj_get k (fromEntries l) = obj_get k l.
Proof.
  unfold fromEntries.
  assert (H : forall o, NoDup (keys l) ->
            obj_get k (fold_left (fun o kv => obj_set (fst kv) (snd kv) o) l o) =
            match obj_get k l with Some v => Some v | None => obj_get k o end).
  { induction l as [|[k1 v1] l IH]; intros o Hnd; cbn [fold_left obj_get fst snd];
      [reflexivity|].
    inversion Hnd as [|? ? Hnotin Hnd']; subst.
    rewrite (IH _ Hnd'), obj_get_set.
    destruct (String.eqb_spec k1 k) as [->|Hne]; [|reflexivity].
    apply obj_get_none_iff in Hnotin. now rewrite Hnotin. }
  intros Hnd. rewrite (H [] Hnd). now destruct (obj_get k l).
Qed.

Lemma obj_get_map {A B : Type} (f : A -> B) (k : string) (l : list (string * A)) :
  obj_get k (map (fun kv => (fst kv, f (snd kv))) l) = option_map f (obj_get k l).
Proof.
  induction l as [|[k1 v1] l IH]; cbn [map obj_get fst snd]; [reflexivity|].
  now destruct (k1 =? k).
Qed.

Lemma keys_map {A B : Type} (f : A -> B) (l : list (string * A)) :
  keys (map (fun kv => (fst kv, f (snd kv))) l) = keys l.
Proof. unfold keys. rewrite map_map. reflexivity. Qed.

Lemma asShowSummary_overallJs (s : ShowSummary) :
  asShowSummary (overallJs s) = Some s.
Proof.
  unfold asShowSummary, overallJs.
  cbn [js_field obj_get app String.eqb Ascii.eqb Bool.eqb asString obind].
  rewrite asCounts_countsJs, asEpisodes_episodesJs, asStrings_stringsJs. cbn [obind].
  destruct s as [u p h e src [d|]]; cbn [dimensionDownloads obj_get app String.eqb
    Ascii.eqb Bool.eqb option_map obind ShowSummaries.showUuid period hourlyDownloads
    episodes sources].
  - unfold dimensionsJs at 1. cbv beta iota. fold (dimensionsJs d).
    rewrite asDimensions_dimensionsJs. reflexivity.
  - reflexivity.
Qed.

Lemma loop_nodup (eps : Obj EpisodeSummary) :
  forall st, NoDup (keys (fst st)) -> NoDup (keys (fst (fold_left overallStep eps st))).
Proof.
  induction eps as [|entry eps IH]; intros st H; cbn [fold_left]; [exact H|].
  apply IH. unfold overallStep.
  destruct (match obj_member (fst entry) (fst st) with
            | Own e => str_lt (ep_firstHour (snd entry)) (ep_firstHour e)
            | Inherited => false
            | NoMember => true
            end); cbn [fst]; [now apply nodup_keys_set|exact H].
Qed.

Section Store.
Variable statsBlobs : Reader.

(** X20.  Once the overall summary a merge returns is in the store,
    [findFirstHourForEpisodeId] answers, for an episode, the least of the
    first hour the overall summary had before and the first hours the
    month gives; for an episode whose id names a member of
    [Object.prototype] and which the overall summary did not hold before,
    it answers [undefined]. *)
Theorem first_hour_is_answered_from_the_merged_overall (show : string)
    (overall : option ShowSummary) (summary newOverall : ShowSummary) (etag : string) :
  tryComputeNewOverall overall summary = Some newOverall ->
  NoDup (keys (episodesOf overall)) ->
  get_json statsBlobs (computeShowSummaryKey show "overall")
    = Some (overallJs newOverall, etag) ->
  forall episodeId,
    findFirstHourForEpisodeId statsBlobs show episodeId =
    OK (if shadowed overall episodeId then None
        else lexMin (firstHourOf overall episodeId)
                    (hoursIn episodeId (episodes summary))).
Proof.
  intros Hnew Hnd Hget episodeId.
  unfold findFirstHourForEpisodeId, tryLoadShowSummary. rewrite Hget.
  unfold parseShowSummary. rewrite asShowSummary_overallJs. cbn [option_map bind].
  unfold parsedSummary. cbn [episodes].
  pose proof (tryComputeNewOverall_episodes _ _ _ Hnew) as Heps.
  assert (Hnd' : NoDup (keys (episodes newOverall))).
  { rewrite Heps. apply loop_nodup. exact Hnd. }
  rewrite obj_get_fromEntries; [|now rewrite keys_map].
  rewrite obj_get_map.
  pose proof (loop_hour episodeId (episodes summary)
                (episodesOf overall, match overall with None => true | Some _ => false end))
    as Hh.
  rewrite <- Heps in Hh. cbn [fst] in Hh.
  unfold shadowed. rewrite firstHourOf_episodesOf, <- Hh. unfold hourAt.
  now destruct (obj_get episodeId (episodes newOverall)).
Qed.

End Store.

End FirstHourProps.

(* ================================================================== *)
(** * The audience reducer: counts and parts                          *)
(* ================================================================== *)

Module AudienceCounts.
Import Js Summaries Blobs Sleep Audience.
Import JsFacts SummariesFacts DailySpec AudienceSpec.
Import DailyCounts AudienceProps AudienceWrites AudienceBlob KeyProps.

#[local] Arguments total : simpl never.

(** ** What the loop counts *)

Lemma step_found (partObj : option (Z * Z)) (st : Found) (dl : string * string) :
  found (step partObj st dl) =
  if accepted partObj (snd dl) then increment (found st) (fst dl) else found st.
Proof.
  unfold step. destruct (accepted partObj (snd dl)); [|reflexivity].
  unfold accept. now destruct (falsy_at _ _).
Qed.

Lemma step_count (partObj : option (Z * Z)) (st : Found) (dl : string * string) :
  (count st <= count (step partObj st dl)
   <= count st + if accepted partObj (snd dl) then 1 else 0)%Z.
Proof.
  unfold step. destruct (accepted partObj (snd dl)); [|lia].
  unfold accept. destruct (falsy_at _ _); cbn [count]; lia.
Qed.

Lemma fold_found (partObj : option (Z * Z)) (dls : list (string * string)) :
  forall st,
    total (found (fold_left (step partObj) dls st)) =
      (total (found st) + Z.of_nat (List.length (acceptedLines partObj dls)))%Z
    /\ (forall date,
          count_of date (found (fold_left (step partObj) dls st)) =
          (count_of date (found st)
           + countZ (fun dl => (fst dl =? date)%string && accepted partObj (snd dl)) dls)%Z)
    /\ (count st <= count (fold_left (step partObj) dls st)
        <= count st + Z.of_nat (List.length (acceptedLines partObj dls)))%Z.
Proof.
  unfold acceptedLines.
  induction dls as [|dl dls IH]; intros st; cbn [fold_left map filter].
  - cbn [List.length]. split; [lia|]. split; [|lia]. intros date. rewrite countZ_nil. lia.
  - destruct (IH (step partObj st dl)) as (Ht & Hc & Hn).
    pose proof (step_count partObj st dl) as Hs.
    rewrite Ht, step_found. setoid_rewrite Hc. setoid_rewrite step_found.
    destruct (accepted partObj (snd dl)) eqn:Ea; cbn [List.length].
    + rewrite total_increment. split; [lia|]. split; [|lia].
      intros date. rewrite count_of_increment, countZ_cons. cbv beta.
      rewrite Ea, andb_true_r. lia.
    + split; [lia|]. split; [|lia].
      intros date. rewrite countZ_cons. cbv beta. rewrite Ea, andb_false_r. lia.
Qed.

(** ** A number of parts the reducer does not support *)

Lemma lines_unsupported (partNum numParts : Z) (date : string) (lines : list string) :
  numParts <> 4%Z -> numParts <> 8%Z ->
  forall st,
    forOf (processLine (Some (partNum, numParts)) date) lines st =
    if existsb (fun line => negb (line =? "")) lines
    then Throw (UnsupportedConfig "numParts")
    else OK st.
Proof.
  intros H4 H8. induction lines as [|line lines IH]; intros st; cbn [forOf existsb];
    [reflexivity|].
  unfold processLine at 1. destruct line as [|c line]; cbn [String.length Nat.eqb bind].
  - cbn [String.eqb negb orb]. apply IH.
  - cbn [inPart]. destruct (Z.eqb_spec numParts 4); [contradiction|].
    destruct (Z.eqb_spec numParts 8); [contradiction|]. reflexivity.
Qed.

Section Runs.
Variables isValidUuid isValidDate isValidMonth : string -> bool.
Variable statsBlobs : Reader.

Local Abbreviation datedLines :=
  (AudienceSpec.datedLines isValidUuid isValidDate isValidMonth statsBlobs).
Local Abbreviation monthLines :=
  (AudienceSpec.monthLines isValidUuid isValidDate isValidMonth statsBlobs).
Local Abbreviation reduceMonth :=
  (Audience.reduceMonth isValidUuid isValidDate isValidMonth statsBlobs).

Lemma keys_unsupported (partNum numParts : Z) (keys : list string) :
  numParts <> 4%Z -> numParts <> 8%Z ->
  forall dls st,
    datedLines keys = OK dls ->
    forOf (processKey isValidUuid isValidDate isValidMonth statsBlobs
             (Some (partNum, numParts))) keys st =
    if existsb (fun dl => negb (snd dl =? "")) dls
    then Throw (UnsupportedConfig "numParts")
    else OK st.
Proof.
  intros H4 H8. induction keys as [|key keys IH]; intros dls st; cbn [forOf].
  - intros [= <-]. reflexivity.
  - cbn [AudienceSpec.datedLines]. unfold processKey at 1, AudienceSpec.keyInput.
    destruct (get_lines statsBlobs key) as [lines|]; cbn [bind]; [|discriminate].
    destruct (unpackAudienceKey _ _ _ key) as [unpacked|e]; cbn [bind]; [|discriminate].
    destruct (isValidDate (snd (fst unpacked))); cbn [bind]; [|discriminate].
    destruct (datedLines keys) as [rest|e] eqn:Er; cbn [bind fst snd]; [|discriminate].
    intros [= <-]. rewrite (lines_unsupported _ _ _ _ H4 H8).
    rewrite existsb_app.
    assert (Hmap : existsb (fun dl : string * string => negb (snd dl =? ""))
                     (map (pair (snd (fst unpacked))) lines)
                   = existsb (fun line => negb (line =? "")) lines).
    { clear. induction lines as [|l lines IH]; cbn [map existsb snd]; [reflexivity|].
      now rewrite IH. }
    rewrite Hmap. destruct (existsb _ lines); cbn [orb bind]; [reflexivity|].
    now apply IH.
Qed.

(** X21.  The daily found-audience counts are counts of lines: every
    line the part takes adds one to the count of its day, whether its
    audience id is new or not; the audience count is at most their total. *)
Theorem found_audience_counts_lines (showUuid month : string)
    (partObj : option (Z * Z)) (st : Found) :
  supported partObj ->
  reduceMonth showUuid month partObj = OK st ->
  exists dls,
    monthLines showUuid month = OK dls
    /\ total (found st) = Z.of_nat (List.length (acceptedLines partObj dls))
    /\ (forall date,
          count_of date (found st) =
          countZ (fun dl => (fst dl =? date)%string && accepted partObj (snd dl)) dls)
    /\ (0 <= count st <= total (found st))%Z.
Proof.
  intros Hs Hred. rewrite (reduceMonth_lines _ _ _ _ _ _ _ Hs) in Hred.
  destruct (monthLines showUuid month) as [dls|e]; cbn [bind] in Hred; [|discriminate].
  injection Hred as <-. exists dls. split; [reflexivity|].
  destruct (fold_found partObj dls emptyFound) as (Ht & Hc & Hn).
  cbn [emptyFound found count] in Ht, Hc, Hn. rewrite total_nil in Ht.
  split; [lia|]. split; [|lia]. intros date. rewrite Hc. reflexivity.
Qed.

(** X22.  A number of parts other than 4 or 8 is refused only when a
    non-empty line is read: over files that hold no such line the reduction
    succeeds, with nothing found. *)
Theorem unsupported_parts_fail_at_the_first_line (showUuid month : string)
    (partNum numParts : Z) (dls : list (string * string)) :
  numParts <> 4%Z -> numParts <> 8%Z ->
  monthLines showUuid month = OK dls ->
  reduceMonth showUuid month (Some (partNum, numParts)) =
  if existsb (fun dl => negb (snd dl =? "")) dls
  then Throw (UnsupportedConfig "numParts")
  else OK emptyFound.
Proof.
  intros H4 H8 Hl. unfold Audience.reduceMonth. now apply keys_unsupported.
Qed.

End Runs.

End AudienceCounts.

(* ================================================================== *)
(** * The audience reducer: reads before writes                       *)
(* ================================================================== *)

Module AudienceOrder.
Import Js Summaries Blobs Sleep Audience.
Import JsFacts AudienceSpec AudienceProps AudienceWrites.

Lemma isValidAudienceSummary_written (a : AudienceSummary) :
  isValidAudienceSummary (audienceSummaryJs a) = true.
Proof. unfold audienceSummaryJs. now destruct (as_part a). Qed.

Section Writes.
Variables isValidUuid isValidDate isValidMonth : string -> bool.
Variable statsBlobs : Reader.
Variable answers : Writer.
Variables showUuid month : string.
Variable partObj : option (Z * Z).

Local Abbreviation audienceKey := (AudienceSpec.audienceKey showUuid month partObj).
Local Abbreviation summaryKey := (AudienceSpec.summaryKey showUuid month partObj).
Local Abbreviation summaryBody := (AudienceSpec.summaryBody showUuid month partObj).
Local Abbreviation reduced :=
  (AudienceSpec.reduced isValidUuid isValidDate isValidMonth statsBlobs showUuid month partObj).
Local Abbreviation run :=
  (AudienceSpec.run isValidUuid isValidDate isValidMonth statsBlobs answers showUuid month partObj).

(** X24.  The reducer writes nothing until every daily file is read: a
    run whose reading fails issues no [put]; a run whose reading succeeds
    puts the audience blob, then the summary, a document that passes
    [isValidAudienceSummary] and records the show, the month and the daily
    counts, and then the audience blob again, at most twice. *)
Theorem audience_is_written_after_a_full_read (log : PutLog) :
  match reduced with
  | Throw e => run log = (Throw e, log)
  | OK st =>
      exists n doc,
        (n <= 2)%nat
        /\ snd (run log) =
           ((log ++ [(audienceKey, audienceBody st)]) ++ [(summaryKey, JsonBody doc)])
             ++ repeat (audienceKey, audienceBody st) n
        /\ isValidAudienceSummary doc = true
        /\ js_field "showUuid" doc = JsString showUuid
        /\ js_field "period" doc = JsString month
        /\ js_field "dailyFoundAudience" doc = countsJs (found st)
  end.
Proof.
  destruct reduced as [st|e] eqn:E.
  - destruct (run_log isValidUuid isValidDate isValidMonth statsBlobs answers
                showUuid month partObj st log E) as (n & Hn & Hlog & _).
    exists n. eexists. split; [exact Hn|]. split; [exact Hlog|].
    split; [apply isValidAudienceSummary_written|].
    unfold audienceSummaryJs. cbn [as_showUuid as_period as_part dailyFoundAudience].
    destruct (partName partObj); repeat split.
  - now apply run_failed_reduce.
Qed.

End Writes.

End AudienceOrder.

(* ================================================================== *)
(** * Audience keys, made and read back                               *)
(* ================================================================== *)

Module KeyRoundTrip.
Import Js Summaries Blobs Sleep ShowSummaries Audience.
Import JsFacts SummariesFacts AudienceSpec KeySpec.
Import AudienceProps AudienceWrites AudienceBlob KeyProps.

(** ** Strings *)

Lemma append_nil_r (s : string) : (s ++ "")%string = s.
Proof. induction s as [|c s IH]; cbn [String.append]; [reflexivity|now rewrite IH]. Qed.

Lemma append_assoc (a b c : string) : ((a ++ b) ++ c)%string = (a ++ (b ++ c))%string.
Proof. induction a as [|x a IH]; cbn [String.append]; [reflexivity|now rewrite IH]. Qed.

Lemma append_cancel_l (a x y : string) : (a ++ x)%string = (a ++ y)%string -> x = y.
Proof. induction a as [|c a IH]; cbn [String.append]; [tauto|]. intros [= H]. now apply IH. Qed.

Lemma substring_all (s : string) : String.substring 0 (String.length s) s = s.
Proof. induction s as [|c s IH]; cbn; [reflexivity|now rewrite IH]. Qed.

Lemma substring_prefix (a b : string) :
  String.substring 0 (String.length a) (a ++ b) = a.
Proof.
  induction a as [|c a IH]; cbn [String.append String.length String.substring].
  - now destruct b.
  - now rewrite IH.
Qed.

Lemma substring_skip (a b : string) (n m : nat) :
  String.substring (String.length a + n) m (a ++ b) = String.substring n m b.
Proof.
  induction a as [|c a IH]; cbn [String.append String.length Nat.add String.substring];
    [reflexivity|exact IH].
Qed.

Lemma drop_append (a b : string) : drop (String.length a) (a ++ b) = b.
Proof.
  unfold drop. rewrite length_append.
  replace (String.length a + String.length b - String.length a)%nat
    with (String.length b) by lia.
  rewrite <- (Nat.add_0_r (String.length a)) at 1.
  rewrite substring_skip. apply substring_all.
Qed.

Lemma prefix_append_self (a b : string) : String.prefix a (a ++ b) = true.
Proof.
  induction a as [|c a IH]; cbn [String.append String.prefix]; [now destruct b|].
  destruct (ascii_dec c c); [exact IH|congruence].
Qed.

(** ** The lazy groups of the key pattern *)

Lemma lazy_group_eq {R : Type} (sep : string) (k : string -> string -> option R)
    (g s : string) :
  lazy_group sep k g s =
  match (if String.prefix sep s then k g (drop (String.length sep) s) else None) with
  | Some r => Some r
  | None =>
      match s with
      | EmptyString => None
      | String c s' =>
          if is_line_terminator c then None
          else lazy_group sep k (g ++ String c "") s'
      end
  end.
Proof. destruct s; reflexivity. Qed.

Lemma lazy_group_hit {R : Type} (sep : string) (k : string -> string -> option R)
    (g rest : string) (r : R) :
  k g rest = Some r -> lazy_group sep k g (sep ++ rest) = Some r.
Proof.
  intros H. rewrite lazy_group_eq, prefix_append_self, drop_append, H. reflexivity.
Qed.

Lemma lacks_cons (chars : list ascii) (c : ascii) (s : string) :
  lacks chars (String c s) = negb (existsb (Ascii.eqb c) chars) && lacks chars s.
Proof. reflexivity. Qed.

Lemma lacks_append (chars : list ascii) (a b : string) :
  lacks chars (a ++ b) = lacks chars a && lacks chars b.
Proof.
  induction a as [|c a IH]; cbn [String.append]; [reflexivity|].
  now rewrite !lacks_cons, IH, andb_assoc.
Qed.

(** A lazy group runs over the characters that are neither the first
    of its separator nor line terminators. *)
Lemma lazy_group_skip {R : Type} (a : ascii) (sep : string)
    (k : string -> string -> option R) (chars : list ascii) (g' : string) :
  In a chars -> In "010"%char chars -> In "013"%char chars ->
  lacks chars g' = true ->
  forall g rest,
    lazy_group (String a sep) k g (g' ++ rest) =
    lazy_group (String a sep) k (g ++ g') rest.
Proof.
  intros Ha Hn Hr. induction g' as [|c g' IH]; intros Hl g rest.
  - now rewrite append_nil_r.
  - rewrite lacks_cons in Hl. apply andb_prop in Hl. destruct Hl as [Hc Hl].
    assert (Hnot : forall x, In x chars -> c <> x).
    { intros x Hx ->. apply negb_true_iff in Hc.
      assert (existsb (Ascii.eqb x) chars = true); [|congruence].
      apply existsb_exists. exists x. split; [exact Hx|apply Ascii.eqb_refl]. }
    cbn [String.append]. rewrite lazy_group_eq. cbn [String.prefix].
    destruct (ascii_dec a c) as [->|_]; [now destruct (Hnot c Ha)|].
    unfold is_line_terminator.
    destruct (Ascii.eqb_spec c "010") as [->|_]; [now destruct (Hnot _ Hn)|].
    destruct (Ascii.eqb_spec c "013") as [->|_]; [now destruct (Hnot _ Hr)|].
    cbn [orb]. rewrite (IH Hl). now rewrite append_assoc.
Qed.

Lemma lacks_incl (chars chars' : list ascii) (s : string) :
  (forall c, In c chars' -> In c chars) ->
  lacks chars s = true -> lacks chars' s = true.
Proof.
  intros Hincl. unfold lacks. rewrite !forallb_forall. intros H c Hc.
  specialize (H c Hc). apply negb_true_iff in H. apply negb_true_iff.
  destruct (existsb (Ascii.eqb c) chars') eqn:E; [|reflexivity].
  apply existsb_exists in E. destruct E as (x & Hx & Hcx).
  rewrite <- H. symmetry. apply existsb_exists. exists x. split; [now apply Hincl|exact Hcx].
Qed.

Section Keys.
Variables isValidUuid isValidDate isValidMonth : string -> bool.

(** X25.  The key made for a show, a period and a part is read back by
    [unpackAudienceKey] as that show, that period and that part, the part
    [all] being read back as no part. *)
Theorem audience_key_reads_back (showUuid period : string) (part : option string) :
  isValidUuid showUuid = true ->
  isValidDate period || isValidMonth period = true ->
  lacks idBreakers showUuid = true ->
  lacks fieldBreakers period = true ->
  lacks fieldBreakers (partSuffix part) = true ->
  unpackAudienceKey isValidUuid isValidDate isValidMonth
    (computeAudienceKey showUuid period part)
  = OK (showUuid, period, if partSuffix part =? "all" then None else part).
Proof.
  intros Hu Hp Lu Lp Lq.
  assert (Hm : matchAudienceKey (computeAudienceKey showUuid period part)
               = Some (showUuid, showUuid, period, partSuffix part)).
  { unfold matchAudienceKey, computeAudienceKey.
    rewrite prefix_append_self.
    change 15%nat with (String.length "audiences/show/"). rewrite drop_append.
    rewrite (lazy_group_skip "/" "" _ idBreakers showUuid); unfold idBreakers;
      [|now left|now right; right; left|now right; right; right; left|exact Lu].
    apply (lazy_group_hit "/").
    rewrite (lazy_group_skip "-" "" _ idBreakers showUuid); unfold idBreakers;
      [|now right; left|now right; right; left|now right; right; right; left|exact Lu].
    apply (lazy_group_hit "-").
    rewrite (lazy_group_skip "." "" _ fieldBreakers period); unfold fieldBreakers;
      [|now left|now right; left|now right; right; left|exact Lp].
    apply (lazy_group_hit ".").
    rewrite (lazy_group_skip "." "audience.txt" _ fieldBreakers (partSuffix part));
      unfold fieldBreakers;
      [|now left|now right; left|now right; right; left|exact Lq].
    rewrite <- (append_nil_r ".audience.txt") at 2.
    apply (lazy_group_hit ".audience.txt"). reflexivity. }
  unfold unpackAudienceKey. rewrite Hm, String.eqb_refl, Hu, Hp. cbn [andb].
  destruct part as [q|]; cbn [partSuffix]; [|reflexivity].
  now destruct (q =? "all").
Qed.

End Keys.

End KeyRoundTrip.

(* ================================================================== *)
(** * Daily audience files, and the keys of parts                     *)
(* ================================================================== *)

Module AudienceFiles.
Import Js Summaries Blobs Sleep ShowSummaries Audience.
Import JsFacts SummariesFacts DailySpec AudienceSpec KeySpec.
Import DailyCounts AudienceProps AudienceWrites AudienceBlob KeyProps KeyRoundTrip
  AudienceCounts.

#[local] Arguments total : simpl never.

(** ** What [saveAudience] writes, read by the reducer *)

Lemma lineOf_parts (kv : string * string) :
  String.length (fst kv) = 64%nat -> String.length (snd kv) = 15%nat ->
  js_substring 0 64 (lineOf kv) = fst kv
  /\ js_substring 65 80 (lineOf kv) = snd kv
  /\ (String.length (lineOf kv) =? 0)%nat = false.
Proof.
  intros H1 H2. unfold js_substring, lineOf.
  change (64 - 0)%nat with 64%nat. change (80 - 65)%nat with 15%nat.
  split; [|split].
  - rewrite <- H1. apply substring_prefix.
  - change 65%nat with (64 + 1)%nat. rewrite <- H1, substring_skip.
    cbn [String.substring]. rewrite <- H2. apply substring_all.
  - rewrite length_append, H1. reflexivity.
Qed.

Lemma saved_lines_fold (date : string) (rest : Obj string) :
  forall st,
    NoDup (keys (audienceTimestamps st ++ rest)) ->
    Forall (fun kv => String.length (fst kv) = 64%nat
                      /\ String.length (snd kv) = 15%nat) rest ->
    exists st',
      forOf (processLine None date) (map lineOf rest) st = OK st'
      /\ audienceTimestamps st' = audienceTimestamps st ++ rest
      /\ count st' = (count st + Z.of_nat (List.length rest))%Z
      /\ count_of date (found st') =
         (count_of date (found st) + Z.of_nat (List.length rest))%Z.
Proof.
  induction rest as [|kv rest IH]; intros st Hnd Hall; cbn [map forOf].
  - exists st. rewrite app_nil_r. cbn [List.length]. repeat split; lia.
  - inversion Hall as [|? ? [H1 H2] Hall']; subst.
    destruct (lineOf_parts kv H1 H2) as (Hid & Hts & Hlen).
    unfold processLine at 1. rewrite Hlen. cbn [inPart bind]. rewrite Hid, Hts.
    assert (Hnone : obj_get (fst kv) (audienceTimestamps st) = None).
    { apply obj_get_none_iff. intros Hin. unfold keys in Hnd. rewrite map_app in Hnd.
      cbn [map] in Hnd. apply NoDup_remove_2 in Hnd. apply Hnd.
      apply in_or_app. now left. }
    rewrite (falsy_at_plain (fst kv)), Hnone by (apply inherited_short; lia).
    cbn [truthy negb bind].
    assert (Hset : obj_set (fst kv) (snd kv) (audienceTimestamps st)
                   = audienceTimestamps st ++ [kv]).
    { unfold obj_set. rewrite Hnone, array_index_long; [now destruct kv|]. lia. }
    rewrite Hset.
    destruct (IH {| audienceTimestamps := audienceTimestamps st ++ [kv];
                    found := increment (found st) date;
                    count := (count st + 1)%Z |}) as (st' & Hrun & Ha & Hc & Hf).
    { cbn [audienceTimestamps]. now rewrite <- app_assoc. }
    { exact Hall'. }
    exists st'. split; [exact Hrun|]. cbn [audienceTimestamps count found] in Ha, Hc, Hf.
    rewrite Ha, Hc, Hf, <- app_assoc, count_of_increment, String.eqb_refl.
    cbn [app List.length]. repeat split; lia.
Qed.

(** X27.  The lines [saveAudience] writes for a day are read back by the
    reducer as the entries they were written from, in the same order, each
    counted once. *)
Theorem saved_audience_reads_back (showUuid date : string) (ats : Obj string) :
  NoDup (keys ats) ->
  Forall (fun kv => String.length (fst kv) = 64%nat
                    /\ String.length (snd kv) = 15%nat) ats ->
  saveAudience showUuid date ats =
    (computeAudienceKey showUuid date None,
     TextBody (String.concat ""
                 (map (fun l => (l ++ String "010" "")%string) (map lineOf ats))))
  /\ exists st,
       forOf (processLine None date) (map lineOf ats) emptyFound = OK st
       /\ audienceTimestamps st = ats
       /\ count st = Z.of_nat (List.length ats)
       /\ count_of date (found st) = Z.of_nat (List.length ats).
Proof.
  intros Hnd Hall. split.
  - unfold saveAudience, audienceBytes. rewrite map_map. do 3 f_equal.
    apply map_ext. intros kv. unfold lineOf. now rewrite append_assoc.
  - destruct (saved_lines_fold date ats emptyFound Hnd Hall) as (st & Hrun & Ha & Hc & Hf).
    exists st. now repeat split.
Qed.

(** ** Parts *)

Lemma fold_none (partObj : option (Z * Z)) (dls : list (string * string)) :
  (forall dl, In dl dls -> accepted partObj (snd dl) = false) ->
  forall st, fold_left (step partObj) dls st = st.
Proof.
  induction dls as [|dl dls IH]; intros H st; cbn [fold_left]; [reflexivity|].
  unfold step at 2. rewrite (H dl (or_introl eq_refl)).
  apply IH. intros dl' Hin. apply H. now right.
Qed.

Section Runs.
Variables isValidUuid isValidDate isValidMonth : string -> bool.
Variable statsBlobs : Reader.
Variable answers : Writer.

Local Abbreviation monthLines :=
  (AudienceSpec.monthLines isValidUuid isValidDate isValidMonth statsBlobs).
Local Abbreviation reduceMonth :=
  (Audience.reduceMonth isValidUuid isValidDate isValidMonth statsBlobs).
Local Abbreviation recomputeAudienceForMonth :=
  (Audience.recomputeAudienceForMonth isValidUuid isValidDate isValidMonth statsBlobs
     answers).

(** X23.  A part number outside 1 to [numParts] is not refused: the part
    takes no line, and a run that returns reports an audience of 0 in 0
    bytes. *)
Theorem part_out_of_range_finds_nothing (showUuid month : string)
    (partNum numParts : Z) (dls : list (string * string)) :
  numParts = 4%Z \/ numParts = 8%Z ->
  (partNum < 1 \/ numParts < partNum)%Z ->
  monthLines showUuid month = OK dls ->
  reduceMonth showUuid month (Some (partNum, numParts)) = OK emptyFound
  /\ forall log r log',
       recomputeAudienceForMonth showUuid month (Some (partNum, numParts)) log
         = (OK r, log') ->
       audience r = 0%Z /\ contentLength r = 0%Z.
Proof.
  intros Hn Hp Hl.
  assert (Hred : reduceMonth showUuid month (Some (partNum, numParts)) = OK emptyFound).
  { rewrite (reduceMonth_lines _ _ _ _ _ _ (Some (partNum, numParts)) Hn), Hl.
    cbn [bind]. f_equal. apply fold_none. intros dl _.
    destruct (accepted (Some (partNum, numParts)) (snd dl)) eqn:Ea; [|reflexivity].
    apply (accepted_part _ _ _ Hn) in Ea. destruct Ea as [_ Ea].
    pose proof (linePartNum4_range (snd dl)). pose proof (linePartNum8_range (snd dl)).
    destruct Hn as [-> | ->]; cbn in Ea; lia. }
  split; [exact Hred|]. intros log r log'.
  unfold Audience.recomputeAudienceForMonth. rewrite Hred.
  destruct (put answers _ _ log) as [first log1].
  destruct (put answers _ _ log1) as [r2 log2].
  destruct (retriesAfter _ _ _ first log2) as [r1 log3].
  destruct (promiseAll2 r1 r2); cbn [bind]; [|discriminate].
  intros [= <- _]. split; reflexivity.
Qed.

End Runs.

(** X26.  The blobs of the parts of a month have keys of their own: no
    two parts of a split, and no part and the unsplit run, write to the
    same audience key or to the same summary key. *)
Theorem parts_have_keys_of_their_own (showUuid month : string)
    (partObj partObj' : option (Z * Z)) :
  validPart partObj -> validPart partObj' -> partObj <> partObj' ->
  computeAudienceKey showUuid month (partName partObj)
    <> computeAudienceKey showUuid month (partName partObj')
  /\ computeAudienceSummaryKey showUuid month (partName partObj)
       <> computeAudienceSummaryKey showUuid month (partName partObj').
Proof.
  intros Hv Hv' Hne.
  assert (Hsuffix : partSuffix (partName partObj) <> partSuffix (partName partObj')).
  { intros E. apply Hne. clear Hne.
    destruct partObj as [[p n]|], partObj' as [[p' n']|]; cbn [validPart] in Hv, Hv'.
    - destruct Hv as [Hn Hp], Hv' as [Hn' Hp'].
      assert (Hcases : forall q m, (m = 4 \/ m = 8)%Z -> (1 <= q <= m)%Z ->
                (q = 1 \/ q = 2 \/ q = 3 \/ q = 4 \/ q = 5 \/ q = 6 \/ q = 7 \/ q = 8)%Z)
        by (intros; lia).
      pose proof (Hcases p n Hn Hp) as Cp. pose proof (Hcases p' n' Hn' Hp') as Cp'.
      destruct Hn as [-> | ->], Hn' as [-> | ->];
        destruct Cp as [->|[->|[->|[->|[->|[->|[->| ->]]]]]]];
        destruct Cp' as [->|[->|[->|[->|[->|[->|[->| ->]]]]]]];
        try lia; try reflexivity; try (vm_compute in E; discriminate E).
    - exfalso. destruct Hv as [Hn Hp].
      assert (Hcases : (p = 1 \/ p = 2 \/ p = 3 \/ p = 4 \/ p = 5 \/ p = 6 \/ p = 7
                        \/ p = 8)%Z) by lia.
      destruct Hn as [-> | ->];
        destruct Hcases as [->|[->|[->|[->|[->|[->|[->| ->]]]]]]];
        vm_compute in E; discriminate E.
    - exfalso. destruct Hv' as [Hn Hp].
      assert (Hcases : (p' = 1 \/ p' = 2 \/ p' = 3 \/ p' = 4 \/ p' = 5 \/ p' = 6
                        \/ p' = 7 \/ p' = 8)%Z) by lia.
      destruct Hn as [-> | ->];
        destruct Hcases as [->|[->|[->|[->|[->|[->|[->| ->]]]]]]];
        vm_compute in E; discriminate E.
    - reflexivity. }
  assert (Hcancel : forall a x y : string, (x ++ a)%string = (y ++ a)%string -> x = y).
  { intros a x. induction x as [|c x IH]; intros [|d y]; cbn [String.append]; intros E.
    - reflexivity.
    - exfalso. apply (f_equal String.length) in E. cbn [String.length] in E.
      rewrite length_append in E. lia.
    - exfalso. apply (f_equal String.length) in E. cbn [String.length] in E.
      rewrite length_append in E. lia.
    - injection E as -> E. f_equal. now apply IH. }
  split; intros E; apply Hsuffix.
  - unfold computeAudienceKey in E. do 7 apply append_cancel_l in E.
    now apply Hcancel in E.
  - unfold computeAudienceSummaryKey in E. do 7 apply append_cancel_l in E.
    now apply Hcancel in E.
Qed.

End AudienceFiles.

(* ================================================================== *)
(** * [computeSorted], and the keys of summaries                      *)
(* ================================================================== *)

Module SortedProps.
Import Js Summaries Blobs ShowSummaries.
Import JsFacts SummariesFacts KeySpec OverallProps KeyRoundTrip.

Section Sorting.
Context {A : Type}.
Implicit Types (o l : list (string * A)) (kv : string * A).

Lemma sort_insert_perm kv l : Permutation (kv :: l) (sort_insert kv l).
Proof.
  induction l as [|kv' l IH]; cbn [sort_insert]; [reflexivity|].
  destruct (str_lt (fst kv') (fst kv)); [|reflexivity].
  rewrite perm_swap. now constructor.
Qed.

Lemma sortBy_key_perm l : Permutation l (sortBy_key l).
Proof.
  unfold sortBy_key. induction l as [|kv l IH]; cbn [fold_right]; [reflexivity|].
  rewrite <- sort_insert_perm. now constructor.
Qed.

Lemma sort_insert_ascending kv l :
  ascending (keys l) -> ascending (keys (sort_insert kv l)).
Proof.
  induction l as [|kv' l IH]; cbn [sort_insert keys map ascending].
  - intros _. split; [intros k' []|exact I].
  - intros [Hhead Htail]. destruct (str_lt (fst kv') (fst kv)) eqn:E;
      cbn [keys map ascending].
    + split; [|now apply IH]. intros k' Hin.
      apply (Permutation_in _ (Permutation_map fst (Permutation_sym (sort_insert_perm kv l))))
        in Hin.
      destruct Hin as [<-|Hin]; [now apply str_lt_asym|now apply Hhead].
    + split; [|split; [exact Hhead|exact Htail]].
      intros k' [<-|Hin]; [exact E|].
      apply (str_le_trans _ (fst kv')); [exact E|now apply Hhead].
Qed.

Lemma sortBy_key_ascending l : ascending (keys (sortBy_key l)).
Proof.
  unfold sortBy_key. induction l as [|kv l IH]; cbn [fold_right]; [exact I|].
  now apply sort_insert_ascending.
Qed.

Lemma ascending_strict (ks : list string) :
  NoDup ks -> ascending ks -> keys_ascending ks = true.
Proof.
  induction ks as [|k ks IH]; [reflexivity|].
  intros Hnd [Hhead Htail]. inversion Hnd as [|? ? Hnotin Hnd']; subst.
  cbn [keys_ascending]. destruct ks as [|k' ks]; [reflexivity|].
  rewrite (IH Hnd' Htail), andb_true_r.
  destruct (str_lt k k') eqn:E; [reflexivity|].
  exfalso. apply Hnotin. left. apply str_lt_total; [|exact E].
  apply Hhead. now left.
Qed.

Lemma sortBy_key_sorted l :
  keys_ascending (keys l) = true -> sortBy_key l = l.
Proof.
  unfold sortBy_key. induction l as [|kv l IH]; cbn [fold_right]; [reflexivity|].
  cbn [keys map keys_ascending]. destruct l as [|kv' l]; [reflexivity|].
  cbn [map]. intros H. apply andb_prop in H. destruct H as [Hlt Hrest].
  rewrite IH; [|exact Hrest]. cbn [sort_insert]. now rewrite (str_lt_asym _ _ Hlt).
Qed.

(** An object filled key by key, none of them an array index, holds
    its entries in the order they were set. *)
Lemma fromEntries_plain l :
  NoDup (keys l) -> (forall k, In k (keys l) -> array_index k = None) ->
  fromEntries l = l.
Proof.
  unfold fromEntries.
  assert (H : forall o, NoDup (keys (o ++ l)) ->
            (forall k, In k (keys l) -> array_index k = None) ->
            fold_left (fun o kv => obj_set (fst kv) (snd kv) o) l o = o ++ l).
  { induction l as [|kv l IH]; intros o Hnd Hplain; cbn [fold_left].
    - now rewrite app_nil_r.
    - assert (Hset : obj_set (fst kv) (snd kv) o = o ++ [kv]).
      { unfold obj_set.
        replace (obj_get (fst kv) o) with (@None A).
        - rewrite Hplain; [now destruct kv|now left].
        - symmetry. apply obj_get_none_iff. intros Hin. unfold keys in Hnd.
          rewrite map_app in Hnd. cbn [map] in Hnd. apply NoDup_remove_2 in Hnd.
          apply Hnd. apply in_or_app. now left. }
      rewrite Hset, IH; [now rewrite <- app_assoc|now rewrite <- app_assoc|].
      intros k Hk. apply Hplain. now right. }
  intros Hnd Hplain. now apply (H []).
Qed.

End Sorting.

(** X12.  [computeSorted] on an object whose keys are no array indices
    returns the same properties with the same values, in ascending order of
    the keys; sorting again changes nothing. *)
Theorem computeSorted_orders_the_keys_of_the_object (o : list (string * JsValue)) :
  NoDup (map fst o) ->
  (forall k, In k (map fst o) -> array_index k = None) ->
  exists o',
    computeSorted (JsObject o) = JsObject o'
    /\ Permutation o o'
    /\ keys_ascending (map fst o') = true
    /\ (forall k, js_field k (JsObject o') = js_field k (JsObject o))
    /\ computeSorted (JsObject o') = JsObject o'.
Proof.
  intros Hnd Hplain.
  pose proof (sortBy_key_perm o) as Hperm.
  assert (Hnd' : NoDup (keys (sortBy_key o))).
  { apply (Permutation_NoDup (Permutation_map fst Hperm)). exact Hnd. }
  assert (Hplain' : forall k, In k (keys (sortBy_key o)) -> array_index k = None).
  { intros k Hk. apply Hplain.
    apply (Permutation_in _ (Permutation_map fst (Permutation_sym Hperm))). exact Hk. }
  assert (Hasc : keys_ascending (keys (sortBy_key o)) = true).
  { apply ascending_strict; [exact Hnd'|apply sortBy_key_ascending]. }
  exists (sortBy_key o). cbn [computeSorted]. unfold computeSortedRecord.
  rewrite (fromEntries_plain _ Hnd' Hplain').
  split; [reflexivity|]. split; [exact Hperm|]. split; [exact Hasc|]. split.
  - intros k. cbn [js_field].
    destruct (obj_get k o) as [v|] eqn:E.
    + apply obj_get_some_in in E. apply (Permutation_in _ Hperm) in E.
      now rewrite (in_nodup_obj_get _ _ _ Hnd' E).
    + apply obj_get_none_iff in E.
      replace (obj_get k (sortBy_key o)) with (@None JsValue); [reflexivity|].
      symmetry. apply obj_get_none_iff. intros Hin. apply E.
      apply (Permutation_in _ (Permutation_map fst (Permutation_sym Hperm))). exact Hin.
  - rewrite (sortBy_key_sorted _ Hasc). now rewrite (fromEntries_plain _ Hnd' Hplain').
Qed.

(** ** Summary keys *)

Lemma first_slash (u u' r r' : string) :
  lacks ["/"%char] u = true -> lacks ["/"%char] u' = true ->
  (u ++ String "/" r)%string = (u' ++ String "/" r')%string -> u = u' /\ r = r'.
Proof.
  revert u'. induction u as [|c u IH]; intros [|c' u']; cbn [String.append];
    rewrite ?lacks_cons; intros Hu Hu' E.
  - injection E as ->. now split.
  - exfalso. injection E as <- _. cbn in Hu'. discriminate.
  - exfalso. injection E as -> _. cbn in Hu. discriminate.
  - apply andb_prop in Hu, Hu'. injection E as -> E.
    destruct (IH u' (proj2 Hu) (proj2 Hu') E) as [-> ->]. now split.
Qed.

Lemma append_cancel_r (a x : string) :
  forall y, (x ++ a)%string = (y ++ a)%string -> x = y.
Proof.
  induction x as [|c x IH]; intros [|d y]; cbn [String.append]; intros E.
  - reflexivity.
  - exfalso. apply (f_equal String.length) in E. cbn [String.length] in E.
    rewrite length_append in E. lia.
  - exfalso. apply (f_equal String.length) in E. cbn [String.length] in E.
    rewrite length_append in E. lia.
  - injection E as -> E. f_equal. now apply IH.
Qed.

(** Two summaries share a key only if they are of the same show and
    period, for show ids that hold no slash. *)
Lemma computeShowSummaryKey_inj (showUuid period showUuid' period' : string) :
  lacks ["/"%char] showUuid = true ->
  lacks ["/"%char] showUuid' = true ->
  computeShowSummaryKey showUuid period = computeShowSummaryKey showUuid' period' ->
  showUuid = showUuid' /\ period = period'.
Proof.
  intros Hu Hu' E. unfold computeShowSummaryKey in E.
  apply append_cancel_l in E.
  apply (first_slash _ _ _ _ Hu Hu') in E. destruct E as [<- E].
  split; [reflexivity|].
  do 2 apply append_cancel_l in E. now apply append_cancel_r in E.
Qed.

(** X13.  Summaries of different shows or of different periods are kept
    under different keys, for show ids that hold no slash. *)
Theorem show_summary_keys_are_distinct (showUuid period showUuid' period' : string) :
  lacks ["/"%char] showUuid = true ->
  lacks ["/"%char] showUuid' = true ->
  showUuid <> showUuid' \/ period <> period' ->
  computeShowSummaryKey showUuid period <> computeShowSummaryKey showUuid' period'.
Proof.
  intros Hu Hu' Hne E.
  destruct (computeShowSummaryKey_inj _ _ _ _ Hu Hu' E) as [E1 E2].
  destruct Hne as [Hne|Hne]; now apply Hne.
Qed.

End SortedProps.

(* ================================================================== *)
(** * Scenarios                                                        *)
(* ================================================================== *)

Module Scenarios.
Import Js Summaries Blobs Sleep ShowSummaries Audience.
Import DailySpec AggregateSpec OverallSpec AudienceSpec Fixtures.
Import DailyProps AggregateProps OverallProps AudienceProps AudienceWrites
  AudienceBlob KeyProps ParserProps.
Import DailyCounts AggregateCounts OverallWrites ParserErrors CoordinatorProps
  BlockProps FirstHourProps AudienceCounts AudienceOrder KeyRoundTrip AudienceFiles
  SortedProps.

(** ** The daily computer *)

(** C1 on the day of two downloads and a bot: the total is 2. *)
Lemma daily_total_counts_non_bot_witness :
  exists s, asShowSummary daily3_summary = Some s
            /\ total (hourlyDownloads s) = Z.of_nat (List.length (nonBot rows3)).
Proof.
  apply (daily_total_counts_non_bot showDailyKey (dailyStore rows3) show "2024-03-05"
           rows3 "etag-1" daily3_summary daily3_audience);
    vm_compute; reflexivity.
Defined.

(** C5 as stated fails: a bot record that lacks [time] is not skipped,
    it fails the computation. *)
Lemma bot_row_without_time_fails :
  botType botWithoutTime = Some "bot"
  /\ time botWithoutTime = None
  /\ computeShowSummaryForDate showDailyKey (dailyStore [botWithoutTime]) show "2024-03-05"
     = Throw (CorruptInput "Undefined time").
Proof. repeat split. Qed.

(** C5, as the code has it, on the same day and on the two kinds of
    bot record. *)
Lemma bot_rows_with_time_are_skipped_witness :
  computeShowSummaryForDate showDailyKey (dailyStore rows3) show "2024-03-05"
  = computeShowSummaryForDate showDailyKey
      (dailyStore (filter (fun r => negb (timedBot r)) rows3)) show "2024-03-05"
  /\ processRow emptyDaily (download (Some "2024-03-05T10:45:00.000Z") (Some "bot") "E1" "b02")
     = OK emptyDaily
  /\ processRow emptyDaily botWithoutTime = Throw (CorruptInput "Undefined time").
Proof.
  destruct (bot_rows_with_time_are_skipped showDailyKey (dailyStore rows3)
              (dailyStore (filter (fun r => negb (timedBot r)) rows3))
              show "2024-03-05" rows3 "etag-1") as (H1 & H2 & H3);
    [vm_compute; reflexivity|vm_compute; reflexivity|].
  split; [exact H1|]. split.
  - apply H2. vm_compute. reflexivity.
  - apply H3. vm_compute. reflexivity.
Defined.

(** ** The monthly aggregator *)


(** X28 on a month of two days read and one day missing: 3 + 5 = 8. *)
Lemma aggregate_is_sum_of_days_read_witness :
  exists s,
    asShowSummary month1 = Some s
    /\ total (hourlyDownloads s) = 8%Z
    /\ bucketOf "countryCode" "US" (dimensionsOf s) = 8%Z
    /\ obj_get (computeShowSummaryKey show "2024-01-16") (sources s) = Some "etag-b"
    /\ obj_get (computeShowSummaryKey show "2024-01-17") (sources s) = None.
Proof.
  assert (Hplain : forall r, In r (readSummaries monthStore monthKeys) ->
                              plainDimensions (snd r)).
  { assert (H : forallb (fun r => forallb (fun d => negb (inherited d))
                                          (keys (dimensionsOf (snd r))))
                        (readSummaries monthStore monthKeys) = true)
      by (vm_compute; reflexivity).
    intros r Hr d Hd. apply negb_true_iff.
    apply (proj1 (forallb_forall _ _) (proj1 (forallb_forall _ _) H r Hr) d Hd). }
  assert (Hproto : ~ In "__proto__" monthKeys).
  { destruct (in_dec string_dec "__proto__" monthKeys) as [Hin|Hout] eqn:E;
      [vm_compute in E; discriminate E|exact Hout]. }
  destruct (proj2 (aggregate_is_sum_of_days_read monthStore show monthKeys "2024-01"
                     Hplain Hproto)
              month1) as (s & Hs & Htotal & Hbucket & Hsources);
    [vm_compute; reflexivity|].
  exists s. split; [exact Hs|]. split; [rewrite Htotal; vm_compute; reflexivity|].
  split; [rewrite Hbucket; vm_compute; reflexivity|].
  split; rewrite Hsources; vm_compute; reflexivity.
Defined.

(** ** The overall merge *)


(** X29 on two months taken in both orders, over a prior overall. *)
Lemma overall_merge_order_independent_witness :
  firstHourOf (mergeMonths (Some priorOverall) [january; december]) "E2"
  = firstHourOf (mergeMonths (Some priorOverall) [december; january]) "E2"
  /\ firstHourOf (mergeMonths (Some priorOverall) [january; december]) "E2"
     = Some "2023-12-24T18".
Proof.
  destruct (overall_merge_order_independent (Some priorOverall)
              [january; december] [december; january] (perm_swap _ _ _))
    as (H1 & _ & H3 & _).
  split; [apply H1|]. rewrite H3. vm_compute. reflexivity.
Defined.

(** ** Persisted summaries *)

(** C4 fails on the code.  [computeSorted] orders the properties of the
    summary object itself and leaves the mappings inside it as they were
    filled: the daily summary of two downloads, the later hour first,
    is persisted with [hourlyDownloads] in that order.  The overall summary
    goes from [tryComputeNewOverall] to [saveShowSummary] without
    [computeSorted]: an episode new to it is appended after the others. *)
Theorem persisted_summaries_keep_insertion_order :
  (let body := bodyJs (snd (saveShowSummary daily3_summary)) in
   keys_ascending (js_keys body) = true
   /\ js_keys (js_field "hourlyDownloads" body) = ["2024-03-05T11"; "2024-03-05T10"]
   /\ sorted_recursively body = false)
  /\ (exists month overall,
        runAggregates monthStore show "2024-01" monthKeys = OK [month; overall]
        /\ fst overall = computeShowSummaryKey show "overall"
        /\ js_keys (js_field "episodes" (bodyJs (snd overall))) = ["E2"; "E1"]
        /\ keys_ascending (js_keys (bodyJs (snd overall))) = false
        /\ sorted_recursively (bodyJs (snd overall)) = false).
Proof.
  split.
  - vm_compute. repeat split.
  - exists (nth 0 monthPuts ("", TextBody "")), (nth 1 monthPuts ("", TextBody "")).
    vm_compute. repeat split.
Qed.

(** ** The request parser *)

(** C8 as stated fails: the parser does not reject a request whose
    [phases] holds an unrecognized token; it returns the request without
    the token. *)
Lemma unknown_phase_token_is_not_rejected :
  In "bogus" (split "," "dailies,bogus")
  /\ isPhase "bogus" = false
  /\ tryParseRecomputeShowSummariesForMonthRequest Check.isValidUuid Check.isValidMonth
       Check.tryParseInt "update" "/work/recompute-show-summaries" (Some badPhases)
     = OK (Some {| req_showUuid := show; req_month := "2024-03"; req_log := false;
                   req_sequential := false; req_phases := Some ["dailies"];
                   req_startDay := None; req_maxDays := None |}).
Proof. vm_compute. repeat split. right. now left. Qed.

(** C8, as the code has it, on the same request. *)
Lemma unrecognized_phase_tokens_are_dropped_witness :
  exists req,
    tryParseRecomputeShowSummariesForMonthRequest Check.isValidUuid Check.isValidMonth
      Check.tryParseInt "update" "/work/recompute-show-summaries" (Some badPhases)
    = OK (Some req)
    /\ req_phases req = Some ["dailies"].
Proof.
  destruct (unrecognized_phase_tokens_are_dropped Check.isValidUuid Check.isValidMonth
              Check.tryParseInt badPhases show "2024-03" "dailies,bogus")
    as (req & Hreq & Hphases & _);
    try (vm_compute; reflexivity); [discriminate|].
  exists req. split; [exact Hreq|exact Hphases].
Defined.

(** ** The audience reducer *)

(** C6 on a month of two daily files, in four parts: part 2 finds the
    ids of the lines that start with 4 to 7, and the four parts together
    what the unsharded run finds. *)
Lemma shards_partition_the_unsharded_run_witness :
  reduceExample (Some (2, 4)%Z) = OK part2Found
  /\ (forall id,
        In id (keys (audienceTimestamps part2Found)) <->
        exists dl, In dl monthExampleLines /\ idOf (snd dl) = id
                   /\ shardOf 4 (snd dl) = Some 2%Z)
  /\ map (shardOf 4) (map snd monthExampleLines)
     = [Some 1; Some 1; Some 2; Some 2; Some 3; Some 3; Some 2; None; Some 4; Some 4]%Z
  /\ (forall id,
        In id (keys (audienceTimestamps allFound)) <->
        exists p st,
          (1 <= p <= 4)%Z /\ reduceExample (Some (p, 4%Z)) = OK st
          /\ In id (keys (audienceTimestamps st)))
  /\ linePartNum4 (line "7" "202403051004000") = 2%Z.
Proof.
  assert (Hhex : forall dl, In dl monthExampleLines -> snd dl <> "" ->
                            hexIdLine (snd dl) = true).
  { assert (H : forallb (fun dl => (snd dl =? "") || hexIdLine (snd dl))
                        monthExampleLines = true) by (vm_compute; reflexivity).
    intros dl Hin Hne. apply (proj1 (forallb_forall _ _) H) in Hin.
    apply orb_true_iff in Hin. destruct Hin as [He|Hh]; [|exact Hh].
    apply String.eqb_eq in He. contradiction. }
  destruct (shards_partition_the_unsharded_run Check.isValidUuid Check.isValidDate
              Check.isValidMonth audienceStore show "2024-03" 4 monthExampleLines
              (or_introl eq_refl) eq_refl Hhex)
    as (all & Hall & _ & Hparts & _ & Hunion & Hthresholds).
  assert (Eall : all = allFound).
  { assert (H : OK all = OK allFound) by (rewrite <- Hall; vm_compute; reflexivity).
    now injection H. }
  subst all.
  destruct (Hparts 2%Z) as (st & Hst & Hids).
  assert (Est : st = part2Found).
  { assert (H : OK st = OK part2Found) by (rewrite <- Hst; vm_compute; reflexivity).
    now injection H. }
  subst st.
  split; [exact Hst|]. split; [exact Hids|]. split; [vm_compute; reflexivity|].
  split; [exact Hunion|].
  apply (proj1 (Hthresholds "7"%char _ 7%Z eq_refl)).
Defined.


(** X30 on part 2 of 4 of that month: two lines, 162 bytes. *)
Lemma audience_blob_has_81_bytes_a_line_witness :
  contentLength part2Result = 162%Z
  /\ audience part2Result = 2%Z
  /\ audienceBytes (audienceTimestamps part2Found) =
     (line "4" "202403051003000" ++ String "010" ""
      ++ line "7" "202403051004000" ++ String "010" "")%string.
Proof.
  destruct (audience_blob_has_81_bytes_a_line Check.isValidUuid Check.isValidDate
              Check.isValidMonth audienceStore steady show "2024-03"
              (Some (2, 4)%Z) [] part2Log part2Result)
    as (st & dls & Hst & Hdls & Hlen & _ & _ & _ & Hwf);
    [simpl; left; reflexivity|vm_compute; reflexivity|].
  assert (Est : st = part2Found).
  { assert (H : OK st = OK part2Found) by (rewrite <- Hst; vm_compute; reflexivity).
    now injection H. }
  assert (Edls : dls = monthExampleLines).
  { assert (H : OK dls = OK monthExampleLines) by (rewrite <- Hdls; vm_compute; reflexivity).
    now injection H. }
  subst st dls.
  destruct Hwf as (Hbytes & Hcount & _).
  { apply (proj1 (forallb_forall _ _)). vm_compute. reflexivity. }
  split; [rewrite Hlen, Hcount; vm_compute; reflexivity|].
  split; [rewrite Hcount; vm_compute; reflexivity|].
  rewrite Hbytes. vm_compute. reflexivity.
Defined.

(** C9 on a store that fails the audience blob twice, and on one that
    fails it three times. *)
Lemma audience_put_is_retried_twice_witness :
  fst (runExample (flaky 2) None)
  = OK {| audience := 8; contentLength := 648; part := None |}
  /\ attempts (computeAudienceKey show "2024-03" None) (snd (runExample (flaky 2) None))
     = 3%nat
  /\ fst (runExample (flaky 3) None) = Throw (StorageError true)
  /\ attempts (computeAudienceKey show "2024-03" None) (snd (runExample (flaky 3) None))
     = 3%nat
  /\ attempts (computeAudienceSummaryKey show "2024-03" None)
       (snd (runExample (flaky 3) None)) = 1%nat.
Proof.
  destruct (audience_put_is_retried_twice Check.isValidUuid Check.isValidDate
              Check.isValidMonth audienceStore (flaky 2) show "2024-03" None allFound [])
    as (Hretry & _ & _);
    [vm_compute; reflexivity|vm_compute; reflexivity|].
  destruct (Hretry 2%nat "etag" "etag") as [Hok Hputs];
    [lia| |vm_compute; reflexivity|vm_compute; reflexivity|].
  { intros [|[|i]] Hi; [vm_compute; reflexivity|vm_compute; reflexivity|lia]. }
  destruct (audience_put_is_retried_twice Check.isValidUuid Check.isValidDate
              Check.isValidMonth audienceStore (flaky 3) show "2024-03" None allFound [])
    as (_ & Hfail & Hsummary);
    [vm_compute; reflexivity|vm_compute; reflexivity|].
  destruct (Hfail "etag") as [Hthrow Hputs3]; [|vm_compute; reflexivity|].
  { intros [|[|[|i]]] Hi; [vm_compute; reflexivity|vm_compute; reflexivity|
                           vm_compute; reflexivity|lia]. }
  split; [exact Hok|]. split; [exact Hputs|]. split; [exact Hthrow|].
  split; [exact Hputs3|exact Hsummary].
Defined.

(** C10 on the keys of March 2024. *)
Lemma listing_prefix_matches_daily_keys_only_witness :
  String.prefix (computeAudienceKeyPrefix show "2024-03")
                (computeAudienceKey show "2024-03" (Some "2of4")) = false
  /\ Check.isValidDate "2024-03-05" = true
  /\ Check.isValidMonth "2024-03-05" = false
  /\ String.prefix "2024-03-" "2024-03-05" = true.
Proof.
  destruct (listing_prefix_matches_daily_keys_only Check.isValidDate Check.isValidMonth
              isValidMonth_length isValidDate_length show "2024-03") as [Hown Hdaily].
  split; [apply Hown|].
  apply (Hdaily "2024-03-05" None); [vm_compute; reflexivity|left; vm_compute; reflexivity|].
  vm_compute. reflexivity.
Defined.

(** ** More of the daily computer *)

(** X1 on the day of two downloads and a bot: one download in each of
    two hours. *)
Lemma daily_hours_count_their_downloads_witness :
  exists s,
    asShowSummary daily3_summary = Some s
    /\ count_of "2024-03-05T10" (hourlyDownloads s) = 1%Z
    /\ count_of "2024-03-05T11" (hourlyDownloads s) = 1%Z
    /\ count_of "2024-03-05T12" (hourlyDownloads s) = 0%Z.
Proof.
  destruct (daily_hours_count_their_downloads showDailyKey (dailyStore rows3) show
              "2024-03-05" rows3 "etag-1" daily3_summary daily3_audience)
    as (s & Hs & _ & Hh); [vm_compute; reflexivity|vm_compute; reflexivity|].
  exists s. split; [exact Hs|].
  repeat split; rewrite (proj1 (Hh _)); vm_compute; reflexivity.
Defined.

(** X2 on the same day: the episode has two downloads, the first in
    the hour of 10. *)
Lemma daily_episode_counts_and_first_hour_witness :
  exists s,
    asShowSummary daily3_summary = Some s
    /\ total (hoursOfEpisode "E1" (episodes s)) = 2%Z
    /\ forall first,
         hourAt "E1" (episodes s) = Some first ->
         str_lt "2024-03-05T10" first = false.
Proof.
  destruct (daily_episode_counts_and_first_hour showDailyKey (dailyStore rows3) show
              "2024-03-05" rows3 "etag-1" daily3_summary daily3_audience)
    as (s & Hs & He); [vm_compute; reflexivity|vm_compute; reflexivity|].
  exists s. split; [exact Hs|]. destruct (He "E1") as (_ & Ht & _ & Hf).
  split; [rewrite Ht; vm_compute; reflexivity|].
  intros first H. destruct (Hf first H) as [_ Hle].
  apply (Hle (download (Some "2024-03-05T10:30:00.000Z") None "E1" "a01"));
    [right; now left|reflexivity].
Defined.

(** X3 on the same day: two downloads in [countryCode]. *)
Lemma every_download_counts_once_per_fixed_dimension_witness :
  exists s,
    asShowSummary daily3_summary = Some s
    /\ dimensionTotal "countryCode" (dimensionsOf s) = 2%Z.
Proof.
  destruct (every_download_counts_once_per_fixed_dimension showDailyKey
              (dailyStore rows3) show "2024-03-05" rows3 "etag-1" daily3_summary
              daily3_audience)
    as (s & Hs & Hd); [vm_compute; reflexivity|vm_compute; reflexivity|].
  exists s. split; [exact Hs|].
  destruct (Hd "countryCode") as [_ H]; [now left|]. rewrite H. reflexivity.
Defined.

(** X4 on the same day: two downloads by an app, none by a browser. *)
Lemma agent_dimensions_count_by_agent_type_witness :
  exists s,
    asShowSummary daily3_summary = Some s
    /\ dimensionTotal "appName" (dimensionsOf s) = 2%Z
    /\ dimensionTotal "browserName" (dimensionsOf s) = 0%Z.
Proof.
  destruct (agent_dimensions_count_by_agent_type showDailyKey (dailyStore rows3) show
              "2024-03-05" rows3 "etag-1" daily3_summary daily3_audience)
    as (s & Hs & Hd); [vm_compute; reflexivity|vm_compute; reflexivity|].
  exists s. split; [exact Hs|]. split.
  - rewrite (Hd "appName" "app"); [reflexivity|now left].
  - rewrite (Hd "browserName" "browser"); [reflexivity|right; now left].
Defined.

(** X5 on the same day: one listener, first heard in the hour of 11. *)
Lemma daily_audience_is_first_seen_per_listener_witness :
  NoDup (keys daily3_audience)
  /\ obj_get "a01" daily3_audience = Some "202403051101000"
  /\ ~ In "b02" (keys daily3_audience).
Proof.
  destruct (daily_audience_is_first_seen_per_listener showDailyKey (dailyStore rows3)
              show "2024-03-05" rows3 "etag-1" daily3_summary daily3_audience)
    as (Hnd & Hk & Hv); [vm_compute; reflexivity|vm_compute; reflexivity|].
  split; [exact Hnd|]. split.
  - rewrite Hv; [reflexivity| |discriminate|reflexivity].
    intros r [<-|[<-|[]]]; vm_compute; discriminate.
  - intros Hin. apply Hk in Hin. destruct Hin as (_ & _ & r & [<-|[<-|[]]] & Hr);
      discriminate Hr.
Defined.

(** ** More of the monthly aggregator *)

(** X7 on the month of two days read: the hours of both. *)
Lemma month_hours_are_sums_of_daily_hours_witness :
  exists s,
    asShowSummary month1 = Some s
    /\ count_of "2024-01-15T12" (hourlyDownloads s) = 3%Z
    /\ count_of "2024-01-16T08" (hourlyDownloads s) = 5%Z.
Proof.
  destruct (month_hours_are_sums_of_daily_hours monthStore show monthKeys "2024-01"
              month1) as (s & Hs & Hh); [vm_compute; reflexivity|].
  exists s. split; [exact Hs|]. split; rewrite Hh; vm_compute; reflexivity.
Defined.

(** X8 on the same month: the episode of the second day. *)
Lemma month_episodes_merge_the_days_witness :
  exists s,
    asShowSummary month1 = Some s
    /\ count_of "2024-01-16T08" (hoursOfEpisode "E2" (episodes s)) = 5%Z
    /\ count_of "2024-01-16T08" (hoursOfEpisode "E1" (episodes s)) = 0%Z.
Proof.
  destruct (month_episodes_merge_the_days monthStore show monthKeys "2024-01" month1)
    as (s & Hs & He); [|vm_compute; reflexivity|].
  { assert (H : forallb (fun r => forallb (fun d => negb (d =? "__proto__"))
                                          (keys (dimensionsOf (snd r))))
                        (readSummaries monthStore monthKeys) = true)
      by (vm_compute; reflexivity).
    intros r Hr Hin. apply (proj1 (forallb_forall _ _) H) in Hr.
    apply (proj1 (forallb_forall _ _) Hr) in Hin. discriminate Hin. }
  exists s. split; [exact Hs|]. split.
  - destruct (He "E2") as (_ & Hc & _). rewrite Hc. vm_compute. reflexivity.
  - destruct (He "E1") as (_ & Hc & _). rewrite Hc. vm_compute. reflexivity.
Defined.

(** ** More of the overall merge *)

(** X10 on January merged over a prior overall summary. *)
Lemma merging_a_month_twice_saves_once_witness :
  tryComputeNewOverall (Some priorOverall) january = Some mergedOverall
  /\ tryComputeNewOverall (Some mergedOverall) january = None.
Proof.
  split; [vm_compute; reflexivity|].
  apply (merging_a_month_twice_saves_once (Some priorOverall) january mergedOverall).
  vm_compute. reflexivity.
Defined.

(** X11 on the same merge: the counts of the episode it moved. *)
Lemma overall_merge_leaves_counts_alone_witness :
  hourlyDownloads mergedOverall = hourlyDownloads priorOverall
  /\ hoursOfEpisode "E2" (episodes mergedOverall)
     = hoursOfEpisode "E2" (episodes priorOverall)
  /\ hourAt "E2" (episodes mergedOverall) = Some "2024-01-15T12".
Proof.
  destruct (overall_merge_leaves_counts_alone (Some priorOverall) january mergedOverall)
    as [(_ & _ & Hh & _) He]; [vm_compute; reflexivity|].
  split; [exact Hh|]. split; [apply He|reflexivity].
Defined.

(** ** Sorting and keys *)

(** X12 on an object of two properties, the later key first. *)
Lemma computeSorted_orders_the_keys_of_the_object_witness :
  exists o',
    computeSorted (JsObject [("period", JsString "p"); ("hours", JsNumber 1)])
      = JsObject o'
    /\ keys_ascending (map fst o') = true.
Proof.
  destruct (computeSorted_orders_the_keys_of_the_object
              [("period", JsString "p"); ("hours", JsNumber 1)])
    as (o' & Hs & _ & Ha & _).
  - repeat constructor; cbn; intuition discriminate.
  - intros k [<-|[<-|[]]]; reflexivity.
  - exists o'. now split.
Defined.

(** X13 on two months of the show. *)
Lemma show_summary_keys_are_distinct_witness :
  computeShowSummaryKey show "2024-03" <> computeShowSummaryKey show "2024-04".
Proof.
  apply (show_summary_keys_are_distinct show "2024-03" show "2024-04");
    [reflexivity|reflexivity|]. right. discriminate.
Defined.

(** ** The coordinator *)

(** X15 on a request whose [phases] names no phase. *)
Lemma unrecognized_phases_run_nothing_witness :
  exists req,
    tryParseRecomputeShowSummariesForMonthRequest Check.isValidUuid Check.isValidMonth
      Check.tryParseInt "update" "/work/recompute-show-summaries" (Some bogusPhases)
    = OK (Some req)
    /\ Recompute.phasesOf req = []
    /\ Recompute.runDailies (Recompute.phasesOf req) = false
    /\ Recompute.runAggregates (Recompute.phasesOf req) = false
    /\ Recompute.runAudience (Recompute.phasesOf req) = false.
Proof.
  destruct (unrecognized_phases_run_nothing Check.isValidUuid Check.isValidMonth
              Check.tryParseInt bogusPhases show "2024-03")
    as (req & Hreq & Hplan); try (vm_compute; reflexivity).
  exists req. split; [exact Hreq|].
  change (obj_get "phases" bogusPhases) with (Some "bogus,weekly") in Hplan.
  cbv iota in Hplan. destruct Hplan as [Hp Hnone].
  split; [rewrite Hp; reflexivity|]. now apply Hnone.
Defined.

(** X17 on five days of March, from day 5 on, three days at most. *)
Lemma days_processed_are_a_window_witness :
  Recompute.showDailyKeysProcessed dateOfDailyKey dayOfDate (Some 5%Z) (Some 3%Z)
    marchKeys
  = OK (map (showDailyKey show) ["2024-03-05"; "2024-03-06"; "2024-03-07"]).
Proof.
  rewrite (days_processed_are_a_window dateOfDailyKey dayOfDate (Some 5%Z) (Some 3%Z)
             marchKeys dayOfKey).
  - vm_compute. reflexivity.
  - intros v [<-|[<-|[<-|[<-|[<-|[]]]]]]; vm_compute; reflexivity.
Defined.

(** X18 on the day of [rows3]. *)
Lemma dailies_write_where_the_month_reads_witness :
  map fst day5Puts
  = [computeShowSummaryKey show "2024-03-05"; computeAudienceKey show "2024-03-05" None]
  /\ Recompute.inputKeys dateOfDailyKey show [showDailyKey show "2024-03-05"]
     = OK [computeShowSummaryKey show "2024-03-05"]
  /\ String.prefix (computeAudienceKeyPrefix show "2024-03")
                   (computeAudienceKey show "2024-03-05" None) = true.
Proof.
  destruct (dailies_write_where_the_month_reads dateOfDailyKey showDailyKey
              (dailyStore rows3) show "2024-03" (showDailyKey show "2024-03-05")
              "2024-03-05" day5Puts)
    as (summary & ats & _ & Hputs & _ & Hkeys & Hprefix);
    try (vm_compute; reflexivity).
  split; [rewrite Hputs; reflexivity|]. split; [exact Hkeys|exact Hprefix].
Defined.

(** X19 on the month of two days, over a store with an overall
    summary. *)
Lemma aggregates_block_writes_month_then_overall_witness :
  map fst monthPuts
  = [computeShowSummaryKey show "2024-01"; computeShowSummaryKey show "overall"]
  /\ Forall (fun p => exists doc, snd p = JsonBody doc /\ isValidShowSummary doc = true)
            monthPuts.
Proof.
  destruct (aggregates_block_writes_month_then_overall monthStore show "2024-01"
              monthKeys monthPuts)
    as (monthDoc & typed & prior & _ & _ & _ & _ & _ & Hvalid);
    [vm_compute; reflexivity|].
  split; [reflexivity|exact Hvalid].
Defined.

(** X20 on the store that holds the overall summary after January. *)
Lemma first_hour_is_answered_from_the_merged_overall_witness :
  findFirstHourForEpisodeId mergedStore show "E2" = OK (Some "2024-01-15T12")
  /\ findFirstHourForEpisodeId mergedStore show "E3" = OK (Some "2024-03-01T00")
  /\ findFirstHourForEpisodeId mergedStore show "E9" = OK None.
Proof.
  assert (H := first_hour_is_answered_from_the_merged_overall mergedStore show
                 (Some priorOverall) january mergedOverall "etag-m").
  repeat split; rewrite H; try (vm_compute; reflexivity);
    repeat constructor; cbn; intuition discriminate.
Defined.

(** ** More of the audience reducer *)

(** X21 on the unsplit month: nine lines, eight listeners. *)
Lemma found_audience_counts_lines_witness :
  total (found allFound) = 9%Z /\ count allFound = 8%Z
  /\ count_of "2024-03-06" (found allFound) = 5%Z.
Proof.
  destruct (found_audience_counts_lines Check.isValidUuid Check.isValidDate
              Check.isValidMonth audienceStore show "2024-03" None allFound)
    as (dls & Hdls & Ht & Hd & _); [exact I|vm_compute; reflexivity|].
  assert (Edls : dls = monthExampleLines).
  { assert (H : OK dls = OK monthExampleLines) by (rewrite <- Hdls; vm_compute; reflexivity).
    now injection H. }
  subst dls. split; [rewrite Ht; vm_compute; reflexivity|].
  split; [reflexivity|]. rewrite Hd. vm_compute. reflexivity.
Defined.

(** X22 on the same month, split in three. *)
Lemma unsupported_parts_fail_at_the_first_line_witness :
  reduceExample (Some (1, 3)%Z) = Throw (UnsupportedConfig "numParts").
Proof.
  unfold reduceExample.
  rewrite (unsupported_parts_fail_at_the_first_line Check.isValidUuid Check.isValidDate
             Check.isValidMonth audienceStore show "2024-03" 1 3 monthExampleLines);
    [reflexivity|lia|lia|vm_compute; reflexivity].
Defined.

(** X23 on the same month, part 5 of 4. *)
Lemma part_out_of_range_finds_nothing_witness :
  reduceExample (Some (5, 4)%Z) = OK emptyFound.
Proof.
  apply (part_out_of_range_finds_nothing Check.isValidUuid Check.isValidDate
           Check.isValidMonth audienceStore steady show "2024-03" 5 4 monthExampleLines);
    [now left|lia|vm_compute; reflexivity].
Defined.

(** X25 on the key of a daily audience file and on the key of a part. *)
Lemma audience_key_reads_back_witness :
  unpackAudienceKey Check.isValidUuid Check.isValidDate Check.isValidMonth day5
  = OK (show, "2024-03-05", None)
  /\ unpackAudienceKey Check.isValidUuid Check.isValidDate Check.isValidMonth
       (computeAudienceKey show "2024-03" (Some "2of4"))
     = OK (show, "2024-03", Some "2of4").
Proof.
  split.
  - apply (audience_key_reads_back Check.isValidUuid Check.isValidDate
             Check.isValidMonth show "2024-03-05" None); vm_compute; reflexivity.
  - apply (audience_key_reads_back Check.isValidUuid Check.isValidDate
             Check.isValidMonth show "2024-03" (Some "2of4")); vm_compute; reflexivity.
Defined.

(** X26 on two parts of four, and on a part and the unsplit run. *)
Lemma parts_have_keys_of_their_own_witness :
  computeAudienceKey show "2024-03" (partName (Some (1, 4)%Z))
    <> computeAudienceKey show "2024-03" (partName (Some (2, 4)%Z))
  /\ computeAudienceSummaryKey show "2024-03" (partName (Some (3, 8)%Z))
       <> computeAudienceSummaryKey show "2024-03" (partName None).
Proof.
  split.
  - apply (parts_have_keys_of_their_own show "2024-03" (Some (1, 4)%Z) (Some (2, 4)%Z));
      [split; [now left|lia]|split; [now left|lia]|discriminate].
  - apply (parts_have_keys_of_their_own show "2024-03" (Some (3, 8)%Z) None);
      [split; [now right|lia]|exact I|discriminate].
Defined.

(** X27 on the timestamps of two listeners. *)
Lemma saved_audience_reads_back_witness :
  exists st,
    forOf (processLine None "2024-03-05") (map lineOf listeners) emptyFound = OK st
    /\ audienceTimestamps st = listeners
    /\ count st = 2%Z.
Proof.
  destruct (saved_audience_reads_back show "2024-03-05" listeners)
    as (_ & st & Hrun & Ha & Hc & _).
  - repeat constructor; cbn; intuition discriminate.
  - repeat constructor.
  - exists st. split; [exact Hrun|]. split; [exact Ha|exact Hc].
Defined.

End Scenarios.
